(** * Employee and screenshot tool servers

    A shallow embedding of the three tool servers of the repository:

    - the screenshot server ([get_screenshot], first part of
      [src/screenshoot.ts]);
    - the employee server written against the low-level [Server] class with
      one [CallToolRequestSchema] handler (second part of
      [src/screenshoot.ts]), module [Raw];
    - the employee server written against [McpServer] with zod schemas
      ([src/employee.ts]), module [Mcp].

    The employees table lives in an in-memory SQLite database.  The SQL text
    of the handlers is embedded as a small statement type with an evaluator
    that follows SQLite's rules for column affinity, comparison and NOT NULL
    constraints.  What belongs to the JavaScript runtime or to the SQLite
    engine and is not written in the repository (printing of numbers that
    are not small integers, which numbers are bound as integers, [date()],
    the clock, [avg()], conversion between reals and text) is taken as a
    parameter, class [Builtins].

    The requests covered are those whose argument values are JSON scalars:
    null, booleans, numbers and strings.  What the runtime does with an
    array or an object that a request nests in its arguments (how it prints
    it, and how bun:sqlite binds it) is not part of the development. *)

From Stdlib Require Import ZArith String Ascii List Floats Bool Sorted.
From stdpp Require Import gmap strings list pretty.

Set Warnings "-inexact-float".

Open Scope string_scope.
Open Scope Z_scope.

(** ** JavaScript values *)

(** The scalar values a JSON arguments object carries at its top level,
    plus [undefined] for a property that is absent.  A request that nests
    an array or an object in its arguments is outside the development:
    every statement about "any arguments" ranges over objects whose values
    are of this type. *)
Inductive jsval :=
| JUndefined
| JNull
| JBool (b : bool)
| JNum (f : float)
| JStr (s : string).

(** [if (v)]: ToBoolean. *)
Definition truthy (v : jsval) : bool :=
  match v with
  | JUndefined | JNull => false
  | JBool b => b
  | JNum f => negb (PrimFloat.eqb f 0%float) && PrimFloat.eqb f f
  | JStr s => negb (String.eqb s "")
  end.

(** [(args as any).k], and the destructuring [({k}) => ...]. *)
Definition prop (o : gmap string jsval) (k : string) : jsval :=
  default JUndefined (o !! k).

(** [a || b] *)
Definition js_or (a b : jsval) : jsval := if truthy a then a else b.

(** ** Doubles and integers *)

(** The integer a finite double denotes, when it denotes one. *)
Definition float_to_Z (f : float) : option Z :=
  match Prim2SF f with
  | S754_zero _ => Some 0
  | S754_finite s m e =>
      let v := if s then Z.neg m else Z.pos m in
      if 0 <=? e then Some (v * 2 ^ e)
      else if Z.pos m mod 2 ^ (- e) =? 0 then Some (v / 2 ^ (- e))
      else None
  | _ => None
  end.

(** The double nearest to an integer (ties to even): a C cast of an int64,
    and what the runtime hands back for an INTEGER column. *)
Definition Z_to_float (z : Z) : float :=
  SF2Prim (binary_normalize prec emax z 0 false).

Definition is_nan (f : float) : bool := negb (PrimFloat.eqb f f).

(** Exact comparison of an integer with a double that is not NaN. *)
Definition compare_Z_float (z : Z) (f : float) : comparison :=
  match Prim2SF f with
  | S754_zero _ => Z.compare z 0
  | S754_infinity s => if s then Gt else Lt
  | S754_nan => Lt
  | S754_finite s m e =>
      let v := if s then Z.neg m else Z.pos m in
      if 0 <=? e then Z.compare z (v * 2 ^ e)
      else Z.compare (z * 2 ^ (- e)) v
  end.

(** Order of two doubles that are not NaN, through [<=]. *)
Definition compare_float (a b : float) : comparison :=
  if (a <=? b)%float then (if (b <=? a)%float then Eq else Lt) else Gt.

(** ** SQLite values *)

Inductive sqlval :=
| SNull
| SInt (z : Z)
| SReal (f : float)
| SText (s : string).

Definition is_null (v : sqlval) : bool :=
  match v with SNull => true | _ => false end.

(** Order of two values, as ORDER BY, MIN and MAX see them: NULL first, then
    numbers by value, then text by bytes (the BINARY collation). *)
Definition sql_compare (a b : sqlval) : comparison :=
  match a, b with
  | SNull, SNull => Eq
  | SNull, _ => Lt
  | _, SNull => Gt
  | SInt x, SInt y => Z.compare x y
  | SInt x, SReal y => compare_Z_float x y
  | SReal x, SInt y => CompOpp (compare_Z_float y x)
  | SReal x, SReal y => compare_float x y
  | (SInt _ | SReal _), SText _ => Lt
  | SText _, (SInt _ | SReal _) => Gt
  | SText x, SText y => String.compare x y
  end.

(** ** What the runtime and the engine provide *)

(** Functions of the JavaScript runtime and of the SQLite engine that the
    handlers reach but the repository does not define. *)
Class Builtins := {
  (** Number::toString for a finite double that is not an integer of
      magnitude at most 2^53: the shortest digits that read back as the
      same double, laid out as the language prescribes. *)
  js_number_repr : float -> string;
  (** The integer bun:sqlite hands to SQLite for a number it binds as an
      INTEGER (an integral double of small magnitude); [None] for a number
      it binds as a REAL. *)
  bound_as_integer : float -> option Z;
  (** SQLite's conversion of a REAL to TEXT. *)
  sqlite_real_text : float -> string;
  (** SQLite's reading of a text that is a well-formed real literal and not
      an integer literal; [None] for any other text. *)
  sqlite_real_literal : string -> option float;
  (** SQLite's [date(X)] with one argument: a TEXT of the form YYYY-MM-DD,
      or NULL when X is not a time value. *)
  sqlite_date : sqlval -> sqlval;
  (** [DATE('now', '-1 year')] at the time of the call. *)
  date_now_minus_1_year : sqlval;
  (** SQLite's [avg()] over the values of a non-empty group. *)
  sqlite_avg : list sqlval -> float;
}.

(** ** Numbers as text on the JavaScript side *)

(** Number::toString, as a template literal applies it.  For an integer of
    magnitude at most 2^53 the shortest digits that read back as the same
    double are the digits of the integer; beyond that they are not (2^64
    prints as 18446744073709552000), and the runtime is asked. *)
Definition number_to_string `{Builtins} (f : float) : string :=
  match Prim2SF f with
  | S754_nan => "NaN"
  | S754_infinity s => if s then "-Infinity" else "Infinity"
  | S754_zero _ => "0"
  | S754_finite _ _ _ =>
      match float_to_Z f with
      | Some z =>
          if Z.abs z <=? 2 ^ 53 then pretty z else js_number_repr f
      | None => js_number_repr f
      end
  end.

(** [`${v}`] *)
Definition to_string `{Builtins} (v : jsval) : string :=
  match v with
  | JUndefined => "undefined"
  | JNull => "null"
  | JBool b => if b then "true" else "false"
  | JNum f => number_to_string f
  | JStr s => s
  end.

(** [`${xs.length}`] *)
Definition length_to_string `{Builtins} {A} (xs : list A) : string :=
  number_to_string (Z_to_float (Z.of_nat (length xs))).

(** Numerator and denominator of the magnitude of a finite double. *)
Definition magnitude (m : positive) (e : Z) : Z * Z :=
  if 0 <=? e then (Z.pos m * 2 ^ e, 1) else (Z.pos m, 2 ^ (- e)).

(** [x.toFixed(2)]: the integer n with n / 100 nearest to x, the larger one
    on a tie, printed with two decimals. *)
Definition to_fixed_2 `{Builtins} (f : float) : string :=
  match Prim2SF f with
  | S754_zero _ => "0.00"
  | S754_finite s m e =>
      let '(p, q) := magnitude m e in
      if 10 ^ 21 * q <=? p then number_to_string f
      else
        let n := (200 * p + q) / (2 * q) in
        let cents := pretty (n mod 100) in
        (if s then "-" else "") ++ pretty (n / 100) ++ "." ++
        (if n mod 100 <? 10 then "0" else "") ++ cents
  | _ => number_to_string f
  end.

(** [Math.round(x)]: the integer nearest to x, the larger one on a tie. *)
Definition math_round (f : float) : float :=
  match Prim2SF f with
  | S754_finite s m e =>
      match float_to_Z f with
      | Some _ => f
      | None =>
          let '(p, q) := magnitude m e in
          let v := if s then - p else p in
          let z := (2 * v + q) / (2 * q) in
          if (z =? 0) && s then (-0)%float else Z_to_float z
      end
  | _ => f
  end.

(** ** Between JavaScript and SQLite *)

(** How bun:sqlite binds a JavaScript value to a [?]: [undefined] and [null]
    as NULL, a boolean as an INTEGER, a string as TEXT, a number as a
    number (NaN arrives as NULL).  An integral double is handed over as an
    INTEGER and any other as a REAL; the model keeps the double and lets the
    affinity of the column, or [sql_text] below, tell the two apart. *)
Definition bind (v : jsval) : sqlval :=
  match v with
  | JUndefined | JNull => SNull
  | JBool b => SInt (if b then 1 else 0)
  | JNum f => if is_nan f then SNull else SReal f
  | JStr s => SText s
  end.

(** What a column value looks like in the row object of a result. *)
Definition js_of_sql (v : sqlval) : jsval :=
  match v with
  | SNull => JNull
  | SInt z => JNum (Z_to_float z)
  | SReal f => JNum f
  | SText s => JStr s
  end.

Definition in_int64 (z : Z) : bool := (- 2 ^ 63 <=? z) && (z <? 2 ^ 63).

(** A bound number as TEXT.  A double that was handed over as an INTEGER
    prints as one, any other as SQLite prints a REAL. *)
Definition sql_text `{Builtins} (v : sqlval) : sqlval :=
  match v with
  | SInt z => SText (pretty z)
  | SReal f =>
      match bound_as_integer f with
      | Some z => SText (pretty z)
      | None => SText (sqlite_real_text f)
      end
  | _ => v
  end.

Definition is_space (c : ascii) : bool :=
  let n := nat_of_ascii c in
  ((n =? 32) || ((9 <=? n) && (n <=? 13)))%nat.

Definition digit_of (c : ascii) : option Z :=
  let n := Z.of_nat (nat_of_ascii c) in
  if (48 <=? n) && (n <=? 57) then Some (n - 48) else None.

Fixpoint skip_spaces (s : string) : string :=
  match s with
  | String c s' => if is_space c then skip_spaces s' else s
  | EmptyString => s
  end.

(** Digits, then nothing but spaces: the value of the digits. *)
Fixpoint digits_value (s : string) (acc : Z) (seen : bool) : option Z :=
  match s with
  | EmptyString => if seen then Some acc else None
  | String c s' =>
      match digit_of c with
      | Some d => digits_value s' (10 * acc + d) true
      | None =>
          if seen && (match skip_spaces s with EmptyString => true | _ => false end)
          then Some acc else None
      end
  end.

(** A well-formed integer literal: spaces, a sign, digits, spaces. *)
Definition integer_literal (s : string) : option Z :=
  match skip_spaces s with
  | String "-" s' => Z.opp <$> digits_value s' 0 false
  | String "+" s' => digits_value s' 0 false
  | s' => digits_value s' 0 false
  end.

(** A REAL that is an integer of the int64 range becomes an INTEGER. *)
Definition real_to_integer (f : float) : sqlval :=
  match float_to_Z f with
  | Some z => if (- 2 ^ 63 <? z) && (z <? 2 ^ 63 - 1) then SInt z else SReal f
  | None => SReal f
  end.

(** The number a text denotes when it is a well-formed numeric literal. *)
Definition numeric_of_text `{Builtins} (s : string) : option sqlval :=
  match integer_literal s with
  | Some z => Some (if in_int64 z then SInt z else real_to_integer (Z_to_float z))
  | None => (fun f => real_to_integer f) <$> sqlite_real_literal s
  end.

Inductive affinity := AffInteger | AffText | AffReal | AffNumeric.

(** Column affinity applied to a value on its way into a column. *)
Definition apply_affinity `{Builtins} (a : affinity) (v : sqlval) : sqlval :=
  match a, v with
  | AffText, (SInt _ | SReal _) => sql_text v
  | (AffInteger | AffNumeric), SText s => default v (numeric_of_text s)
  | (AffInteger | AffNumeric), SReal f => real_to_integer f
  | AffReal, SText s =>
      match numeric_of_text s with
      | Some (SInt z) => SReal (Z_to_float z)
      | Some n => n
      | None => v
      end
  | AffReal, SInt z => SReal (Z_to_float z)
  | _, _ => v
  end.

(** ** The employees table *)

Inductive column :=
| Id | Name | Department | Level | Performance_score
| Quarterly_rating | Bonus | Hire_date | Manager_id.

(** The declared types: INTEGER, TEXT, REAL, and DATE, which SQLite reads
    as NUMERIC. *)
Definition column_affinity (c : column) : affinity :=
  match c with
  | Id | Manager_id => AffInteger
  | Name | Department | Level | Quarterly_rating => AffText
  | Performance_score | Bonus => AffReal
  | Hire_date => AffNumeric
  end.

Definition not_null (c : column) : bool :=
  match c with Manager_id => false | _ => true end.

Record employee := {
  emp_id : Z;
  emp_name : sqlval;
  emp_department : sqlval;
  emp_level : sqlval;
  emp_performance_score : sqlval;
  emp_quarterly_rating : sqlval;
  emp_bonus : sqlval;
  emp_hire_date : sqlval;
  emp_manager_id : sqlval;
}.

Definition field (c : column) (e : employee) : sqlval :=
  match c with
  | Id => SInt (emp_id e)
  | Name => emp_name e
  | Department => emp_department e
  | Level => emp_level e
  | Performance_score => emp_performance_score e
  | Quarterly_rating => emp_quarterly_rating e
  | Bonus => emp_bonus e
  | Hire_date => emp_hire_date e
  | Manager_id => emp_manager_id e
  end.

Definition set_field (c : column) (v : sqlval) (e : employee) : employee :=
  match c with
  | Id => e
  | Name => {| emp_id := emp_id e; emp_name := v; emp_department := emp_department e; emp_level := emp_level e; emp_performance_score := emp_performance_score e; emp_quarterly_rating := emp_quarterly_rating e; emp_bonus := emp_bonus e; emp_hire_date := emp_hire_date e; emp_manager_id := emp_manager_id e |}
  | Department => {| emp_id := emp_id e; emp_name := emp_name e; emp_department := v; emp_level := emp_level e; emp_performance_score := emp_performance_score e; emp_quarterly_rating := emp_quarterly_rating e; emp_bonus := emp_bonus e; emp_hire_date := emp_hire_date e; emp_manager_id := emp_manager_id e |}
  | Level => {| emp_id := emp_id e; emp_name := emp_name e; emp_department := emp_department e; emp_level := v; emp_performance_score := emp_performance_score e; emp_quarterly_rating := emp_quarterly_rating e; emp_bonus := emp_bonus e; emp_hire_date := emp_hire_date e; emp_manager_id := emp_manager_id e |}
  | Performance_score => {| emp_id := emp_id e; emp_name := emp_name e; emp_department := emp_department e; emp_level := emp_level e; emp_performance_score := v; emp_quarterly_rating := emp_quarterly_rating e; emp_bonus := emp_bonus e; emp_hire_date := emp_hire_date e; emp_manager_id := emp_manager_id e |}
  | Quarterly_rating => {| emp_id := emp_id e; emp_name := emp_name e; emp_department := emp_department e; emp_level := emp_level e; emp_performance_score := emp_performance_score e; emp_quarterly_rating := v; emp_bonus := emp_bonus e; emp_hire_date := emp_hire_date e; emp_manager_id := emp_manager_id e |}
  | Bonus => {| emp_id := emp_id e; emp_name := emp_name e; emp_department := emp_department e; emp_level := emp_level e; emp_performance_score := emp_performance_score e; emp_quarterly_rating := emp_quarterly_rating e; emp_bonus := v; emp_hire_date := emp_hire_date e; emp_manager_id := emp_manager_id e |}
  | Hire_date => {| emp_id := emp_id e; emp_name := emp_name e; emp_department := emp_department e; emp_level := emp_level e; emp_performance_score := emp_performance_score e; emp_quarterly_rating := emp_quarterly_rating e; emp_bonus := emp_bonus e; emp_hire_date := v; emp_manager_id := emp_manager_id e |}
  | Manager_id => {| emp_id := emp_id e; emp_name := emp_name e; emp_department := emp_department e; emp_level := emp_level e; emp_performance_score := emp_performance_score e; emp_quarterly_rating := emp_quarterly_rating e; emp_bonus := emp_bonus e; emp_hire_date := emp_hire_date e; emp_manager_id := v |}
  end.

(** The table in rowid order, and the last rowid AUTOINCREMENT handed out
    (the [sqlite_sequence] entry of the table). *)
Record database := {
  employees : list employee;
  sqlite_sequence : Z;
}.

(** ** Conditions and ordering *)

Inductive cmpop := OpEq | OpLe | OpGe.

(** A comparison between two values is true, and neither false nor NULL. *)
Definition holds (op : cmpop) (a b : sqlval) : bool :=
  negb (is_null a) && negb (is_null b) &&
  match op, sql_compare a b with
  | OpEq, Eq => true
  | OpLe, (Lt | Eq) => true
  | OpGe, (Gt | Eq) => true
  | _, _ => false
  end.

(** SQLite converts the operand without affinity before it compares it with
    a column: to a number when it is a numeric literal and the column is
    numeric, to text when the column is TEXT. *)
Definition against_column `{Builtins} (c : column) (v : sqlval) : sqlval :=
  match column_affinity c, v with
  | AffText, _ => sql_text v
  | _, SText s => default v (numeric_of_text s)
  | _, _ => v
  end.

(** The conjuncts the handlers put after WHERE. *)
Inductive cond :=
| CTrue                                         (* 1=1 *)
| CParam (c : column) (op : cmpop)              (* c op ? *)
| CLiteral (c : column) (op : cmpop) (v : sqlval) (* c op literal *)
| CHiredBefore (through_date : bool)
    (* hire_date <= DATE('now', '-1 year'), or with DATE(hire_date) on the left *)
| CIsNull (c : column).                         (* c IS NULL *)

(** The conjunction holds for a row; each [?] takes the next parameter, and a
    [?] left without one is NULL.  The date on the right of [CHiredBefore]
    is a YYYY-MM-DD text, which no affinity changes. *)
Fixpoint where_holds `{Builtins} (cs : list cond) (ps : list sqlval) (e : employee) : bool :=
  match cs with
  | [] => true
  | CTrue :: cs' => where_holds cs' ps e
  | CParam c op :: cs' =>
      holds op (field c e) (against_column c (hd SNull ps)) && where_holds cs' (tl ps) e
  | CLiteral c op v :: cs' =>
      holds op (field c e) (against_column c v) && where_holds cs' ps e
  | CHiredBefore through_date :: cs' =>
      holds OpLe
        (if through_date then sqlite_date (emp_hire_date e) else emp_hire_date e)
        date_now_minus_1_year
      && where_holds cs' ps e
  | CIsNull c :: cs' => is_null (field c e) && where_holds cs' ps e
  end.

(** ORDER BY: the keys in turn, each ascending or descending. *)
Fixpoint order_le (keys : list (column * bool)) (a b : employee) : bool :=
  match keys with
  | [] => true
  | (c, desc) :: keys' =>
      match (if desc then sql_compare (field c b) (field c a)
             else sql_compare (field c a) (field c b)) with
      | Lt => true
      | Gt => false
      | Eq => order_le keys' a b
      end
  end.

Fixpoint insert_sorted {A} (le : A -> A -> bool) (x : A) (l : list A) : list A :=
  match l with
  | [] => [x]
  | y :: l' => if le x y then x :: l else y :: insert_sorted le x l'
  end.

(** A stable sort: rows that compare equal keep the order of the scan. *)
Definition sort_by {A} (le : A -> A -> bool) (l : list A) : list A :=
  foldr (insert_sorted le) [] l.

(** [SELECT * FROM employees WHERE ... ORDER BY ...] *)
Definition select_employees `{Builtins} (cs : list cond) (keys : list (column * bool))
    (ps : list sqlval) (d : database) : list employee :=
  sort_by (order_le keys) (filter (fun e => where_holds cs ps e = true) (employees d)).

(** ** Statistics per department *)

Record stats := {
  st_department : sqlval;
  st_employee_count : Z;
  st_avg_performance : float;
  st_avg_bonus : float;
  st_min_performance : sqlval;
  st_max_performance : sqlval;
}.

Definition same_value (a b : sqlval) : bool :=
  match sql_compare a b with Eq => true | _ => false end.

Definition sql_min (a b : sqlval) : sqlval :=
  match sql_compare b a with Lt => b | _ => a end.

Definition sql_max (a b : sqlval) : sqlval :=
  match sql_compare b a with Gt => b | _ => a end.

(** The aggregates of one group. *)
Definition group_stats `{Builtins} (key : sqlval) (rows : list employee) : stats :=
  let scores := emp_performance_score <$> rows in
  {| st_department := key;
     st_employee_count := Z.of_nat (length rows);
     st_avg_performance := sqlite_avg scores;
     st_avg_bonus := sqlite_avg (emp_bonus <$> rows);
     st_min_performance := foldr sql_min (hd SNull scores) scores;
     st_max_performance := foldr sql_max (hd SNull scores) scores |}.

(** The distinct keys of a sorted list, in its order. *)
Fixpoint distinct (l : list sqlval) : list sqlval :=
  match l with
  | [] => []
  | x :: l' => x :: filter (fun y => same_value x y = false) (distinct l')
  end.

(** The departments of the rows in the order in which SQLite forms the
    groups: it sorts the rows by department, ascending or descending. *)
Definition departments (desc : bool) (rows : list employee) : list sqlval :=
  distinct (sort_by (fun a b =>
                       match (if desc then sql_compare b a else sql_compare a b) with
                       | Gt => false
                       | _ => true
                       end)
              (emp_department <$> rows)).

(** [GROUP BY department] over the given rows; within a group the rows keep
    the order of the table. *)
Definition group_by_department `{Builtins} (desc : bool) (rows : list employee) : list stats :=
  (fun key =>
     group_stats key (filter (fun e => same_value (emp_department e) key = true) rows))
  <$> departments desc rows.

(** [... WHERE department = ? GROUP BY department] *)
Definition select_department_stats `{Builtins} (ps : list sqlval) (d : database) : list stats :=
  group_by_department false
    (filter (fun e => where_holds [CParam Department OpEq] ps e = true) (employees d)).

(** [... GROUP BY department ORDER BY avg_performance DESC].  With one
    GROUP BY term and one ORDER BY term, SQLite sorts the rows for the
    grouping in the direction of the ORDER BY term, so the groups are formed
    in descending order of department; the sort by average that follows is
    stable, and groups with equal averages stay in that order. *)
Definition select_all_stats `{Builtins} (d : database) : list stats :=
  sort_by (fun a b =>
             match compare_float (st_avg_performance b) (st_avg_performance a) with
             | Gt => false
             | _ => true
             end)
          (group_by_department true (employees d)).

(** ** INSERT and UPDATE *)

Inductive sqlite_exn :=
| ConstraintNotNull (c : column)    (* NOT NULL constraint failed *)
| Full.                             (* no rowid left *)

(** What [stmt.run] returns. *)
Record run_result := {
  changes : Z;
  lastInsertRowid : Z;
}.

(** AUTOINCREMENT: one more than the largest rowid ever used. *)
Definition next_rowid (d : database) : Z :=
  foldr Z.max (sqlite_sequence d) (emp_id <$> employees d) + 1.

(** The first NOT NULL column that would receive NULL. *)
Fixpoint null_violation (cols : list column) (vals : list sqlval) : option column :=
  match cols, vals with
  | c :: cols', v :: vals' =>
      if not_null c && is_null v then Some c else null_violation cols' vals'
  | c :: cols', [] => if not_null c then Some c else null_violation cols' []
  | [], _ => None
  end.

Definition inserted_columns : list column :=
  [Name; Department; Level; Performance_score; Quarterly_rating; Bonus; Hire_date; Manager_id].

Definition stored `{Builtins} (c : column) (v : sqlval) : sqlval :=
  apply_affinity (column_affinity c) v.

Definition nth_param (i : nat) (ps : list sqlval) : sqlval := nth i ps SNull.

(** [INSERT INTO employees (name, ..., manager_id) VALUES (?, ?, ?, ?, ?, ?, ?, ?)] *)
Definition insert_employee `{Builtins} (ps : list sqlval) (d : database)
    : (sqlite_exn + run_result) * database :=
  match null_violation inserted_columns ps with
  | Some c => (inl (ConstraintNotNull c), d)
  | None =>
      let rowid := next_rowid d in
      if 2 ^ 63 <=? rowid then (inl Full, d)
      else
        let e := {| emp_id := rowid;
                    emp_name := stored Name (nth_param 0 ps);
                    emp_department := stored Department (nth_param 1 ps);
                    emp_level := stored Level (nth_param 2 ps);
                    emp_performance_score := stored Performance_score (nth_param 3 ps);
                    emp_quarterly_rating := stored Quarterly_rating (nth_param 4 ps);
                    emp_bonus := stored Bonus (nth_param 5 ps);
                    emp_hire_date := stored Hire_date (nth_param 6 ps);
                    emp_manager_id := stored Manager_id (nth_param 7 ps) |} in
        (inr {| changes := 1; lastInsertRowid := rowid |},
         {| employees := (employees d ++ [e])%list; sqlite_sequence := rowid |})
  end.

(** [WHERE id = ?] *)
Definition id_is `{Builtins} (p : sqlval) (e : employee) : bool :=
  where_holds [CParam Id OpEq] [p] e.

Fixpoint assign `{Builtins} (sets : list column) (ps : list sqlval) (e : employee) : employee :=
  match sets with
  | [] => e
  | c :: sets' => assign sets' (tl ps) (set_field c (stored c (hd SNull ps)) e)
  end.

(** [UPDATE employees SET c1 = ?, ..., cn = ? WHERE id = ?].  A NOT NULL
    violation on a row that matches aborts the statement and leaves the
    table as it was. *)
Definition update_employees `{Builtins} (sets : list column) (ps : list sqlval) (d : database)
    : (sqlite_exn + run_result) * database :=
  let p := nth_param (length sets) ps in
  let hit := filter (fun e => id_is p e = true) (employees d) in
  match hit, null_violation sets (take (length sets) ps) with
  | _ :: _, Some c => (inl (ConstraintNotNull c), d)
  | _, _ =>
      (inr {| changes := Z.of_nat (length hit); lastInsertRowid := sqlite_sequence d |},
       {| employees := (fun e => if id_is p e then assign sets ps e else e) <$> employees d;
          sqlite_sequence := sqlite_sequence d |})
  end.

(** ** Statements, the session and the handler monad *)

(** The statements the handlers prepare. *)
Inductive statement :=
| SelectEmployees (where_ : list cond) (order_by : list (column * bool))
| SelectStats (where_department : bool)
| SelectById (columns : list column)
| InsertEmployee
| UpdateEmployees (sets : list column).

(** The database, and the statements executed on it so far with their bound
    parameters. *)
Record session := {
  db : database;
  executed : list (statement * list sqlval);
}.

Inductive exn :=
| Error (message : string)          (* [throw new Error(message)] *)
| TypeError                         (* a property of [undefined] is read *)
| McpError (message : string)       (* raised by the McpServer before a handler runs *)
| SQLiteError (e : sqlite_exn).

Definition M (A : Type) : Type := session -> (exn + A) * session.

#[export] Instance M_ret : MRet M := fun A a s => (inr a, s).

#[export] Instance M_bind : MBind M := fun A B f m s =>
  match m s with
  | (inl e, s') => (inl e, s')
  | (inr a, s') => f a s'
  end.

Definition throw {A} (e : exn) : M A := fun s => (inl e, s).

(** Executing a prepared statement: the parameters are bound, the statement
    runs on the database and is recorded. *)
Definition execute {A} (st : statement) (params : list jsval)
    (run : list sqlval -> database -> (sqlite_exn + A) * database) : M A :=
  fun s =>
    let ps := bind <$> params in
    let '(r, d) := run ps (db s) in
    (match r with inl e => inl (SQLiteError e) | inr a => inr a end,
     {| db := d; executed := (executed s ++ [(st, ps)])%list |}).

Definition reading {A} (f : list sqlval -> database -> A)
    : list sqlval -> database -> (sqlite_exn + A) * database :=
  fun ps d => (inr (f ps d), d).

(** [db.prepare(SELECT * FROM employees ...).all(...params)] *)
Definition all_employees `{Builtins} (cs : list cond) (keys : list (column * bool))
    (params : list jsval) : M (list employee) :=
  execute (SelectEmployees cs keys) params (reading (select_employees cs keys)).

(** [db.prepare(SELECT ... FROM employees WHERE id = ?).get(id)]: the first
    row, or [undefined]. *)
Definition get_by_id `{Builtins} (columns : list column) (params : list jsval)
    : M (option employee) :=
  execute (SelectById columns) params
    (reading (fun ps d => head (select_employees [CParam Id OpEq] [] ps d))).

Definition get_department_stats `{Builtins} (params : list jsval) : M (option stats) :=
  execute (SelectStats true) params (reading (fun ps d => head (select_department_stats ps d))).

Definition all_stats `{Builtins} : M (list stats) :=
  execute (SelectStats false) [] (reading (fun _ d => select_all_stats d)).

Definition run_insert `{Builtins} (params : list jsval) : M run_result :=
  execute InsertEmployee params insert_employee.

Definition run_update `{Builtins} (sets : list column) (params : list jsval) : M run_result :=
  execute (UpdateEmployees sets) params (update_employees sets).

(** [xs.map(f)] where [f] runs statements. *)
Fixpoint map_m {A B} (f : A -> M B) (xs : list A) : M (list B) :=
  match xs with
  | [] => mret []
  | x :: xs' => y ← f x; ys ← map_m f xs'; mret (y :: ys)
  end.

(** ** Tool results *)

(** A content item is the object literal the handler returns. *)
Definition payload : Type := list (string * jsval).

Record call_tool_result := {
  content : list payload;
}.

Definition get (o : payload) (k : string) : jsval :=
  default JUndefined (snd <$> find (fun kv => String.eqb (fst kv) k) o).

(** [{ content: [{ type: "text", text }] }] *)
Definition text_result (text : string) : call_tool_result :=
  {| content := [[("type", JStr "text"); ("text", JStr text)]] |}.

Definition nl : string := String (ascii_of_nat 10) EmptyString.

(** [xs.join(sep)] *)
Definition join (sep : string) (xs : list string) : string := String.concat sep xs.

(** [`${emp.c}`] *)
Definition show `{Builtins} (c : column) (e : employee) : string :=
  to_string (js_of_sql (field c e)).

Definition show_Z `{Builtins} (z : Z) : string := number_to_string (Z_to_float z).

(** The lines both employee servers print for one employee. *)

(** [ID: ${emp.id}\n氏名: ${emp.name}\n ... 入社日: ${emp.hire_date}\n] *)
Definition employee_card `{Builtins} (emp : employee) : string :=
  "ID: " ++ show Id emp ++ nl ++
  "氏名: " ++ show Name emp ++ nl ++
  "部署: " ++ show Department emp ++ nl ++
  "等級: " ++ show Level emp ++ nl ++
  "パフォーマンス: " ++ show Performance_score emp ++ nl ++
  "評価: " ++ show Quarterly_rating emp ++ nl ++
  "ボーナス: ¥" ++ show Bonus emp ++ nl ++
  "入社日: " ++ show Hire_date emp ++ nl.

(** [  ├─ ${emp.name} | ${emp.level} | パフォーマンス: ${emp.performance_score}] *)
Definition team_line `{Builtins} (emp : employee) : string :=
  "  ├─ " ++ show Name emp ++ " | " ++ show Level emp ++
  " | パフォーマンス: " ++ show Performance_score emp.

Definition is_undefined (v : jsval) : bool :=
  match v with JUndefined => true | _ => false end.

(** ** The employee server on the low-level [Server] ([src/screenshoot.ts]) *)

Module Raw.
Section Handlers.
Context `{Builtins}.

Definition query_employees (args : gmap string jsval) : M call_tool_result :=
  let query := [CTrue] in
  let params := [] in
  let '(query, params) :=
    if truthy (prop args "department")
    then ((query ++ [CParam Department OpEq])%list, (params ++ [prop args "department"])%list)
    else (query, params) in
  let '(query, params) :=
    if truthy (prop args "level")
    then ((query ++ [CParam Level OpEq])%list, (params ++ [prop args "level"])%list)
    else (query, params) in
  let '(query, params) :=
    if truthy (prop args "min_performance")
    then ((query ++ [CParam Performance_score OpGe])%list, (params ++ [prop args "min_performance"])%list)
    else (query, params) in
  employees ← all_employees query [(Performance_score, true)] params;
  mret (text_result
          (length_to_string employees ++ "人の社員が検索されました:" ++ nl ++ nl ++
           join nl (employee_card <$> employees))).

Definition add_employee (args : gmap string jsval) : M call_tool_result :=
  result ← run_insert
    [prop args "name";
     prop args "department";
     prop args "level";
     prop args "performance_score";
     prop args "quarterly_rating";
     prop args "bonus";
     prop args "hire_date";
     js_or (prop args "manager_id") JNull];
  mret (text_result
          ("社員 " ++ to_string (prop args "name") ++ " を正常に追加しました。ID: " ++
           show_Z (lastInsertRowid result))).

Definition department_stats (args : gmap string jsval) : M call_tool_result :=
  if truthy (prop args "department") then
    stats ← get_department_stats [prop args "department"];
    match stats with
    | None =>
        mret (text_result ("部署が見つかりません: " ++ to_string (prop args "department")))
    | Some stats =>
        mret (text_result
                (to_string (js_of_sql (st_department stats)) ++ "部署統計:" ++ nl ++ nl ++
                 "社員数: " ++ show_Z (st_employee_count stats) ++ "人" ++ nl ++
                 "平均パフォーマンス: " ++ to_fixed_2 (st_avg_performance stats) ++ nl ++
                 "平均ボーナス: ¥" ++ number_to_string (math_round (st_avg_bonus stats)) ++ nl ++
                 "パフォーマンス範囲: " ++ to_string (js_of_sql (st_min_performance stats)) ++
                 " - " ++ to_string (js_of_sql (st_max_performance stats))))
    end
  else
    allStats ← all_stats;
    mret (text_result
            ("各部署統計:" ++ nl ++ nl ++
             join (nl ++ nl)
               ((fun stats =>
                   "【" ++ to_string (js_of_sql (st_department stats)) ++ "】" ++ nl ++
                   "人数: " ++ show_Z (st_employee_count stats) ++
                   "人 | 平均パフォーマンス: " ++ to_fixed_2 (st_avg_performance stats) ++
                   " | 平均ボーナス: ¥" ++ number_to_string (math_round (st_avg_bonus stats)))
                <$> allStats))).

Definition promotion_candidates (args : gmap string jsval) : M call_tool_result :=
  let query := [CLiteral Performance_score OpGe (SReal 4.0); CHiredBefore true] in
  if truthy (prop args "department") then
    candidates ← all_employees (query ++ [CParam Department OpEq])%list [] [prop args "department"];
    mret (text_result
            (to_string (prop args "department") ++ "部署の昇進候補者 (" ++
             length_to_string candidates ++ "人):" ++ nl ++ nl ++
             join nl
               ((fun emp =>
                   show Name emp ++ " | " ++ show Level emp ++ " | パフォーマンス: " ++
                   show Performance_score emp ++ " | 入社日: " ++ show Hire_date emp)
                <$> candidates)))
  else
    candidates ← all_employees query [(Performance_score, true)] [];
    mret (text_result
            ("全社昇進候補者 (" ++ length_to_string candidates ++ "人):" ++ nl ++ nl ++
             join nl
               ((fun emp =>
                   show Name emp ++ " | " ++ show Department emp ++ " | " ++ show Level emp ++
                   " | パフォーマンス: " ++ show Performance_score emp)
                <$> candidates))).

Definition update_performance (args : gmap string jsval) : M call_tool_result :=
  let updates := [] in
  let params := [] in
  let '(updates, params) :=
    if negb (is_undefined (prop args "performance_score"))
    then ((updates ++ [Performance_score])%list, (params ++ [prop args "performance_score"])%list)
    else (updates, params) in
  let '(updates, params) :=
    if truthy (prop args "quarterly_rating")
    then ((updates ++ [Quarterly_rating])%list, (params ++ [prop args "quarterly_rating"])%list)
    else (updates, params) in
  let '(updates, params) :=
    if negb (is_undefined (prop args "bonus"))
    then ((updates ++ [Bonus])%list, (params ++ [prop args "bonus"])%list)
    else (updates, params) in
  if (length updates =? 0)%nat then
    mret (text_result "更新するフィールドが指定されていません")
  else
    let params := (params ++ [prop args "employee_id"])%list in
    result ← run_update updates params;
    if changes result =? 0 then
      mret (text_result ("ID " ++ to_string (prop args "employee_id") ++ " の社員が見つかりません"))
    else
      employee ← get_by_id [Name] [prop args "employee_id"];
      match employee with
      | None => throw TypeError
      | Some employee =>
          mret (text_result
                  ("社員 " ++ show Name employee ++ " のパフォーマンス情報を正常に更新しました"))
      end.

Definition get_team_hierarchy (args : gmap string jsval) : M call_tool_result :=
  if truthy (prop args "manager_id") then
    team ← all_employees [CParam Manager_id OpEq] [(Level, true); (Performance_score, true)]
             [prop args "manager_id"];
    manager ← get_by_id [Name; Level] [prop args "manager_id"];
    match manager with
    | None =>
        mret (text_result
                ("ID " ++ to_string (prop args "manager_id") ++ " のマネージャーが見つかりません"))
    | Some manager =>
        mret (text_result
                (show Name manager ++ " (" ++ show Level manager ++ ") のチーム (" ++
                 length_to_string team ++ "人):" ++ nl ++ nl ++
                 join nl (team_line <$> team)))
    end
  else
    topManagers ← all_employees [CIsNull Manager_id] [(Level, true)] [];
    hierarchy ← map_m
      (fun manager =>
         team ← all_employees [CParam Manager_id OpEq]
                  [(Level, true); (Performance_score, true)]
                  [js_of_sql (field Id manager)];
         mret (show Name manager ++ " (" ++ show Level manager ++ ") - " ++
               show Department manager ++ nl ++ join nl (team_line <$> team)))
      topManagers;
    mret (text_result ("チーム階層構造:" ++ nl ++ nl ++ join (nl ++ nl) hierarchy)).

(** The JSON Schema types the tool list uses. *)
Inductive json_type := TString | TNumber.

(** [{ type: "object", properties: { k: { type, description }, ... }, required }] *)
Record input_schema := {
  properties : list (string * (json_type * string));
  required : list string;
}.

Record tool := {
  name : string;
  description : string;
  inputSchema : input_schema;
}.

(** The [ListToolsRequestSchema] handler. *)
Definition list_tools : list tool :=
  [{| name := "query_employees";
      description := "社員情報を検索、部署・等級・パフォーマンスでフィルタ可能";
      inputSchema :=
        {| properties :=
             [("department", (TString, "部署名"));
              ("level", (TString, "社員等級 (P4-P7, M1-M3)"));
              ("min_performance", (TNumber, "最低パフォーマンススコア"))];
           required := [] |} |};
   {| name := "add_employee";
      description := "新規社員追加";
      inputSchema :=
        {| properties :=
             [("name", (TString, "社員名"));
              ("department", (TString, "部署"));
              ("level", (TString, "等級"));
              ("performance_score", (TNumber, "パフォーマンススコア (1.0-5.0)"));
              ("quarterly_rating", (TString, "四半期評価 (A+, A, B+, B, C)"));
              ("bonus", (TNumber, "ボーナス"));
              ("hire_date", (TString, "入社日 (YYYY-MM-DD)"));
              ("manager_id", (TNumber, "上司ID (任意)"))];
           required :=
             ["name"; "department"; "level"; "performance_score"; "quarterly_rating";
              "bonus"; "hire_date"] |} |};
   {| name := "department_stats";
      description := "部署統計情報取得";
      inputSchema :=
        {| properties :=
             [("department", (TString, "部署名（任意、未指定の場合は全部署を統計）"))];
           required := [] |} |};
   {| name := "promotion_candidates";
      description := "昇進候補者取得（パフォーマンス4.0以上かつ現在の等級で1年以上勤務）";
      inputSchema :=
        {| properties := [("department", (TString, "部署名（任意）"))];
           required := [] |} |};
   {| name := "update_performance";
      description := "社員パフォーマンス更新";
      inputSchema :=
        {| properties :=
             [("employee_id", (TNumber, "社員ID"));
              ("performance_score", (TNumber, "新しいパフォーマンススコア"));
              ("quarterly_rating", (TString, "新しい四半期評価"));
              ("bonus", (TNumber, "新しいボーナス"))];
           required := ["employee_id"] |} |};
   {| name := "get_team_hierarchy";
      description := "チーム階層構造取得";
      inputSchema :=
        {| properties :=
             [("manager_id",
               (TNumber, "マネージャーID（任意、未指定の場合は全てのトップマネージャーを表示）"))];
           required := [] |} |}].

(** The [CallToolRequestSchema] handler; [args] is [None] when the request
    carries no [arguments]. *)
Definition call_tool (name : string) (args : option (gmap string jsval))
    : M call_tool_result :=
  match args with
  | None => throw (Error "Missing arguments")
  | Some args =>
      if String.eqb name "query_employees" then query_employees args
      else if String.eqb name "add_employee" then add_employee args
      else if String.eqb name "department_stats" then department_stats args
      else if String.eqb name "promotion_candidates" then promotion_candidates args
      else if String.eqb name "update_performance" then update_performance args
      else if String.eqb name "get_team_hierarchy" then get_team_hierarchy args
      else throw (Error ("不明なツール: " ++ name))
  end.

End Handlers.
End Raw.

(** ** zod schemas, as the [McpServer] checks them *)

Inductive ztype :=
| ZString                                   (* z.string() *)
| ZNumber (min max : option float)          (* z.number(), .min(a), .max(b) *)
| ZEnum (options : list string).            (* z.enum([...]) *)

Record zfield := {
  ztype_of : ztype;
  is_optional : bool;                       (* .optional() *)
}.

Definition required (t : ztype) : zfield := {| ztype_of := t; is_optional := false |}.
Definition optional (t : ztype) : zfield := {| ztype_of := t; is_optional := true |}.

Definition schema : Type := list (string * zfield).

(** Modelled from the spec: zod and the [McpServer] class of
    @modelcontextprotocol/sdk are dependencies, not under [src/]; the spec
    describes the dispatch as "translating a declarative schema into
    validated function calls", with "basic input shape checking", and
    [src/employee.ts] notes that McpServer validates against the zod shape.
    A value against a type: [z.number()] refuses NaN, [.min(a)] refuses
    what is below [a] and [.max(b)] what is above [b]. *)
Definition zcheck (t : ztype) (v : jsval) : bool :=
  match t, v with
  | ZString, JStr _ => true
  | ZNumber lo hi, JNum f =>
      negb (is_nan f) &&
      match lo with Some a => negb (PrimFloat.ltb f a) | None => true end &&
      match hi with Some b => negb (PrimFloat.ltb b f) | None => true end
  | ZEnum options, JStr s => existsb (String.eqb s) options
  | _, _ => false
  end.

(** Modelled from the spec: the shape check of the dispatcher.  A required
    key must be there, and a key that is there must have a value of its
    type. *)
Definition zvalid (sc : schema) (args : gmap string jsval) : bool :=
  forallb
    (fun '(k, fld) =>
       match prop args k with
       | JUndefined => is_optional fld
       | v => zcheck (ztype_of fld) v
       end)
    sc.

(** Modelled from the spec: the validated call of the dispatcher,
    [z.object(shape).safeParse(args ?? {})].  A request without an
    arguments object is parsed as the empty object; the result holds the
    declared keys of a valid object, and keys the shape does not declare
    are dropped. *)
Definition zparse (sc : schema) (args : option (gmap string jsval))
    : option (gmap string jsval) :=
  let args := default ∅ args in
  if zvalid sc args
  then Some (filter (fun kv => existsb (String.eqb (fst kv)) (fst <$> sc) = true) args)
  else None.

(** ** The employee server on [McpServer] ([src/employee.ts]) *)

Module Mcp.
Section Handlers.
Context `{Builtins}.

Definition query_employees_schema : schema :=
  [("department", optional ZString);
   ("level", optional ZString);
   ("min_performance", optional (ZNumber None None))].

Definition query_employees (args : gmap string jsval) : M call_tool_result :=
  let department := prop args "department" in
  let level := prop args "level" in
  let min_performance := prop args "min_performance" in
  let query := [CTrue] in
  let params := [] in
  let '(query, params) :=
    if truthy department
    then ((query ++ [CParam Department OpEq])%list, (params ++ [department])%list)
    else (query, params) in
  let '(query, params) :=
    if truthy level
    then ((query ++ [CParam Level OpEq])%list, (params ++ [level])%list)
    else (query, params) in
  let '(query, params) :=
    if truthy min_performance
    then ((query ++ [CParam Performance_score OpGe])%list, (params ++ [min_performance])%list)
    else (query, params) in
  employees ← all_employees query [(Performance_score, true)] params;
  mret (text_result
          (length_to_string employees ++ "人の社員が検索されました:" ++ nl ++ nl ++
           join nl (employee_card <$> employees))).

Definition add_employee_schema : schema :=
  [("name", required ZString);
   ("department", required ZString);
   ("level", required ZString);
   ("performance_score", required (ZNumber (Some 1.0%float) (Some 5.0%float)));
   ("quarterly_rating", required (ZEnum ["A+"; "A"; "B+"; "B"; "C"]));
   ("bonus", required (ZNumber None None));
   ("hire_date", required ZString);
   ("manager_id", optional (ZNumber None None))].

Definition add_employee (args : gmap string jsval) : M call_tool_result :=
  let name := prop args "name" in
  let department := prop args "department" in
  let level := prop args "level" in
  let performance_score := prop args "performance_score" in
  let quarterly_rating := prop args "quarterly_rating" in
  let bonus := prop args "bonus" in
  let hire_date := prop args "hire_date" in
  let manager_id := prop args "manager_id" in
  result ← run_insert
    [name; department; level; performance_score; quarterly_rating; bonus; hire_date;
     js_or manager_id JNull];
  mret (text_result
          ("社員 " ++ to_string name ++ " を正常に追加しました。ID: " ++
           show_Z (lastInsertRowid result))).

Definition department_stats_schema : schema :=
  [("department", optional ZString)].

Definition department_stats (args : gmap string jsval) : M call_tool_result :=
  let department := prop args "department" in
  if truthy department then
    stats ← get_department_stats [department];
    match stats with
    | None => mret (text_result ("部署が見つかりません: " ++ to_string department))
    | Some stats =>
        mret (text_result
                (to_string (js_of_sql (st_department stats)) ++ "部署統計:" ++ nl ++ nl ++
                 "社員数: " ++ show_Z (st_employee_count stats) ++ "人" ++ nl ++
                 "平均パフォーマンス: " ++ to_fixed_2 (st_avg_performance stats) ++ nl ++
                 "平均ボーナス: ¥" ++ number_to_string (math_round (st_avg_bonus stats)) ++ nl ++
                 "パフォーマンス範囲: " ++ to_string (js_of_sql (st_min_performance stats)) ++
                 " - " ++ to_string (js_of_sql (st_max_performance stats))))
    end
  else
    allStats ← all_stats;
    mret (text_result
            ("各部署統計:" ++ nl ++ nl ++
             join (nl ++ nl)
               ((fun stats =>
                   "【" ++ to_string (js_of_sql (st_department stats)) ++ "】" ++ nl ++
                   "人数: " ++ show_Z (st_employee_count stats) ++
                   "人 | 平均パフォーマンス: " ++ to_fixed_2 (st_avg_performance stats) ++
                   " | 平均ボーナス: ¥" ++ number_to_string (math_round (st_avg_bonus stats)))
                <$> allStats))).

Definition promotion_candidates_schema : schema :=
  [("department", optional ZString)].

Definition promotion_candidates (args : gmap string jsval) : M call_tool_result :=
  let department := prop args "department" in
  let query := [CLiteral Performance_score OpGe (SReal 4.0); CHiredBefore false] in
  if truthy department then
    candidates ← all_employees (query ++ [CParam Department OpEq])%list [] [department];
    mret (text_result
            (to_string department ++ "部署の昇進候補者 (" ++
             length_to_string candidates ++ "人):" ++ nl ++ nl ++
             join nl
               ((fun emp =>
                   show Name emp ++ " | " ++ show Level emp ++ " | パフォーマンス: " ++
                   show Performance_score emp ++ " | 入社日: " ++ show Hire_date emp)
                <$> candidates)))
  else
    candidates ← all_employees query [(Performance_score, true)] [];
    mret (text_result
            ("全社昇進候補者 (" ++ length_to_string candidates ++ "人):" ++ nl ++ nl ++
             join nl
               ((fun emp =>
                   show Name emp ++ " | " ++ show Department emp ++ " | " ++ show Level emp ++
                   " | パフォーマンス: " ++ show Performance_score emp)
                <$> candidates))).

Definition update_performance_schema : schema :=
  [("employee_id", required (ZNumber None None));
   ("performance_score", optional (ZNumber (Some 1.0%float) (Some 5.0%float)));
   ("quarterly_rating", optional (ZEnum ["A+"; "A"; "B+"; "B"; "C"]));
   ("bonus", optional (ZNumber None None))].

Definition update_performance (args : gmap string jsval) : M call_tool_result :=
  let employee_id := prop args "employee_id" in
  let performance_score := prop args "performance_score" in
  let quarterly_rating := prop args "quarterly_rating" in
  let bonus := prop args "bonus" in
  let updates := [] in
  let params := [] in
  let '(updates, params) :=
    if negb (is_undefined performance_score)
    then ((updates ++ [Performance_score])%list, (params ++ [performance_score])%list)
    else (updates, params) in
  let '(updates, params) :=
    if truthy quarterly_rating
    then ((updates ++ [Quarterly_rating])%list, (params ++ [quarterly_rating])%list)
    else (updates, params) in
  let '(updates, params) :=
    if negb (is_undefined bonus)
    then ((updates ++ [Bonus])%list, (params ++ [bonus])%list)
    else (updates, params) in
  if (length updates =? 0)%nat then
    mret (text_result "更新するフィールドが指定されていません")
  else
    let params := (params ++ [employee_id])%list in
    result ← run_update updates params;
    if changes result =? 0 then
      mret (text_result ("ID " ++ to_string employee_id ++ " の社員が見つかりません"))
    else
      employee ← get_by_id [Name] [employee_id];
      match employee with
      | None => throw TypeError
      | Some employee =>
          mret (text_result
                  ("社員 " ++ show Name employee ++ " のパフォーマンス情報を正常に更新しました"))
      end.

Definition get_team_hierarchy_schema : schema :=
  [("manager_id", optional (ZNumber None None))].

Definition get_team_hierarchy (args : gmap string jsval) : M call_tool_result :=
  let manager_id := prop args "manager_id" in
  if truthy manager_id then
    team ← all_employees [CParam Manager_id OpEq] [(Level, true); (Performance_score, true)]
             [manager_id];
    manager ← get_by_id [Name; Level] [manager_id];
    match manager with
    | None =>
        mret (text_result ("ID " ++ to_string manager_id ++ " のマネージャーが見つかりません"))
    | Some manager =>
        mret (text_result
                (show Name manager ++ " (" ++ show Level manager ++ ") のチーム (" ++
                 length_to_string team ++ "人):" ++ nl ++ nl ++
                 join nl (team_line <$> team)))
    end
  else
    topManagers ← all_employees [CIsNull Manager_id] [(Level, true)] [];
    hierarchy ← map_m
      (fun manager =>
         team ← all_employees [CParam Manager_id OpEq]
                  [(Level, true); (Performance_score, true)]
                  [js_of_sql (field Id manager)];
         mret (show Name manager ++ " (" ++ show Level manager ++ ") - " ++
               show Department manager ++ nl ++ join nl (team_line <$> team)))
      topManagers;
    mret (text_result ("チーム階層構造:" ++ nl ++ nl ++ join (nl ++ nl) hierarchy)).

(** The tools registered with [server.tool(name, description, shape, handler)]. *)
Definition tools : list (string * (schema * (gmap string jsval -> M call_tool_result))) :=
  [("query_employees", (query_employees_schema, query_employees));
   ("add_employee", (add_employee_schema, add_employee));
   ("department_stats", (department_stats_schema, department_stats));
   ("promotion_candidates", (promotion_candidates_schema, promotion_candidates));
   ("update_performance", (update_performance_schema, update_performance));
   ("get_team_hierarchy", (get_team_hierarchy_schema, get_team_hierarchy))].

(** Modelled from the spec: the tools/call dispatch of [McpServer], which
    is not under [src/].  It looks the tool up, parses the arguments against
    the tool's shape, and only then calls the handler with the parsed
    object.  An unknown tool and arguments that do not parse end the call
    with an error before any handler runs; how the SDK reports that error to
    the client is not modelled. *)
Definition call_tool (name : string) (args : option (gmap string jsval))
    : M call_tool_result :=
  match snd <$> find (fun t => String.eqb (fst t) name) tools with
  | None => throw (McpError ("Tool " ++ name ++ " not found"))
  | Some (shape, handler) =>
      match zparse shape args with
      | None => throw (McpError "Invalid arguments")
      | Some parsed => handler parsed
      end
  end.

End Handlers.
End Mcp.

(** ** The screenshot server (first part of [src/screenshoot.ts]) *)

Module Screenshot.

(** The calls the handler makes into puppeteer. *)
Inductive step :=
| Launch                       (* puppeteer.launch() *)
| NewPage                      (* browser.newPage() *)
| Goto (url : jsval)           (* page.goto(url) *)
| TakeScreenshot.              (* page.screenshot() *)

(** The browser and the network behind it: the calls that reject, each with
    the message of its error, and the PNG bytes a capture of the page at a
    URL gives. *)
Record web := {
  rejects : step -> option string;
  png_of : jsval -> list Byte.byte;
}.

(** A handler step: the calls made so far are threaded through. *)
Definition B (A : Type) : Type := list step -> (exn + A) * list step.

#[export] Instance B_ret : MRet B := fun A a tr => (inr a, tr).

#[export] Instance B_bind : MBind B := fun A B f m tr =>
  match m tr with
  | (inl e, tr') => (inl e, tr')
  | (inr a, tr') => f a tr'
  end.

(** [await call]: the call is made; a rejected promise throws. *)
Definition await {A} (w : web) (st : step) (a : A) : B A :=
  fun tr =>
    (match rejects w st with Some message => inl (Error message) | None => inr a end,
     (tr ++ [st])%list).

Definition alphabet : string :=
  "ABCDEFGHIJKLMNOPQRSTUVWXYZabcdefghijklmnopqrstuvwxyz0123456789+/".

Definition sextet (n : N) : string :=
  match String.get (N.to_nat n) alphabet with
  | Some c => String c EmptyString
  | None => EmptyString
  end.

(** [bytes.toBase64()]: the standard alphabet, padded with [=]. *)
Fixpoint toBase64 (bytes : list Byte.byte) : string :=
  match bytes with
  | [] => ""
  | [a] =>
      let a := Byte.to_N a in
      sextet (a / 4) ++ sextet (a mod 4 * 16) ++ "=="
  | [a; b] =>
      let a := Byte.to_N a in
      let b := Byte.to_N b in
      sextet (a / 4) ++ sextet (a mod 4 * 16 + b / 16) ++ sextet (b mod 16 * 4) ++ "="
  | a :: b :: c :: rest =>
      let a := Byte.to_N a in
      let b := Byte.to_N b in
      let c := Byte.to_N c in
      sextet (a / 4) ++ sextet (a mod 4 * 16 + b / 16) ++
      sextet (b mod 16 * 4 + c / 64) ++ sextet (c mod 64) ++ toBase64 rest
  end%N.

Definition get_screenshot_schema : schema := [("url", required ZString)].

Definition get_screenshot (w : web) (args : gmap string jsval) : B call_tool_result :=
  let url := prop args "url" in
  browser ← await w Launch tt;
  page ← await w NewPage tt;
  _ ← await w (Goto url) tt;
  screenshot ← await w TakeScreenshot (png_of w url);
  mret {| content :=
            [[("type", JStr "image");
              ("data", JStr (toBase64 screenshot));
              ("mimeType", JStr "image/png")]] |}.

(** Modelled from the spec: the tools/call dispatch of [McpServer] (not
    under [src/]) in front of the one tool, as for the employee server:
    the arguments are parsed against the shape before the handler is
    called. *)
Definition call_tool (w : web) (name : string) (args : option (gmap string jsval))
    : B call_tool_result :=
  if String.eqb name "get_screenshot" then
    match zparse get_screenshot_schema args with
    | None => fun tr => (inl (McpError "Invalid arguments"), tr)
    | Some parsed => get_screenshot w parsed
    end
  else fun tr => (inl (McpError ("Tool " ++ name ++ " not found")), tr).

End Screenshot.

(** ** The rows the servers start with *)

Definition sample_row (rowid : Z) (name department level : string) (performance_score : float)
    (quarterly_rating : string) (bonus : float) (hire_date : string) (manager_id : sqlval)
    : employee :=
  {| emp_id := rowid;
     emp_name := SText name;
     emp_department := SText department;
     emp_level := SText level;
     emp_performance_score := SReal performance_score;
     emp_quarterly_rating := SText quarterly_rating;
     emp_bonus := SReal bonus;
     emp_hire_date := SText hire_date;
     emp_manager_id := manager_id |}.

(** The table after the [sampleData] loop. *)
Definition sample_database : database :=
  {| employees :=
       [sample_row 1 "田中マネージャー" "技術部" "M2" 4.8 "A+" 50000 "2020-01-15" SNull;
        sample_row 2 "山田部長" "プロダクト部" "M3" 4.6 "A" 80000 "2019-03-20" SNull;
        sample_row 3 "佐藤主任" "技術部" "M1" 4.4 "A" 35000 "2021-06-10" (SInt 1);
        sample_row 4 "鈴木エンジニア" "技術部" "P7" 4.2 "A" 30000 "2021-08-15" (SInt 3);
        sample_row 5 "高橋エンジニア" "技術部" "P6" 3.8 "B+" 25000 "2022-01-20" (SInt 3);
        sample_row 6 "渡辺エンジニア" "技術部" "P6" 4.0 "A" 28000 "2022-03-10" (SInt 3);
        sample_row 7 "伊藤エンジニア" "技術部" "P5" 3.6 "B+" 18000 "2022-09-01" (SInt 4);
        sample_row 8 "松本エンジニア" "技術部" "P5" 3.4 "B" 15000 "2023-02-15" (SInt 4);
        sample_row 9 "中村エンジニア" "技術部" "P4" 3.2 "B" 12000 "2023-05-20" (SInt 5);
        sample_row 10 "小林プロダクト" "プロダクト部" "P6" 4.1 "A" 26000 "2021-11-10" (SInt 2);
        sample_row 11 "加藤プロダクト" "プロダクト部" "P5" 3.7 "B+" 20000 "2022-07-15" (SInt 10);
        sample_row 12 "吉田プロダクト" "プロダクト部" "P4" 3.3 "B" 14000 "2023-01-08" (SInt 10)];
     sqlite_sequence := 12 |}.

Definition fresh (d : database) : session := {| db := d; executed := [] |}.

(** ** A reference instance of the builtins

    Used to run the servers on concrete requests.  No theorem about the
    servers depends on it: they are proved for every instance. *)

Module Reference.

(** The least [n], searching upward from the given one, with
    [p / q < 10 ^ n]. *)
Fixpoint exponent_from (fuel : nat) (n p q : Z) : Z :=
  match fuel with
  | O => n
  | S fuel' =>
      if (if 0 <=? n then p <? 10 ^ n * q else p * 10 ^ (- n) <? q) then n
      else exponent_from fuel' (n + 1) p q
  end.

(** [a / b <= c / d] and [a / b < c / d] for positive denominators. *)
Definition q_le (a b c d : Z) : bool := a * d <=? c * b.
Definition q_lt (a b c d : Z) : bool := a * d <? c * b.

(** The shortest digits [s] (with [k] of them) and exponent [n] such that
    [s * 10 ^ (n - k)] reads back as the double with magnitude
    [m * 2 ^ e]: the search Number::toString prescribes. *)
Fixpoint shortest (fuel : nat) (k n : Z) (m : positive) (e : Z) : Z * Z * Z :=
  let '(p, q) := magnitude m e in
  (* the reals that round to the double lie between lo/den and hi/den *)
  let narrow := (Z.pos m =? 2 ^ 52) && (-1074 <? e) in
  let ulp := if 0 <=? e then 2 ^ e else 1 in
  let den := 4 * q in
  let lo := if narrow then 4 * p - ulp else 4 * p - 2 * ulp in
  let hi := 4 * p + 2 * ulp in
  let even := Z.even (Z.pos m) in
  let inside (a b : Z) :=
    if even then q_le lo den a b && q_le a b hi den
    else q_lt lo den a b && q_lt a b hi den in
  (* candidates s / scale with scale = 10 ^ (k - n) *)
  let '(sn, sd) := if 0 <=? k - n then (10 ^ (k - n), 1) else (1, 10 ^ (n - k)) in
  let s0 := p * sn / (q * sd) in
  let s1 := s0 + 1 in
  let in0 := inside (s0 * sd) sn && (0 <? s0) in
  let in1 := inside (s1 * sd) sn in
  (* s0 is nearer when 2 v <= s0 + s1 *)
  let nearer0 := 2 * p * sn <=? (s0 + s1) * (q * sd) in
  let pick (s : Z) := if s =? 10 ^ k then (10 ^ (k - 1), k, n + 1) else (s, k, n) in
  match fuel with
  | O => (s0, k, n)
  | S fuel' =>
      if in0 && in1 then pick (if nearer0 then s0 else s1)
      else if in0 then pick s0
      else if in1 then pick s1
      else shortest fuel' (k + 1) n m e
  end.

Definition zeros (n : Z) : string := String.concat "" (replicate (Z.to_nat n) "0").

Definition number_repr (f : float) : string :=
  match Prim2SF f with
  | S754_finite sign m e =>
      let '(p, q) := magnitude m e in
      let n0 := exponent_from 700 (-330) p q in
      let '(s, k, n) := shortest 17 1 n0 m e in
      let ds := pretty s in
      let body :=
        if (k <=? n) && (n <=? 21) then ds ++ zeros (n - k)
        else if (0 <? n) && (n <=? 21) then
          substring 0 (Z.to_nat n) ds ++ "." ++ substring (Z.to_nat n) (Z.to_nat (k - n)) ds
        else if (-6 <? n) && (n <=? 0) then "0." ++ zeros (- n) ++ ds
        else
          (if k =? 1 then ds
           else substring 0 1 ds ++ "." ++ substring 1 (Z.to_nat (k - 1)) ds) ++
          "e" ++ (if 0 <=? n - 1 then "+" else "-") ++ pretty (Z.abs (n - 1)) in
      (if sign then "-" else "") ++ body
  | S754_zero _ => "0"
  | S754_infinity sign => if sign then "-Infinity" else "Infinity"
  | S754_nan => "NaN"
  end.

(** The double nearest to [a / b] for positive [a] and [b], ties to even:
    a quotient of more than 64 bits with a sticky bit, then rounded. *)
Definition nearest_double (a b : Z) : float :=
  let shift := Z.max 0 (70 + Z.log2 b - Z.log2 a) in
  let quot := a * 2 ^ shift / b in
  let sticky := if a * 2 ^ shift mod b =? 0 then 0 else 1 in
  SF2Prim (binary_normalize prec emax (2 * quot + sticky) (- shift - 1) false).

(** The digits at the head of a text: their value, how many, and the rest. *)
Fixpoint leading_digits (s : string) (acc : Z) (count : Z) : Z * Z * string :=
  match s with
  | String c s' =>
      match digit_of c with
      | Some d => leading_digits s' (10 * acc + d) (count + 1)
      | None => (acc, count, s)
      end
  | EmptyString => (acc, count, s)
  end.

Definition leading_sign (s : string) : bool * string :=
  match s with
  | String "-" s' => (true, s')
  | String "+" s' => (false, s')
  | _ => (false, s)
  end.

(** A real literal: spaces, sign, digits with an optional point, an optional
    exponent, spaces; at least one digit before the exponent. *)
Definition real_literal (s : string) : option float :=
  let '(negative, s) := leading_sign (skip_spaces s) in
  let '(whole, wn, s) := leading_digits s 0 0 in
  let '(mantissa, fn, s) :=
    match s with
    | String "." s' => leading_digits s' whole 0
    | _ => (whole, 0, s)
    end in
  let '(exponent, ok, s) :=
    match s with
    | String c s' =>
        if (c =? "e")%char || (c =? "E")%char then
          let '(eneg, s'') := leading_sign s' in
          let '(ev, en, rest) := leading_digits s'' 0 0 in
          (if eneg then - ev else ev, 0 <? en, rest)
        else (0, true, s)
    | EmptyString => (0, true, s)
    end in
  if ok && (0 <? wn + fn) && (match skip_spaces s with EmptyString => true | _ => false end)
  then
    let scale := exponent - fn in
    let f := if mantissa =? 0 then 0%float
             else if 0 <=? scale then nearest_double (mantissa * 10 ^ scale) 1
             else nearest_double mantissa (10 ^ (- scale)) in
    Some (if negative then (- f)%float else f)
  else None.

(** Fifteen significant digits of [p / q] and the decimal exponent. *)
Definition digits15 (p q : Z) : Z * Z :=
  let n := exponent_from 700 (-330) p q in
  let '(sn, sd) := if 0 <=? 15 - n then (10 ^ (15 - n), 1) else (1, 10 ^ (n - 15)) in
  let s := (2 * p * sn + q * sd) / (2 * q * sd) in
  if s =? 10 ^ 15 then (10 ^ 14, n + 1) else (s, n).

Fixpoint strip_zeros (fuel : nat) (s : Z) : Z :=
  match fuel with
  | O => s
  | S fuel' => if (s mod 10 =? 0) && negb (s =? 0) then strip_zeros fuel' (s / 10) else s
  end.

(** A REAL as TEXT with fifteen significant digits, in the manner of
    [%!.15g], as SQLite 3.40 writes it.  An engine that keeps more digits
    where fifteen do not read back writes more; the servers are proved for
    every [sqlite_real_text]. *)
Definition real_text (f : float) : string :=
  match Prim2SF f with
  | S754_finite sign m e =>
      let '(p, q) := magnitude m e in
      let '(s, n) := digits15 p q in
      let ds := pretty s in
      let int_part := if 0 <? n then substring 0 (Z.to_nat n) ds else "0" in
      let frac_digits :=
        if 0 <? n then substring (Z.to_nat n) (15 - Z.to_nat n) ds else zeros (- n) ++ ds in
      let frac_value := fst (fst (leading_digits frac_digits 0 0)) in
      let frac :=
        if frac_value =? 0 then "0"
        else substring 0 (String.length frac_digits -
                          (String.length (pretty frac_value) -
                           String.length (pretty (strip_zeros 400 frac_value)))) frac_digits in
      let body :=
        if (n - 1 <? -4) || (15 <=? n - 1) then
          let mant := strip_zeros 15 s in
          let md := pretty mant in
          substring 0 1 md ++ "." ++
          (if (String.length md =? 1)%nat then "0" else substring 1 (String.length md - 1) md) ++
          "e" ++ (if 0 <=? n - 1 then "+" else "-") ++
          (if Z.abs (n - 1) <? 10 then "0" else "") ++ pretty (Z.abs (n - 1))
        else int_part ++ "." ++ frac in
      (if sign then "-" else "") ++ body
  | S754_zero sign => if sign then "-0.0" else "0.0"
  | S754_infinity sign => if sign then "-Inf" else "Inf"
  | S754_nan => "NaN"
  end.

(** Days since 1970-01-01 of a date of the proleptic Gregorian calendar;
    a day past the end of the month runs into the next one. *)
Definition days_from_civil (y m d : Z) : Z :=
  let y := if m <=? 2 then y - 1 else y in
  let era := y / 400 in
  let yoe := y - era * 400 in
  let doy := (153 * (if 2 <? m then m - 3 else m + 9) + 2) / 5 + d - 1 in
  era * 146097 + (yoe * 365 + yoe / 4 - yoe / 100 + doy) - 719468.

Definition civil_from_days (z : Z) : Z * Z * Z :=
  let z := z + 719468 in
  let era := z / 146097 in
  let doe := z - era * 146097 in
  let yoe := (doe - doe / 1460 + doe / 36524 - doe / 146096) / 365 in
  let doy := doe - (365 * yoe + yoe / 4 - yoe / 100) in
  let mp := (5 * doy + 2) / 153 in
  let d := doy - (153 * mp + 2) / 5 + 1 in
  let m := if mp <? 10 then mp + 3 else mp - 9 in
  (yoe + era * 400 + (if m <=? 2 then 1 else 0), m, d).

Definition pad (width : nat) (z : Z) : string :=
  let ds := pretty z in
  zeros (Z.of_nat (width - String.length ds)) ++ ds.

(** YYYY-MM-DD *)
Definition date_text (ymd : Z * Z * Z) : sqlval :=
  let '(y, m, d) := ymd in
  SText ((if y <? 0 then "-" else "") ++ pad 4 (Z.abs y) ++ "-" ++ pad 2 m ++ "-" ++ pad 2 d).

(** Exactly [n] digits with a value between [lo] and [hi]. *)
Definition field_of (n : nat) (lo hi : Z) (s : string) : option (Z * string) :=
  let '(v, count, _) := leading_digits (substring 0 n s) 0 0 in
  if (count =? Z.of_nat n) && (lo <=? v) && (v <=? hi)
  then Some (v, substring n (String.length s - n) s) else None.

Definition expect (c : ascii) (s : string) : option string :=
  match s with
  | String c' s' => if (c =? c')%char then Some s' else None
  | EmptyString => None
  end.

Definition at_end (s : string) : bool :=
  match skip_spaces s with EmptyString => true | _ => false end.

(** [+HH:MM], [-HH:MM] or [Z] after a time, in minutes east of UTC. *)
Definition time_zone (s : string) : option Z :=
  match skip_spaces s with
  | EmptyString => Some 0
  | String c s0 =>
      if (c =? "Z")%char || (c =? "z")%char then (if at_end s0 then Some 0 else None)
      else if (c =? "+")%char || (c =? "-")%char then
        '(h, s1) ← field_of 2 0 14 s0;
        s2 ← expect ":" s1;
        '(m, s3) ← field_of 2 0 59 s2;
        if at_end s3 then Some ((if (c =? "-")%char then -1 else 1) * (60 * h + m)) else None
      else None
  end.

(** The seconds [:SS] or [:SS.SSS] after HH:MM, when they are there. *)
Definition seconds (s : string) : option string :=
  match expect ":" s with
  | Some s1 =>
      '(_, s2) ← field_of 2 0 59 s1;
      match expect "." s2 with
      | Some s3 =>
          let '(_, count, rest) := leading_digits s3 0 0 in
          Some (if 0 <? count then rest else s2)
      | None => Some s2
      end
  | None => Some s
  end.

(** HH:MM, HH:MM:SS or HH:MM:SS.SSS with an optional time zone: the minutes
    since midnight UTC, and whether a time zone moved them. *)
Definition time_of_day (s : string) : option (Z * bool) :=
  '(h, s1) ← field_of 2 0 24 s;
  s2 ← expect ":" s1;
  '(m, s3) ← field_of 2 0 59 s2;
  s4 ← seconds s3;
  tz ← time_zone s4;
  Some (60 * h + m - tz, negb (tz =? 0)).

Fixpoint skip_spaces_and_T (s : string) : string :=
  match s with
  | String c s' => if is_space c || (c =? "T")%char then skip_spaces_and_T s' else s
  | EmptyString => s
  end.

(** YYYY-MM-DD, alone or followed by a time. *)
Definition date_and_time (s : string) : option (Z * Z * Z) :=
  '(y, s1) ← field_of 4 0 9999 s;
  s2 ← expect "-" s1;
  '(m, s3) ← field_of 2 1 12 s2;
  s4 ← expect "-" s3;
  '(d, s5) ← field_of 2 1 31 s4;
  let rest := skip_spaces_and_T s5 in
  match time_of_day rest, rest with
  | Some (minutes, shifted), _ =>
      if negb shifted && (d <=? 28) then Some (y, m, d)
      else Some (civil_from_days (days_from_civil y m d + minutes / 1440))
  | None, EmptyString =>
      if d <=? 28 then Some (y, m, d)
      else Some (civil_from_days (days_from_civil y m d))
  | None, _ => None
  end.

(** A Julian day number [p / q] as a date, when it is in SQLite's range. *)
Definition julian (p q : Z) : sqlval :=
  if (0 <=? p) && (2 * p <? 10746969 * q) then
    let ms := (2 * p * 86400000 + q) / (2 * q) in
    date_text (civil_from_days ((ms + 43200000) / 86400000 - 2440588))
  else SNull.

Definition julian_of_float (f : float) : sqlval :=
  match Prim2SF f with
  | S754_zero _ => julian 0 1
  | S754_finite false m e => let '(p, q) := magnitude m e in julian p q
  | _ => SNull
  end.

Definition today : string := "2026-11-02".

(** [date(X)] for the time values SQLite reads: a date with an optional
    time, a time alone (on 2000-01-01), [now], and a Julian day number. *)
Definition date (v : sqlval) : sqlval :=
  match v with
  | SNull => SNull
  | SInt z => julian z 1
  | SReal f => julian_of_float f
  | SText s =>
      match date_and_time s with
      | Some ymd => date_text ymd
      | None =>
          match time_of_day s with
          | Some (minutes, _) => date_text (civil_from_days (10957 + minutes / 1440))
          | None =>
              if String.eqb s "now" then SText today
              else
                match integer_literal s, real_literal s with
                | Some z, _ => julian z 1
                | None, Some f => julian_of_float f
                | None, None => SNull
                end
          end
      end
  end.

Definition as_double (v : sqlval) : float :=
  match v with
  | SReal f => f
  | SInt z => Z_to_float z
  | SText s =>
      match integer_literal s, real_literal s with
      | Some z, _ => Z_to_float z
      | None, Some f => f
      | None, None => 0%float
      end
  | SNull => 0%float
  end.

(** One step of the compensated sum [avg()] keeps (Kahan, Babuska and
    Neumaier): the running sum and the error it has lost so far. *)
Definition sum_step (acc : float * float) (r : float) : float * float :=
  let '(s, err) := acc in
  let t := (s + r)%float in
  (t, if (abs r <? abs s)%float then (err + ((s - t) + r))%float
      else (err + ((r - t) + s))%float).

(** [avg()] over values none of which is an INTEGER: the compensated sum of
    the values as doubles, over their number. *)
Definition avg (vs : list sqlval) : float :=
  let '(s, err) := foldl (fun acc v => sum_step acc (as_double v)) (0%float, 0%float) vs in
  let lost := match Prim2SF err with S754_infinity _ | S754_nan => 0%float | _ => err end in
  ((s + lost) / Z_to_float (Z.of_nat (length vs)))%float.

(** An integral double of magnitude at most 2^53, negative zero apart, is
    bound as an INTEGER. *)
Definition as_integer (f : float) : option Z :=
  match float_to_Z f, Prim2SF f with
  | Some z, S754_finite _ _ _ => if Z.abs z <=? 2 ^ 53 then Some z else None
  | Some z, S754_zero false => Some z
  | _, _ => None
  end.

#[export] Instance builtins : Builtins := {|
  js_number_repr := number_repr;
  bound_as_integer := as_integer;
  sqlite_real_text := real_text;
  sqlite_real_literal := real_literal;
  sqlite_date := date;
  date_now_minus_1_year := SText "2025-11-02";
  sqlite_avg := avg;
|}.

End Reference.

(** ** Start-up *)

(** The rows of [src/screenshoot.ts]; [src/employee.ts] imports its rows
    from [./sampleData.js]. *)
Definition sampleData : list (list jsval) :=
  [[JStr "田中マネージャー"; JStr "技術部"; JStr "M2"; JNum 4.8; JStr "A+"; JNum 50000; JStr "2020-01-15"; JNull];
   [JStr "山田部長"; JStr "プロダクト部"; JStr "M3"; JNum 4.6; JStr "A"; JNum 80000; JStr "2019-03-20"; JNull];
   [JStr "佐藤主任"; JStr "技術部"; JStr "M1"; JNum 4.4; JStr "A"; JNum 35000; JStr "2021-06-10"; JNum 1];
   [JStr "鈴木エンジニア"; JStr "技術部"; JStr "P7"; JNum 4.2; JStr "A"; JNum 30000; JStr "2021-08-15"; JNum 3];
   [JStr "高橋エンジニア"; JStr "技術部"; JStr "P6"; JNum 3.8; JStr "B+"; JNum 25000; JStr "2022-01-20"; JNum 3];
   [JStr "渡辺エンジニア"; JStr "技術部"; JStr "P6"; JNum 4.0; JStr "A"; JNum 28000; JStr "2022-03-10"; JNum 3];
   [JStr "伊藤エンジニア"; JStr "技術部"; JStr "P5"; JNum 3.6; JStr "B+"; JNum 18000; JStr "2022-09-01"; JNum 4];
   [JStr "松本エンジニア"; JStr "技術部"; JStr "P5"; JNum 3.4; JStr "B"; JNum 15000; JStr "2023-02-15"; JNum 4];
   [JStr "中村エンジニア"; JStr "技術部"; JStr "P4"; JNum 3.2; JStr "B"; JNum 12000; JStr "2023-05-20"; JNum 5];
   [JStr "小林プロダクト"; JStr "プロダクト部"; JStr "P6"; JNum 4.1; JStr "A"; JNum 26000; JStr "2021-11-10"; JNum 2];
   [JStr "加藤プロダクト"; JStr "プロダクト部"; JStr "P5"; JNum 3.7; JStr "B+"; JNum 20000; JStr "2022-07-15"; JNum 10];
   [JStr "吉田プロダクト"; JStr "プロダクト部"; JStr "P4"; JNum 3.3; JStr "B"; JNum 14000; JStr "2023-01-08"; JNum 10]].

(** [CREATE TABLE], then [for (const data of sampleData) insertEmployee.run(...data)]. *)
Definition initial_database `{Builtins} : database :=
  foldl (fun d data => snd (insert_employee (bind <$> data) d))
        {| employees := []; sqlite_sequence := 0 |} sampleData.

(** ** Requests used in the examples *)

Definition arguments (l : list (string * jsval)) : gmap string jsval := list_to_map l.

(** [{ employee_id: 3, bonus: 1 }] *)
Definition raise_bonus_of_3 : gmap string jsval :=
  arguments [("employee_id", JNum 3); ("bonus", JNum 1)].

(** [{ name: "X", department: "D", level: "P1", performance_score: 9,
      quarterly_rating: "A", bonus: 100, hire_date: "2024-04-01" }] *)
Definition overrated : gmap string jsval :=
  arguments [("name", JStr "X"); ("department", JStr "D"); ("level", JStr "P1");
             ("performance_score", JNum 9); ("quarterly_rating", JStr "A");
             ("bonus", JNum 100); ("hire_date", JStr "2024-04-01")].

(** [{ employee_id: 33, bonus: 1 }] *)
Definition raise_bonus_of_33 : gmap string jsval :=
  arguments [("employee_id", JNum 33); ("bonus", JNum 1)].

(** [{ name: "X", department: "D", level: "P1", performance_score: 4.5,
      quarterly_rating: "A", bonus: 100, hire_date: "1999/01/01" }] *)
Definition hired_with_slashes : gmap string jsval :=
  arguments [("name", JStr "X"); ("department", JStr "D"); ("level", JStr "P1");
             ("performance_score", JNum 4.5); ("quarterly_rating", JStr "A");
             ("bonus", JNum 100); ("hire_date", JStr "1999/01/01")].

(** [{ department: "D" }] *)
Definition in_department_D : gmap string jsval := arguments [("department", JStr "D")].


(** [{ manager_id: 3 }] *)
Definition team_of_3 : gmap string jsval := arguments [("manager_id", JNum 3)].

(** A web in which every page loads and captures to the eight bytes of the
    PNG signature. *)
Definition reachable : Screenshot.web :=
  {| Screenshot.rejects := fun _ => None;
     Screenshot.png_of := fun _ => [Byte.x89; Byte.x50; Byte.x4e; Byte.x47; Byte.x0d; Byte.x0a; Byte.x1a; Byte.x0a] |}.

(** A web in which no host name resolves: [page.goto] rejects. *)
Definition unreachable : Screenshot.web :=
  {| Screenshot.rejects := fun st =>
       match st with
       | Screenshot.Goto url =>
           Some ("net::ERR_NAME_NOT_RESOLVED at " ++
                 match url with JStr s => s | _ => "" end)
       | _ => None
       end;
     Screenshot.png_of := fun _ => [] |}.

(** [{ name: "X", department: "D", level: "P1", performance_score: 4.5,
      quarterly_rating: "A", bonus: 100, hire_date: "007" }] *)
Definition hired_007 : gmap string jsval :=
  arguments [("name", JStr "X"); ("department", JStr "D"); ("level", JStr "P1");
             ("performance_score", JNum 4.5); ("quarterly_rating", JStr "A");
             ("bonus", JNum 100); ("hire_date", JStr "007")].


(** [{ name: "X", department: "D", level: "P1", performance_score: -1,
      quarterly_rating: "C", bonus: 0, hire_date: "2024-04-01" }] *)
Definition below_zero : gmap string jsval :=
  arguments [("name", JStr "X"); ("department", JStr "D"); ("level", JStr "P1");
             ("performance_score", JNum (-1)); ("quarterly_rating", JStr "C");
             ("bonus", JNum 0); ("hire_date", JStr "2024-04-01")].

(** ** Vocabulary of the properties *)

(** What holds of the outcome and the session after [m] ran from [s]. *)
Definition post {A} (m : M A) (s : session) (Q : exn + A -> session -> Prop) : Prop :=
  Q (m s).1 (m s).2.

(** From [s] to [s'], exactly [n] statements were executed. *)
Definition ran (n : nat) (s s' : session) : Prop :=
  exists l, executed s' = (executed s ++ l)%list /\ length l = n.

Definition ran_at_most (n : nat) (s s' : session) : Prop :=
  exists l, executed s' = (executed s ++ l)%list /\ (length l <= n)%nat.

(** The two kinds of content item. *)
Definition is_text_payload (p : payload) : Prop :=
  get p "type" = JStr "text" /\ exists text, get p "text" = JStr text.

Definition is_image_payload (p : payload) : Prop :=
  get p "type" = JStr "image" /\
  (exists bytes, get p "data" = JStr (Screenshot.toBase64 bytes)) /\
  (exists mimeType, get p "mimeType" = JStr mimeType).

(** The table is after [m] as it was before. *)
Definition keeps_db {A} (m : M A) : Prop :=
  forall s, post m s (fun _ s' => db s' = db s).

(** Whenever [m] completes, every item of its content list is a text or an
    image payload. *)
Definition returns_text (m : M call_tool_result) : Prop :=
  forall s result s',
    m s = (inr result, s') ->
    Forall (fun p => is_text_payload p \/ is_image_payload p) (content result).




(** Every hire_date of the table is a value [DATE()] maps to itself: a
    text in the form YYYY-MM-DD. *)
Definition canonical_hire_dates `{Builtins} (d : database) : Prop :=
  forall e, In e (employees d) -> sqlite_date (emp_hire_date e) = emp_hire_date e.

(** The arguments satisfy the zod shape registered for the tool. *)
Definition valid_for `{Builtins} (name : string) (args : gmap string jsval) : bool :=
  match snd <$> find (fun t => String.eqb (fst t) name) Mcp.tools with
  | Some (shape, _) => zvalid shape args
  | None => false
  end.

(** *** The texts of the answers, written out

    The answers are stated below as the texts a client reads, built from the
    rows of the table and from the arguments, not from the handlers. *)

(** A line feed. *)
Definition lf : string := String "010"%char EmptyString.

(** [`${n}`] for a count. *)
Definition count_text `{Builtins} (n : nat) : string :=
  number_to_string (Z_to_float (Z.of_nat n)).

(** What a column of a row reads as in a template literal. *)
Definition printed `{Builtins} (c : column) (e : employee) : string :=
  to_string (js_of_sql (field c e)).

(** The eight lines query_employees prints for one employee. *)
Definition card `{Builtins} (e : employee) : string :=
  "ID: " ++ printed Id e ++ lf ++
  "氏名: " ++ printed Name e ++ lf ++
  "部署: " ++ printed Department e ++ lf ++
  "等級: " ++ printed Level e ++ lf ++
  "パフォーマンス: " ++ printed Performance_score e ++ lf ++
  "評価: " ++ printed Quarterly_rating e ++ lf ++
  "ボーナス: ¥" ++ printed Bonus e ++ lf ++
  "入社日: " ++ printed Hire_date e ++ lf.

(** The text query_employees returns when it lists the given cards: their
    number, an empty line, and the cards, one line feed between two. *)
Definition listing_of `{Builtins} (cards : list string) : string :=
  count_text (length cards) ++ "人の社員が検索されました:" ++ lf ++ lf ++
  String.concat lf cards.

(** The text query_employees returns for the rows it lists. *)
Definition listing `{Builtins} (listed : list employee) : string :=
  listing_of (card <$> listed).


(** What the listing shows for a hire_date that was inserted as the string
    [h]: the value the DATE column keeps of it, as the runtime prints it. *)
Definition listed_hire_date `{Builtins} (h : string) : string :=
  to_string (js_of_sql (stored Hire_date (SText h))).



(** [SELECT * FROM employees WHERE manager_id IS NULL ORDER BY level DESC] *)
Definition top_managers `{Builtins} (d : database) : list employee :=
  select_employees [CIsNull Manager_id] [(Level, true)] [] d.

Definition employee_tools : list string :=
  ["query_employees"; "add_employee"; "department_stats"; "promotion_candidates";
   "update_performance"; "get_team_hierarchy"].

(** A value against a JSON Schema type. *)
Definition json_check (t : Raw.json_type) (v : jsval) : bool :=
  match t, v with
  | Raw.TString, JStr _ => true
  | Raw.TNumber, JNum f => negb (is_nan f)
  | _, _ => false
  end.

(** An arguments object against an input schema of the tool list: every
    required key is there, and every declared key that is there has the
    declared type. *)
Definition json_valid (sc : Raw.input_schema) (args : gmap string jsval) : bool :=
  forallb (fun k => negb (is_undefined (prop args k))) (Raw.required sc) &&
  forallb
    (fun kt =>
       match prop args (fst kt) with
       | JUndefined => true
       | v => json_check (fst (snd kt)) v
       end)
    (Raw.properties sc).

(** The input schema the tool list gives for a tool. *)
Definition advertised (name : string) : option Raw.input_schema :=
  Raw.inputSchema <$> find (fun t => String.eqb (Raw.name t) name) Raw.list_tools.

#[export] Instance column_eq_dec : EqDecision column.
Proof. solve_decision. Defined.

(** The NOT NULL constraints of the table, for one row. *)
Definition row_ok (e : employee) : Prop :=
  forall c, not_null c = true -> field c e <> SNull.

(** What [CREATE TABLE] promises of the table: rowids are positive, grow
    along the table (so that no two rows share one), none is above the
    AUTOINCREMENT sequence, and no NOT NULL column holds NULL. *)
Definition table_ok (d : database) : Prop :=
  0 <= sqlite_sequence d /\
  StronglySorted Z.lt (emp_id <$> employees d) /\
  Forall (fun e => 0 < emp_id e <= sqlite_sequence d) (employees d) /\
  Forall row_ok (employees d).

(** The second table is the first one followed by one new row, which has
    the next rowid; that rowid is above every rowid of the first table and
    becomes the sequence. *)
Definition appended (d d' : database) : Prop :=
  exists row,
    employees d' = (employees d ++ [row])%list /\
    emp_id row = next_rowid d /\
    sqlite_sequence d' = next_rowid d /\
    Forall (fun e => emp_id e < emp_id row) (employees d).


(** The assignments an update_performance call asks for, in the order of
    the SET clause: a column and the argument bound to its placeholder. *)
Definition assignments (args : gmap string jsval) : list (column * jsval) :=
  ((if is_undefined (prop args "performance_score") then []
    else [(Performance_score, prop args "performance_score")]) ++
   (if truthy (prop args "quarterly_rating")
    then [(Quarterly_rating, prop args "quarterly_rating")] else []) ++
   (if is_undefined (prop args "bonus") then []
    else [(Bonus, prop args "bonus")]))%list.

(** The row update_performance is asked to make of [e]: each of the three
    fields the arguments carry (for quarterly_rating: carry as a truthy
    value) becomes the argument as its column stores it, and every other
    field stays. *)
Definition updated_row `{Builtins} (args : gmap string jsval) (e : employee) : employee :=
  {| emp_id := emp_id e;
     emp_name := emp_name e;
     emp_department := emp_department e;
     emp_level := emp_level e;
     emp_performance_score :=
       if is_undefined (prop args "performance_score") then emp_performance_score e
       else stored Performance_score (bind (prop args "performance_score"));
     emp_quarterly_rating :=
       if truthy (prop args "quarterly_rating")
       then stored Quarterly_rating (bind (prop args "quarterly_rating"))
       else emp_quarterly_rating e;
     emp_bonus :=
       if is_undefined (prop args "bonus") then emp_bonus e
       else stored Bonus (bind (prop args "bonus"));
     emp_hire_date := emp_hire_date e;
     emp_manager_id := emp_manager_id e |}.

(** The table after an UPDATE of the rows whose id is employee_id. *)
Definition updated_table `{Builtins} (args : gmap string jsval) (d : database) : database :=
  {| employees :=
       (fun e => if id_is (bind (prop args "employee_id")) e then updated_row args e else e)
       <$> employees d;
     sqlite_sequence := sqlite_sequence d |}.

(** How the engine refuses an update_performance call: a NOT NULL
    constraint fails on performance_score or on bonus, and the argument
    given for that column binds to NULL (it is null or NaN). *)
Definition update_refused (args : gmap string jsval) (e : exn) : Prop :=
  exists c k,
    In (c, k) [(Performance_score, "performance_score"); (Bonus, "bonus")] /\
    e = SQLiteError (ConstraintNotNull c) /\
    is_undefined (prop args k) = false /\
    bind (prop args k) = SNull.

(** Whenever [m] throws, what it throws satisfies [P]. *)
Definition throws_only {A} (P : exn -> Prop) (m : M A) : Prop :=
  forall s, post m s (fun r _ => match r with inl e => P e | inr _ => True end).

(** The JSON Schema type of the values a zod type accepts. *)
Definition json_type_of (t : ztype) : Raw.json_type :=
  match t with
  | ZString | ZEnum _ => Raw.TString
  | ZNumber _ _ => Raw.TNumber
  end.

(** The three filters of query_employees, each as a test of a row: a filter
    counts when its argument is truthy, and compares the column of its name
    with that argument. *)
Definition department_filter `{Builtins} (args : gmap string jsval) (e : employee) : bool :=
  if truthy (prop args "department")
  then holds OpEq (emp_department e) (against_column Department (bind (prop args "department")))
  else true.

Definition level_filter `{Builtins} (args : gmap string jsval) (e : employee) : bool :=
  if truthy (prop args "level")
  then holds OpEq (emp_level e) (against_column Level (bind (prop args "level")))
  else true.

Definition score_filter `{Builtins} (args : gmap string jsval) (e : employee) : bool :=
  if truthy (prop args "min_performance")
  then holds OpGe (emp_performance_score e)
         (against_column Performance_score (bind (prop args "min_performance")))
  else true.

(** The filters a query_employees call asks for, as one test of a row. *)
Definition passes `{Builtins} (args : gmap string jsval) (e : employee) : bool :=
  department_filter args e && level_filter args e && score_filter args e.

(** The row is of department [d]. *)
Definition in_department (d : string) (e : employee) : bool :=
  match emp_department e with
  | SText t => String.eqb t d
  | _ => false
  end.




(** The row reports to the manager of id [p]: [manager_id = ?]. *)
Definition reports_to `{Builtins} (p : sqlval) (e : employee) : bool :=
  holds OpEq (emp_manager_id e) (against_column Manager_id p).

(** The line get_team_hierarchy prints for a member of a team. *)
Definition member_line `{Builtins} (e : employee) : string :=
  "  ├─ " ++ printed Name e ++ " | " ++ printed Level e ++
  " | パフォーマンス: " ++ printed Performance_score e.

(** The text get_team_hierarchy returns for a manager and the team. *)
Definition team_report `{Builtins} (manager : employee) (team : list employee) : string :=
  printed Name manager ++ " (" ++ printed Level manager ++ ") のチーム (" ++
  count_text (length team) ++ "人):" ++ lf ++ lf ++
  String.concat lf (member_line <$> team).

(** The block get_team_hierarchy prints for a top manager and the team, and
    the text it returns for all of them. *)
Definition manager_block `{Builtins} (block : employee * list employee) : string :=
  printed Name block.1 ++ " (" ++ printed Level block.1 ++ ") - " ++
  printed Department block.1 ++ lf ++ String.concat lf (member_line <$> block.2).

Definition hierarchy `{Builtins} (blocks : list (employee * list employee)) : string :=
  "チーム階層構造:" ++ lf ++ lf ++ String.concat (lf ++ lf) (manager_block <$> blocks).

(** The outcome is a listing of the given rows, in some order. *)
Definition lists `{Builtins} (outcome : exn + call_tool_result) (rows : list employee) : Prop :=
  exists listed,
    outcome = inr {| content := [[("type", JStr "text"); ("text", JStr (listing listed))]] |} /\
    listed ≡ₚ rows.

(** The outcome is the hierarchy of the table: one block for every row
    without a manager, in some order, each with the rows that name it as
    their manager. *)
Definition shows_top_managers `{Builtins} (outcome : exn + call_tool_result) (d : database)
    : Prop :=
  exists blocks,
    outcome
    = inr {| content := [[("type", JStr "text"); ("text", JStr (hierarchy blocks))]] |} /\
    blocks.*1 ≡ₚ filter (fun e => is_null (emp_manager_id e) = true) (employees d) /\
    Forall (fun block : employee * list employee =>
              block.2 ≡ₚ filter (fun e => reports_to (bind (js_of_sql (field Id block.1))) e
                                          = true) (employees d))
           blocks.

(** What an outcome satisfies when the call returned. *)
Definition if_returned {A} (outcome : exn + A) (P : Prop) : Prop :=
  match outcome with
  | inr _ => P
  | inl _ => True
  end.



(** ** Rules for the handler monad *)

Section Rules.
Context `{Builtins}.

Lemma zparse_Some sc args :
  zparse sc (Some args)
  = if zvalid sc args
    then Some (filter (fun kv => existsb (String.eqb (fst kv)) (fst <$> sc) = true) args)
    else None.
Proof. reflexivity. Qed.

Lemma post_ret {A} (a : A) s Q : Q (inr a) s -> post (mret a) s Q.
Proof. done. Qed.

Lemma post_throw {A} e s (Q : exn + A -> session -> Prop) : Q (inl e) s -> post (throw e) s Q.
Proof. done. Qed.

Lemma post_bind {A B} (m : M A) (f : A -> M B) s Q :
  post m s (fun r s' => match r with inl e => Q (inl e) s' | inr a => post (f a) s' Q end) ->
  post (m ≫= f) s Q.
Proof.
  unfold post, mbind, M_bind. destruct (m s) as [[e | a] s']; done.
Qed.

Lemma post_execute {A} st ps (run : list sqlval -> database -> (sqlite_exn + A) * database) s Q :
  Q (match (run (bind <$> ps) (db s)).1 with inl e => inl (SQLiteError e) | inr a => inr a end)
    {| db := (run (bind <$> ps) (db s)).2;
       executed := (executed s ++ [(st, bind <$> ps)])%list |} ->
  post (execute st ps run) s Q.
Proof.
  unfold post, execute. destruct (run (bind <$> ps) (db s)) as [r d]. done.
Qed.

Lemma post_reading {A} st ps (f : list sqlval -> database -> A) s Q :
  Q (inr (f (bind <$> ps) (db s)))
    {| db := db s; executed := (executed s ++ [(st, bind <$> ps)])%list |} ->
  post (execute st ps (reading f)) s Q.
Proof. intros HQ. apply post_execute. done. Qed.

Lemma post_mono {A} (m : M A) s (Q Q' : exn + A -> session -> Prop) :
  (forall r s', Q r s' -> Q' r s') -> post m s Q -> post m s Q'.
Proof. unfold post. auto. Qed.

(** [map_m] keeps whatever every call keeps. *)
Lemma post_map_m {A B} (f : A -> M B) (I : session -> Prop) xs s :
  (forall x s0, I s0 -> post (f x) s0 (fun _ s' => I s')) ->
  I s -> post (map_m f xs) s (fun _ s' => I s').
Proof.
  intros Hf. revert s. induction xs as [| x xs IH]; intros s Hs; simpl.
  - by apply post_ret.
  - apply post_bind. eapply post_mono; [| by apply Hf].
    intros [e | y] s' Hs'; [done |]. simpl.
    apply post_bind. eapply post_mono; [| by apply IH].
    intros [e | ys] s'' Hs''; [done |]. by apply post_ret.
Qed.

End Rules.

(** Steps through a handler: binds, returns, throws, reads, and the case
    distinctions in its body. *)
Ltac step :=
  first
    [ apply post_bind
    | apply post_ret
    | apply post_throw
    | apply post_reading
    | apply post_execute ].

Ltac steps := repeat (first [ step | progress simpl | case_match ]).

(** ** Reading handlers leave the table alone *)

Section ReadOnly.
Context `{Builtins}.

Lemma map_m_keeps_db {A B} (f : A -> M B) xs : (forall x, keeps_db (f x)) -> keeps_db (map_m f xs).
Proof.
  intros Hf s. apply (post_map_m f (fun s' => db s' = db s)); [| done].
  intros x s0 Hs0. eapply post_mono; [| apply Hf]. simpl. congruence.
Qed.

Lemma bind_keeps_db {A B} (m : M A) (f : A -> M B) :
  keeps_db m -> (forall a, keeps_db (f a)) -> keeps_db (m ≫= f).
Proof.
  intros Hm Hf s. apply post_bind. eapply post_mono; [| apply Hm].
  intros [e | a] s' Hs'; [done |]. eapply post_mono; [| apply Hf]. simpl. congruence.
Qed.

Lemma reading_keeps_db {A} st ps (f : list sqlval -> database -> A) :
  keeps_db (execute st ps (reading f)).
Proof. intros s. by apply post_reading. Qed.

Lemma ret_keeps_db {A} (a : A) : keeps_db (mret a).
Proof. intros s. by apply post_ret. Qed.

Lemma throw_keeps_db {A} e : keeps_db (throw (A := A) e).
Proof. intros s. by apply post_throw. Qed.

End ReadOnly.

Ltac keeps_db :=
  repeat first
    [ apply ret_keeps_db
    | apply throw_keeps_db
    | apply reading_keeps_db
    | apply map_m_keeps_db; intros
    | apply bind_keeps_db; [| intros]
    | case_match ].

Section ReadOnlyHandlers.
Context `{Builtins}.

Lemma raw_query_employees_keeps_db args : keeps_db (Raw.query_employees args).
Proof. unfold Raw.query_employees, all_employees. keeps_db. Qed.

Lemma raw_department_stats_keeps_db args : keeps_db (Raw.department_stats args).
Proof. unfold Raw.department_stats, get_department_stats, all_stats. keeps_db. Qed.

Lemma raw_promotion_candidates_keeps_db args : keeps_db (Raw.promotion_candidates args).
Proof. unfold Raw.promotion_candidates, all_employees. keeps_db. Qed.

Lemma raw_get_team_hierarchy_keeps_db args : keeps_db (Raw.get_team_hierarchy args).
Proof. unfold Raw.get_team_hierarchy, all_employees, get_by_id. keeps_db. Qed.

Lemma mcp_query_employees_keeps_db args : keeps_db (Mcp.query_employees args).
Proof. unfold Mcp.query_employees, all_employees. keeps_db. Qed.

Lemma mcp_department_stats_keeps_db args : keeps_db (Mcp.department_stats args).
Proof. unfold Mcp.department_stats, get_department_stats, all_stats. keeps_db. Qed.

Lemma mcp_promotion_candidates_keeps_db args : keeps_db (Mcp.promotion_candidates args).
Proof. unfold Mcp.promotion_candidates, all_employees. keeps_db. Qed.

Lemma mcp_get_team_hierarchy_keeps_db args : keeps_db (Mcp.get_team_hierarchy args).
Proof. unfold Mcp.get_team_hierarchy, all_employees, get_by_id. keeps_db. Qed.

(** What the McpServer adds in front of a handler changes nothing. *)
Lemma mcp_checked_keeps_db shape (handler : gmap string jsval -> M call_tool_result) args :
  (forall parsed, keeps_db (handler parsed)) ->
  keeps_db (match zparse shape args with
            | None => throw (McpError "Invalid arguments")
            | Some parsed => handler parsed
            end).
Proof. intros Hh. destruct (zparse shape args); [apply Hh | apply throw_keeps_db]. Qed.

(** C5: a call to query_employees, department_stats, promotion_candidates or
    get_team_hierarchy, on either employee server and with any arguments
    (or none), leaves the employees table, every row and every field of it,
    as it was before the call. *)
Theorem reporting_tools_are_read_only (args : option (gmap string jsval)) (s : session) :
  db (Raw.call_tool "query_employees" args s).2 = db s /\
  db (Raw.call_tool "department_stats" args s).2 = db s /\
  db (Raw.call_tool "promotion_candidates" args s).2 = db s /\
  db (Raw.call_tool "get_team_hierarchy" args s).2 = db s /\
  db (Mcp.call_tool "query_employees" args s).2 = db s /\
  db (Mcp.call_tool "department_stats" args s).2 = db s /\
  db (Mcp.call_tool "promotion_candidates" args s).2 = db s /\
  db (Mcp.call_tool "get_team_hierarchy" args s).2 = db s.
Proof.
  repeat split.
  - destruct args as [args |]; [apply raw_query_employees_keeps_db | done].
  - destruct args as [args |]; [apply raw_department_stats_keeps_db | done].
  - destruct args as [args |]; [apply raw_promotion_candidates_keeps_db | done].
  - destruct args as [args |]; [apply raw_get_team_hierarchy_keeps_db | done].
  - apply mcp_checked_keeps_db, mcp_query_employees_keeps_db.
  - apply mcp_checked_keeps_db, mcp_department_stats_keeps_db.
  - apply mcp_checked_keeps_db, mcp_promotion_candidates_keeps_db.
  - apply mcp_checked_keeps_db, mcp_get_team_hierarchy_keeps_db.
Qed.

End ReadOnlyHandlers.

(** ** How many statements a call executes *)

Section Counting.
Context `{Builtins}.

Lemma ran_refl s : ran 0 s s.
Proof. exists []. by rewrite app_nil_r. Qed.

Lemma ran_one s d entry :
  ran 1 s {| db := d; executed := (executed s ++ [entry])%list |}.
Proof. by exists [entry]. Qed.

Lemma ran_trans n m s s' s'' : ran n s s' -> ran m s' s'' -> ran (n + m) s s''.
Proof.
  intros (l & Hl & Hn) (l' & Hl' & Hm). exists (l ++ l')%list.
  rewrite Hl', Hl, <- app_assoc, length_app. split; [done | lia].
Qed.

Lemma ran_at_most_of n m s s' : ran n s s' -> (n <= m)%nat -> ran_at_most m s s'.
Proof. intros (l & Hl & Hn) Hle. exists l. split; [done | lia]. Qed.

(** One read per element, and none of them fails. *)
Lemma map_m_reads {A B C} st (ps : A -> list jsval) (g : A -> list sqlval -> database -> C)
    (h : A -> C -> B) xs s :
  post (map_m (fun x => execute st (ps x) (reading (g x)) ≫= fun t => mret (h x t)) xs) s
       (fun r s' => ran (length xs) s s' /\ exists ys, r = inr ys).
Proof.
  revert s. induction xs as [| x xs IH]; intros s; simpl.
  - apply post_ret. split; [apply ran_refl | by eexists].
  - repeat first [step | progress simpl].
    eapply post_mono; [| apply IH].
    intros r s' [Hran [ys ->]]. simpl. step. split; [| by eexists].
    apply (ran_trans 1 (length xs) s _ s' (ran_one _ _ _) Hran).
Qed.

End Counting.

Ltac ran :=
  first
    [ exists []; split; [by rewrite app_nil_r | simpl; lia]
    | eexists; split; [simpl; rewrite <- ?app_assoc; reflexivity | simpl; lia] ].

Section CountingHandlers.
Context `{Builtins}.

Lemma raw_query_employees_runs_1 args s :
  ran 1 s (Raw.query_employees args s).2.
Proof.
  change (post (Raw.query_employees args) s (fun _ s' => ran 1 s s')).
  unfold Raw.query_employees, all_employees. steps; ran.
Qed.

Lemma raw_add_employee_runs_1 args s :
  ran 1 s (Raw.add_employee args s).2.
Proof.
  change (post (Raw.add_employee args) s (fun _ s' => ran 1 s s')).
  unfold Raw.add_employee, run_insert. steps; ran.
Qed.

Lemma raw_department_stats_runs_1 args s :
  ran 1 s (Raw.department_stats args s).2.
Proof.
  change (post (Raw.department_stats args) s (fun _ s' => ran 1 s s')).
  unfold Raw.department_stats, get_department_stats, all_stats. steps; ran.
Qed.

Lemma raw_promotion_candidates_runs_1 args s :
  ran 1 s (Raw.promotion_candidates args s).2.
Proof.
  change (post (Raw.promotion_candidates args) s (fun _ s' => ran 1 s s')).
  unfold Raw.promotion_candidates, all_employees. steps; ran.
Qed.

Lemma raw_update_performance_runs_2 args s :
  ran_at_most 2 s (Raw.update_performance args s).2.
Proof.
  change (post (Raw.update_performance args) s (fun _ s' => ran_at_most 2 s s')).
  unfold Raw.update_performance, run_update, get_by_id.
  steps; ran.
Qed.

Lemma raw_get_team_hierarchy_runs args s :
  ran (if truthy (prop args "manager_id") then 2
       else 1 + length (top_managers (db s)))
      s (Raw.get_team_hierarchy args s).2.
Proof.
  change (post (Raw.get_team_hierarchy args) s
            (fun _ s' => ran (if truthy (prop args "manager_id") then 2
                              else 1 + length (top_managers (db s))) s s')).
  unfold Raw.get_team_hierarchy, all_employees, get_by_id, top_managers.
  destruct (truthy (prop args "manager_id")).
  - steps; ran.
  - repeat first [step | progress simpl].
    eapply post_mono; [| apply map_m_reads].
    intros r s' [Hran [ys ->]]. simpl. step.
    eapply (ran_trans 1); [| exact Hran]. ran.
Qed.

(** In [src/employee.ts] five of the six handlers have the body of their
    counterpart in [src/screenshoot.ts]. *)
Lemma mcp_query_employees_eq args : Mcp.query_employees args = Raw.query_employees args.
Proof. reflexivity. Qed.

Lemma mcp_add_employee_eq args : Mcp.add_employee args = Raw.add_employee args.
Proof. reflexivity. Qed.

Lemma mcp_department_stats_eq args : Mcp.department_stats args = Raw.department_stats args.
Proof. reflexivity. Qed.

Lemma mcp_update_performance_eq args : Mcp.update_performance args = Raw.update_performance args.
Proof. reflexivity. Qed.

Lemma mcp_get_team_hierarchy_eq args : Mcp.get_team_hierarchy args = Raw.get_team_hierarchy args.
Proof. reflexivity. Qed.

Lemma mcp_promotion_candidates_runs_1 args s :
  ran 1 s (Mcp.promotion_candidates args s).2.
Proof.
  change (post (Mcp.promotion_candidates args) s (fun _ s' => ran 1 s s')).
  unfold Mcp.promotion_candidates, all_employees. steps; ran.
Qed.

(** C2, as the code has it: query_employees, add_employee, department_stats
    and promotion_candidates execute exactly one statement per call;
    update_performance executes at most two (the UPDATE, then a SELECT of
    the name); get_team_hierarchy executes two when a manager is given (the
    team, then the manager) and otherwise one for the top managers plus one
    per top manager.  This holds for the handlers of both employee
    servers. *)
Theorem statements_per_call (args : gmap string jsval) (s : session) :
  (ran 1 s (Raw.query_employees args s).2 /\
   ran 1 s (Raw.add_employee args s).2 /\
   ran 1 s (Raw.department_stats args s).2 /\
   ran 1 s (Raw.promotion_candidates args s).2 /\
   ran_at_most 2 s (Raw.update_performance args s).2 /\
   ran (if truthy (prop args "manager_id") then 2 else 1 + length (top_managers (db s)))%nat
       s (Raw.get_team_hierarchy args s).2) /\
  (ran 1 s (Mcp.query_employees args s).2 /\
   ran 1 s (Mcp.add_employee args s).2 /\
   ran 1 s (Mcp.department_stats args s).2 /\
   ran 1 s (Mcp.promotion_candidates args s).2 /\
   ran_at_most 2 s (Mcp.update_performance args s).2 /\
   ran (if truthy (prop args "manager_id") then 2 else 1 + length (top_managers (db s)))%nat
       s (Mcp.get_team_hierarchy args s).2).
Proof.
  repeat split.
  - apply raw_query_employees_runs_1.
  - apply raw_add_employee_runs_1.
  - apply raw_department_stats_runs_1.
  - apply raw_promotion_candidates_runs_1.
  - apply raw_update_performance_runs_2.
  - apply raw_get_team_hierarchy_runs.
  - apply (raw_query_employees_runs_1 args s).
  - apply (raw_add_employee_runs_1 args s).
  - apply (raw_department_stats_runs_1 args s).
  - apply mcp_promotion_candidates_runs_1.
  - apply (raw_update_performance_runs_2 args s).
  - apply (raw_get_team_hierarchy_runs args s).
Qed.

End CountingHandlers.

(** C2 as stated fails: updating the bonus of employee 3 executes the UPDATE
    and then a SELECT. *)
Lemma update_performance_runs_two_statements :
  executed (Raw.update_performance (H := Reference.builtins) raise_bonus_of_3
              (fresh sample_database)).2
  = [(UpdateEmployees [Bonus], [SReal 1; SReal 3]); (SelectById [Name], [SReal 3])].
Proof. vm_compute. reflexivity. Qed.


(** ** What a completed call returns *)

Section Payloads.
Context `{Builtins}.

Lemma text_result_is_text text :
  Forall (fun p => is_text_payload p \/ is_image_payload p) (content (text_result text)).
Proof. repeat constructor. by exists text. Qed.

Lemma post_any {A} (m : M A) s (Q : exn + A -> session -> Prop) :
  (forall r s', Q r s') -> post m s Q.
Proof. unfold post. auto. Qed.

Lemma returns_text_intro (m : M call_tool_result) :
  (forall s, post m s (fun r _ => match r with
                                  | inr result => exists text, result = text_result text
                                  | inl _ => True
                                  end)) ->
  returns_text m.
Proof.
  intros Hm s result s' Hrun. specialize (Hm s). unfold post in Hm.
  rewrite Hrun in Hm. destruct Hm as [text ->]. apply text_result_is_text.
Qed.

End Payloads.

Ltac returns_text :=
  apply returns_text_intro; intros;
  repeat first
    [ step
    | progress simpl
    | case_match
    | by eexists
    | apply post_any; intros; case_match ].

Section PayloadsOfHandlers.
Context `{Builtins}.

Lemma raw_query_employees_returns_text args : returns_text (Raw.query_employees args).
Proof. unfold Raw.query_employees, all_employees. returns_text. Qed.

Lemma raw_add_employee_returns_text args : returns_text (Raw.add_employee args).
Proof. unfold Raw.add_employee, run_insert. returns_text. Qed.

Lemma raw_department_stats_returns_text args : returns_text (Raw.department_stats args).
Proof. unfold Raw.department_stats, get_department_stats, all_stats. returns_text. Qed.

Lemma raw_promotion_candidates_returns_text args : returns_text (Raw.promotion_candidates args).
Proof. unfold Raw.promotion_candidates, all_employees. returns_text. Qed.

Lemma mcp_promotion_candidates_returns_text args : returns_text (Mcp.promotion_candidates args).
Proof. unfold Mcp.promotion_candidates, all_employees. returns_text. Qed.

Lemma raw_update_performance_returns_text args : returns_text (Raw.update_performance args).
Proof. unfold Raw.update_performance, run_update, get_by_id. returns_text. Qed.

Lemma raw_get_team_hierarchy_returns_text args : returns_text (Raw.get_team_hierarchy args).
Proof. unfold Raw.get_team_hierarchy, all_employees, get_by_id. returns_text. Qed.

Lemma throw_returns_text e : returns_text (throw e).
Proof. intros s result s' Hrun. discriminate. Qed.

Lemma raw_call_tool_returns_text name args : returns_text (Raw.call_tool name args).
Proof.
  unfold Raw.call_tool.
  repeat case_match;
    auto using throw_returns_text, raw_query_employees_returns_text,
      raw_add_employee_returns_text, raw_department_stats_returns_text,
      raw_promotion_candidates_returns_text, raw_update_performance_returns_text,
      raw_get_team_hierarchy_returns_text.
Qed.

Lemma find_cons {A} (f : A -> bool) x l :
  find f (x :: l) = if f x then Some x else find f l.
Proof. reflexivity. Qed.

Lemma mcp_tools_return_text name shape handler :
  snd <$> find (fun t => String.eqb (fst t) name) Mcp.tools = Some (shape, handler) ->
  forall parsed, returns_text (handler parsed).
Proof.
  unfold Mcp.tools.
  repeat (rewrite find_cons; cbn [fst];
          destruct (String.eqb _ name); [intros [= <- <-]; intros parsed |]).
  - apply raw_query_employees_returns_text.
  - apply raw_add_employee_returns_text.
  - apply raw_department_stats_returns_text.
  - apply mcp_promotion_candidates_returns_text.
  - apply raw_update_performance_returns_text.
  - apply raw_get_team_hierarchy_returns_text.
  - discriminate.
Qed.

Lemma mcp_call_tool_returns_text name args : returns_text (Mcp.call_tool name args).
Proof.
  unfold Mcp.call_tool.
  destruct (snd <$> find _ Mcp.tools) as [[shape handler] |] eqn:Htool;
    [| apply throw_returns_text].
  destruct (zparse shape args) as [parsed |]; [| apply throw_returns_text].
  by eapply mcp_tools_return_text.
Qed.

Lemma get_screenshot_returns_image w args tr result tr' :
  Screenshot.get_screenshot w args tr = (inr result, tr') ->
  Forall (fun p => is_text_payload p \/ is_image_payload p) (content result).
Proof.
  unfold Screenshot.get_screenshot, Screenshot.await, mbind, Screenshot.B_bind, mret,
    Screenshot.B_ret.
  repeat case_match; try discriminate; intros [= <- _]; simpl.
  constructor; [| constructor]. right. repeat split; by eexists.
Qed.

(** C3: whenever a handler of either employee server or of the screenshot
    server completes a call, every item of the content list it returns is
    a text payload (type "text" with a string text) or an image payload
    (type "image" with string data and a mimeType); no other kind of item
    is returned. *)
Theorem completed_calls_return_text_or_image :
  (forall name args s result s',
      Raw.call_tool name args s = (inr result, s') ->
      Forall (fun p => is_text_payload p \/ is_image_payload p) (content result)) /\
  (forall name args s result s',
      Mcp.call_tool name args s = (inr result, s') ->
      Forall (fun p => is_text_payload p \/ is_image_payload p) (content result)) /\
  (forall w name args tr result tr',
      Screenshot.call_tool w name args tr = (inr result, tr') ->
      Forall (fun p => is_text_payload p \/ is_image_payload p) (content result)).
Proof.
  split; [| split].
  - intros name args. apply raw_call_tool_returns_text.
  - intros name args. apply mcp_call_tool_returns_text.
  - intros w name args tr result tr'. unfold Screenshot.call_tool.
    repeat case_match; try discriminate. apply get_screenshot_returns_image.
Qed.

End PayloadsOfHandlers.

(** ** Arguments that do not match the schema *)

Section Validation.
Context `{Builtins}.




Lemma mcp_rejects_invalid name shape handler args s :
  snd <$> find (fun t => String.eqb (fst t) name) Mcp.tools = Some (shape, handler) ->
  zparse shape args = None ->
  Mcp.call_tool name args s = (inl (McpError "Invalid arguments"), s).
Proof. intros Htool Hparse. unfold Mcp.call_tool. by rewrite Htool, Hparse. Qed.

End Validation.


(** ** Tools that are not registered *)

Section UnknownTool.
Context `{Builtins}.

Lemma eqb_not_in name l x : ~ In name l -> In x l -> String.eqb name x = false.
Proof.
  intros Hnot Hin. apply String.eqb_neq. intros ->. done.
Qed.

Lemma raw_unknown_tool name args s :
  ~ In name employee_tools ->
  Raw.call_tool name (Some args) s = (inl (Error ("不明なツール: " ++ name)), s).
Proof.
  intros Hnot. unfold Raw.call_tool.
  rewrite !(eqb_not_in name employee_tools) by (done || (simpl; tauto)).
  done.
Qed.

Lemma mcp_unknown_tool name args s :
  ~ In name employee_tools ->
  Mcp.call_tool name args s = (inl (McpError ("Tool " ++ name ++ " not found")), s).
Proof.
  intros Hnot. unfold Mcp.call_tool, Mcp.tools.
  repeat (rewrite find_cons; cbn [fst];
          rewrite String.eqb_sym, (eqb_not_in name employee_tools) by (done || (simpl; tauto))).
  done.
Qed.

(** C7, as the code has it: a CallTool request whose tool name is not one of
    the six registered tools executes no statement and leaves the employees
    table unchanged.  When the request carries an arguments object the
    low-level server throws an error that names the unknown tool; when it
    carries none, the guard on the arguments throws first and the error is
    "Missing arguments".  The McpServer throws an error that names the tool
    in both cases. *)
Theorem unknown_tool_is_refused (name : string) :
  ~ In name employee_tools ->
  (forall args s,
      Raw.call_tool name (Some args) s = (inl (Error ("不明なツール: " ++ name)), s)) /\
  (forall s, Raw.call_tool name None s = (inl (Error "Missing arguments"), s)) /\
  (forall args s,
      Mcp.call_tool name args s = (inl (McpError ("Tool " ++ name ++ " not found")), s)).
Proof.
  intros Hnot. repeat split; intros.
  - by apply raw_unknown_tool.
  - by apply mcp_unknown_tool.
Qed.

End UnknownTool.

(** C7 as stated fails for a request without arguments: the error does not
    identify the unknown tool. *)
Lemma unknown_tool_without_arguments :
  ~ In "delete_employee" employee_tools /\
  Raw.call_tool (H := Reference.builtins) "delete_employee" None (fresh sample_database)
  = (inl (Error "Missing arguments"), fresh sample_database).
Proof.
  split; [| reflexivity].
  simpl. intros [Heq | [Heq | [Heq | [Heq | [Heq | [Heq | []]]]]]]; discriminate.
Qed.

(** The theorem at an unknown tool. *)
Lemma unknown_tool_is_refused_witness :
  ~ In "delete_employee" employee_tools /\
  Raw.call_tool (H := Reference.builtins) "delete_employee" (Some ∅) (fresh sample_database)
  = (inl (Error "不明なツール: delete_employee"), fresh sample_database).
Proof.
  assert (Hnot : ~ In "delete_employee" employee_tools).
  { simpl. intros [Heq | [Heq | [Heq | [Heq | [Heq | [Heq | []]]]]]]; discriminate. }
  split; [exact Hnot |].
  exact (proj1 (unknown_tool_is_refused (H := Reference.builtins) "delete_employee" Hnot) ∅
           (fresh sample_database)).
Defined.

(** The theorem of C3 at a call that completes. *)
Lemma completed_calls_return_text_or_image_witness :
  Raw.call_tool (H := Reference.builtins) "update_performance" (Some ∅) (fresh sample_database)
  = (inr (text_result "更新するフィールドが指定されていません"), fresh sample_database) /\
  Forall (fun p => is_text_payload p \/ is_image_payload p)
         (content (text_result "更新するフィールドが指定されていません")).
Proof.
  assert (Hcall :
    Raw.call_tool (H := Reference.builtins) "update_performance" (Some ∅) (fresh sample_database)
    = (inr (text_result "更新するフィールドが指定されていません"), fresh sample_database)).
  { reflexivity. }
  split; [exact Hcall |].
  exact (proj1 (completed_calls_return_text_or_image (H := Reference.builtins)) _ _ _ _ _ Hcall).
Defined.

(** ** update_performance when nothing is updated *)

Section UpdateFailure.
Context `{Builtins}.

Lemma filter_none {A} (f : A -> bool) (l : list A) :
  (forall x, In x l -> f x = false) -> filter (fun x => f x = true) l = [].
Proof.
  induction l as [| x l IH]; intros Hnone; [done |].
  rewrite filter_cons. rewrite (Hnone x) by (by left).
  case_decide; [done |]. apply IH. intros y Hy. apply Hnone. by right.
Qed.

Lemma fmap_unless {A} (f : A -> bool) (g : A -> A) (l : list A) :
  (forall x, In x l -> f x = false) -> (fun x => if f x then g x else x) <$> l = l.
Proof.
  induction l as [| x l IH]; intros Hnone; [done |].
  rewrite fmap_cons, (Hnone x) by (by left). f_equal. apply IH. intros y Hy. apply Hnone. by right.
Qed.

(** An UPDATE whose id matches no row changes nothing and reports 0. *)
Lemma update_employees_no_match sets ps d :
  (forall e, In e (employees d) -> id_is (nth_param (length sets) ps) e = false) ->
  update_employees sets ps d
  = (inr {| changes := 0; lastInsertRowid := sqlite_sequence d |}, d).
Proof.
  intros Hnone. unfold update_employees.
  rewrite (filter_none _ _ Hnone), (fmap_unless _ _ _ Hnone). by destruct d.
Qed.

Lemma raw_update_performance_no_match args s :
  (forall e, In e (employees (db s)) -> id_is (bind (prop args "employee_id")) e = false) ->
  (Raw.update_performance args s).1
  = inr (text_result
           (if is_undefined (prop args "performance_score")
               && negb (truthy (prop args "quarterly_rating"))
               && is_undefined (prop args "bonus")
            then "更新するフィールドが指定されていません"
            else "ID " ++ to_string (prop args "employee_id") ++ " の社員が見つかりません")) /\
  db (Raw.update_performance args s).2 = db s.
Proof.
  intros Hnone. unfold Raw.update_performance, run_update, execute, mbind, M_bind.
  destruct (is_undefined (prop args "performance_score")),
           (truthy (prop args "quarterly_rating")),
           (is_undefined (prop args "bonus")); cbn -[update_employees to_string];
    try done;
    rewrite update_employees_no_match by exact Hnone; done.
Qed.

Lemma raw_update_performance_no_fields args s :
  prop args "performance_score" = JUndefined ->
  prop args "quarterly_rating" = JUndefined ->
  prop args "bonus" = JUndefined ->
  Raw.update_performance args s
  = (inr (text_result "更新するフィールドが指定されていません"), s).
Proof. intros Hp Hq Hb. unfold Raw.update_performance. by rewrite Hp, Hq, Hb. Qed.

(** C10: when a call of update_performance supplies none of
    performance_score, quarterly_rating and bonus, the handler returns the
    message that no field was specified and the session is exactly as
    before (no statement is executed).  When the employee_id matches no
    row, the handler returns a text message (that no field was specified if
    none was, otherwise that the employee was not found) and every row and
    field of the employees table is unchanged.  Both employee servers
    behave so. *)
Theorem update_performance_failure_is_atomic (args : gmap string jsval) (s : session) :
  (prop args "performance_score" = JUndefined ->
   prop args "quarterly_rating" = JUndefined ->
   prop args "bonus" = JUndefined ->
   Raw.update_performance args s
   = (inr (text_result "更新するフィールドが指定されていません"), s) /\
   Mcp.update_performance args s
   = (inr (text_result "更新するフィールドが指定されていません"), s)) /\
  ((forall e, In e (employees (db s)) -> id_is (bind (prop args "employee_id")) e = false) ->
   let message :=
     if is_undefined (prop args "performance_score")
        && negb (truthy (prop args "quarterly_rating"))
        && is_undefined (prop args "bonus")
     then "更新するフィールドが指定されていません"
     else "ID " ++ to_string (prop args "employee_id") ++ " の社員が見つかりません" in
   ((Raw.update_performance args s).1 = inr (text_result message) /\
    db (Raw.update_performance args s).2 = db s) /\
   ((Mcp.update_performance args s).1 = inr (text_result message) /\
    db (Mcp.update_performance args s).2 = db s)).
Proof.
  split.
  - intros Hp Hq Hb. split; by apply raw_update_performance_no_fields.
  - intros Hnone message. split; by apply raw_update_performance_no_match.
Qed.

End UpdateFailure.

(** The theorem at an update of an employee that does not exist. *)
Lemma update_performance_failure_is_atomic_witness :
  (forall e, In e (employees sample_database) ->
             id_is (H := Reference.builtins) (bind (prop raise_bonus_of_33 "employee_id")) e = false) /\
  (Raw.update_performance (H := Reference.builtins) raise_bonus_of_33 (fresh sample_database)).1
  = inr (text_result "ID 33 の社員が見つかりません") /\
  db (Raw.update_performance (H := Reference.builtins) raise_bonus_of_33 (fresh sample_database)).2
  = sample_database.
Proof.
  assert (Hnone : forall e, In e (employees sample_database) ->
             id_is (H := Reference.builtins) (bind (prop raise_bonus_of_33 "employee_id")) e = false).
  { intros e He. simpl in He.
    repeat (destruct He as [<- | He]; [vm_compute; reflexivity |]). destruct He. }
  split; [exact Hnone |].
  exact (proj1 (proj2 (update_performance_failure_is_atomic (H := Reference.builtins)
                         raise_bonus_of_33 (fresh sample_database)) Hnone)).
Defined.

(** ** The two employee servers side by side *)

Section Parsed.
Context `{Builtins}.

(** A declared key reads the same in the parsed object as in the arguments. *)
Lemma prop_parsed (sc : schema) (args : gmap string jsval) k :
  existsb (String.eqb k) (fst <$> sc) = true ->
  prop (filter (fun kv => existsb (String.eqb (fst kv)) (fst <$> sc) = true) args) k
  = prop args k.
Proof.
  intros Hk. unfold prop. destruct (args !! k) as [v |] eqn:Hlook.
  - erewrite map_lookup_filter_Some_2; [done | exact Hlook | exact Hk].
  - by rewrite map_lookup_filter_None_2 by (by left).
Qed.

Lemma mcp_call_tool_valid name shape (handler : gmap string jsval -> M call_tool_result) args s :
  snd <$> find (fun t => String.eqb (fst t) name) Mcp.tools = Some (shape, handler) ->
  zvalid shape args = true ->
  Mcp.call_tool name (Some args) s
  = handler (filter (fun kv => existsb (String.eqb (fst kv)) (fst <$> shape) = true) args) s.
Proof.
  intros Htool Hvalid. unfold Mcp.call_tool. rewrite Htool, zparse_Some. by rewrite Hvalid.
Qed.

Lemma mcp_query_employees_parsed args :
  Mcp.query_employees
    (filter (fun kv => existsb (String.eqb (fst kv)) (fst <$> Mcp.query_employees_schema) = true) args)
  = Raw.query_employees args.
Proof.
  unfold Mcp.query_employees, Raw.query_employees.
  by rewrite !prop_parsed by reflexivity.
Qed.

Lemma mcp_add_employee_parsed args :
  Mcp.add_employee
    (filter (fun kv => existsb (String.eqb (fst kv)) (fst <$> Mcp.add_employee_schema) = true) args)
  = Raw.add_employee args.
Proof.
  unfold Mcp.add_employee, Raw.add_employee.
  by rewrite !prop_parsed by reflexivity.
Qed.

Lemma mcp_department_stats_parsed args :
  Mcp.department_stats
    (filter (fun kv => existsb (String.eqb (fst kv)) (fst <$> Mcp.department_stats_schema) = true) args)
  = Raw.department_stats args.
Proof.
  unfold Mcp.department_stats, Raw.department_stats.
  by rewrite !prop_parsed by reflexivity.
Qed.

Lemma mcp_update_performance_parsed args :
  Mcp.update_performance
    (filter (fun kv => existsb (String.eqb (fst kv)) (fst <$> Mcp.update_performance_schema) = true) args)
  = Raw.update_performance args.
Proof.
  unfold Mcp.update_performance, Raw.update_performance.
  by rewrite !prop_parsed by reflexivity.
Qed.

Lemma mcp_get_team_hierarchy_parsed args :
  Mcp.get_team_hierarchy
    (filter (fun kv => existsb (String.eqb (fst kv)) (fst <$> Mcp.get_team_hierarchy_schema) = true) args)
  = Raw.get_team_hierarchy args.
Proof.
  unfold Mcp.get_team_hierarchy, Raw.get_team_hierarchy.
  by rewrite !prop_parsed by reflexivity.
Qed.

End Parsed.

Section Agreement.
Context `{Builtins}.

Lemma filter_agree {A} (f g : A -> bool) (l : list A) :
  (forall x, In x l -> f x = g x) ->
  filter (fun x => f x = true) l = filter (fun x => g x = true) l.
Proof.
  induction l as [| x l IH]; intros Hfg; [done |].
  rewrite !filter_cons, (Hfg x) by (by left).
  rewrite IH by (intros y Hy; apply Hfg; by right). done.
Qed.

(** On a table of canonical hire dates [DATE(hire_date)] selects what
    [hire_date] selects. *)
Lemma select_hired_before c cs keys ps d :
  canonical_hire_dates d ->
  select_employees (c :: CHiredBefore true :: cs) keys ps d
  = select_employees (c :: CHiredBefore false :: cs) keys ps d.
Proof.
  intros Hcanon. unfold select_employees. f_equal. apply filter_agree.
  intros e He. destruct c; simpl; by rewrite (Hcanon e He).
Qed.

Lemma promotion_candidates_agree args s :
  canonical_hire_dates (db s) ->
  (Mcp.promotion_candidates
     (filter (fun kv => existsb (String.eqb (fst kv))
                          (fst <$> Mcp.promotion_candidates_schema) = true) args) s).1
  = (Raw.promotion_candidates args s).1 /\
  db (Mcp.promotion_candidates
        (filter (fun kv => existsb (String.eqb (fst kv))
                             (fst <$> Mcp.promotion_candidates_schema) = true) args) s).2
  = db (Raw.promotion_candidates args s).2.
Proof.
  intros Hcanon. unfold Mcp.promotion_candidates, Raw.promotion_candidates.
  rewrite !prop_parsed by reflexivity.
  destruct (truthy (prop args "department"));
    unfold all_employees, execute, reading, mbind, M_bind, mret, M_ret; cbn [fst snd db app];
    by rewrite (select_hired_before _ _ _ _ _ Hcanon).
Qed.

Lemma valid_for_cases name args :
  valid_for name args = true ->
  (name = "query_employees" /\ zvalid Mcp.query_employees_schema args = true) \/
  (name = "add_employee" /\ zvalid Mcp.add_employee_schema args = true) \/
  (name = "department_stats" /\ zvalid Mcp.department_stats_schema args = true) \/
  (name = "promotion_candidates" /\ zvalid Mcp.promotion_candidates_schema args = true) \/
  (name = "update_performance" /\ zvalid Mcp.update_performance_schema args = true) \/
  (name = "get_team_hierarchy" /\ zvalid Mcp.get_team_hierarchy_schema args = true).
Proof.
  unfold valid_for, Mcp.tools.
  repeat (rewrite find_cons; cbn [fst];
          match goal with
          | |- context [String.eqb ?x name] => destruct (String.eqb x name) eqn:?
          end;
          [match goal with
           | Hname : String.eqb _ name = true |- _ => apply String.eqb_eq in Hname; subst name
           end;
           cbn [fmap option_fmap option_map snd]; intros Hvalid;
           repeat first [ left; split; [reflexivity | exact Hvalid]
                        | split; [reflexivity | exact Hvalid]
                        | right ] |]).
  cbn [find fmap option_fmap option_map]. discriminate.
Qed.

(** C8, as the code has it: for arguments that are valid under the zod shape
    of the tool, query_employees, add_employee, department_stats,
    update_performance and get_team_hierarchy give the same result and the
    same table on both employee servers.  promotion_candidates does so when
    every hire_date of the table is in the canonical form that [DATE()]
    maps to itself; on other hire dates the two servers can select
    different employees. *)
Theorem servers_agree (name : string) (args : gmap string jsval) (s : session) :
  valid_for name args = true ->
  (name = "promotion_candidates" -> canonical_hire_dates (db s)) ->
  (Mcp.call_tool name (Some args) s).1 = (Raw.call_tool name (Some args) s).1 /\
  db (Mcp.call_tool name (Some args) s).2 = db (Raw.call_tool name (Some args) s).2.
Proof.
  intros Hvalid Hcanon.
  destruct (valid_for_cases name args Hvalid)
    as [[-> Hv] | [[-> Hv] | [[-> Hv] | [[-> Hv] | [[-> Hv] | [-> Hv]]]]]].
  - rewrite (mcp_call_tool_valid "query_employees" Mcp.query_employees_schema Mcp.query_employees args s eq_refl Hv).
    by rewrite mcp_query_employees_parsed.
  - rewrite (mcp_call_tool_valid "add_employee" Mcp.add_employee_schema Mcp.add_employee args s eq_refl Hv).
    by rewrite mcp_add_employee_parsed.
  - rewrite (mcp_call_tool_valid "department_stats" Mcp.department_stats_schema Mcp.department_stats args s eq_refl Hv).
    by rewrite mcp_department_stats_parsed.
  - rewrite (mcp_call_tool_valid "promotion_candidates" Mcp.promotion_candidates_schema Mcp.promotion_candidates args s eq_refl Hv).
    by apply promotion_candidates_agree, Hcanon.
  - rewrite (mcp_call_tool_valid "update_performance" Mcp.update_performance_schema Mcp.update_performance args s eq_refl Hv).
    by rewrite mcp_update_performance_parsed.
  - rewrite (mcp_call_tool_valid "get_team_hierarchy" Mcp.get_team_hierarchy_schema Mcp.get_team_hierarchy args s eq_refl Hv).
    by rewrite mcp_get_team_hierarchy_parsed.
Qed.

End Agreement.

(** C8 as stated fails: with an employee whose hire_date is written with
    slashes (a string the shape of add_employee accepts), the low-level
    server finds no promotion candidate in department D and the McpServer
    finds one. *)
Lemma servers_disagree_on_promotion_candidates :
  valid_for (H := Reference.builtins) "add_employee" hired_with_slashes = true /\
  valid_for (H := Reference.builtins) "promotion_candidates" in_department_D = true /\
  let d := db (Mcp.call_tool (H := Reference.builtins) "add_employee"
                 (Some hired_with_slashes) (fresh sample_database)).2 in
  (Raw.call_tool (H := Reference.builtins) "promotion_candidates" (Some in_department_D)
     (fresh d)).1
  = inr (text_result ("D部署の昇進候補者 (0人):" ++ nl ++ nl)) /\
  (Mcp.call_tool (H := Reference.builtins) "promotion_candidates" (Some in_department_D)
     (fresh d)).1
  = inr (text_result ("D部署の昇進候補者 (1人):" ++ nl ++ nl ++
                      "X | P1 | パフォーマンス: 4.5 | 入社日: 1999/01/01")).
Proof. vm_compute. repeat split. Qed.

(** The theorem at the table the servers start with. *)
Lemma servers_agree_witness :
  valid_for (H := Reference.builtins) "promotion_candidates" in_department_D = true /\
  canonical_hire_dates (H := Reference.builtins) sample_database /\
  (Mcp.call_tool (H := Reference.builtins) "promotion_candidates" (Some in_department_D)
     (fresh sample_database)).1
  = (Raw.call_tool (H := Reference.builtins) "promotion_candidates" (Some in_department_D)
       (fresh sample_database)).1.
Proof.
  assert (Hcanon : canonical_hire_dates (H := Reference.builtins) sample_database).
  { intros e He. simpl in He.
    repeat (destruct He as [<- | He]; [vm_compute; reflexivity |]). destruct He. }
  split; [reflexivity |]. split; [exact Hcanon |].
  exact (proj1 (servers_agree (H := Reference.builtins) "promotion_candidates" in_department_D
                  (fresh sample_database) eq_refl (fun _ => Hcanon))).
Defined.

(** ** Falsy filter values *)

Section Falsy.
Context `{Builtins}.

Lemma prop_insert_eq (args : gmap string jsval) k v : prop (<[k := v]> args) k = v.
Proof. unfold prop. by rewrite lookup_insert_eq. Qed.

Lemma prop_insert_ne (args : gmap string jsval) k k' v :
  k <> k' -> prop (<[k := v]> args) k' = prop args k'.
Proof. intros Hne. unfold prop. by rewrite lookup_insert_ne. Qed.

Lemma prop_delete_eq (args : gmap string jsval) k : prop (delete k args) k = JUndefined.
Proof. unfold prop. by rewrite lookup_delete_eq. Qed.

Lemma prop_delete_ne (args : gmap string jsval) k k' :
  k <> k' -> prop (delete k args) k' = prop args k'.
Proof. intros Hne. unfold prop. by rewrite lookup_delete_ne. Qed.

Lemma truthy_zero : truthy (JNum 0) = false.
Proof. reflexivity. Qed.

Lemma truthy_empty : truthy (JStr "") = false.
Proof. reflexivity. Qed.

End Falsy.

Ltac props :=
  rewrite ?prop_insert_eq, ?prop_delete_eq,
    ?prop_insert_ne, ?prop_delete_ne by discriminate.

Section FalsyHandlers.
Context `{Builtins}.

Lemma raw_query_employees_min_performance_0 args :
  Raw.query_employees (<["min_performance" := JNum 0]> args)
  = Raw.query_employees (delete "min_performance" args).
Proof. unfold Raw.query_employees. props. by rewrite truthy_zero. Qed.

Lemma raw_query_employees_department_empty args :
  Raw.query_employees (<["department" := JStr ""]> args)
  = Raw.query_employees (delete "department" args).
Proof. unfold Raw.query_employees. props. by rewrite truthy_empty. Qed.

Lemma raw_query_employees_level_empty args :
  Raw.query_employees (<["level" := JStr ""]> args)
  = Raw.query_employees (delete "level" args).
Proof. unfold Raw.query_employees. props. by rewrite truthy_empty. Qed.

Lemma raw_get_team_hierarchy_manager_0 args :
  Raw.get_team_hierarchy (<["manager_id" := JNum 0]> args)
  = Raw.get_team_hierarchy (delete "manager_id" args).
Proof. unfold Raw.get_team_hierarchy. props. by rewrite truthy_zero. Qed.

(** An optional key set to a value of its type, or left out: the shape
    accepts both or neither. *)
Lemma zvalid_query_employees_min_performance_0 args :
  zvalid Mcp.query_employees_schema (<["min_performance" := JNum 0]> args)
  = zvalid Mcp.query_employees_schema (delete "min_performance" args).
Proof. unfold zvalid, Mcp.query_employees_schema. cbn [forallb]. by props. Qed.

Lemma zvalid_query_employees_department_empty args :
  zvalid Mcp.query_employees_schema (<["department" := JStr ""]> args)
  = zvalid Mcp.query_employees_schema (delete "department" args).
Proof. unfold zvalid, Mcp.query_employees_schema. cbn [forallb]. by props. Qed.

Lemma zvalid_query_employees_level_empty args :
  zvalid Mcp.query_employees_schema (<["level" := JStr ""]> args)
  = zvalid Mcp.query_employees_schema (delete "level" args).
Proof. unfold zvalid, Mcp.query_employees_schema. cbn [forallb]. by props. Qed.

Lemma zvalid_get_team_hierarchy_manager_0 args :
  zvalid Mcp.get_team_hierarchy_schema (<["manager_id" := JNum 0]> args)
  = zvalid Mcp.get_team_hierarchy_schema (delete "manager_id" args).
Proof. unfold zvalid, Mcp.get_team_hierarchy_schema. cbn [forallb]. by props. Qed.

Lemma mcp_call_tool_congr name shape (handler : gmap string jsval -> M call_tool_result)
    args1 args2 s :
  snd <$> find (fun t => String.eqb (fst t) name) Mcp.tools = Some (shape, handler) ->
  zvalid shape args1 = zvalid shape args2 ->
  handler (filter (fun kv => existsb (String.eqb (fst kv)) (fst <$> shape) = true) args1) s
  = handler (filter (fun kv => existsb (String.eqb (fst kv)) (fst <$> shape) = true) args2) s ->
  Mcp.call_tool name (Some args1) s = Mcp.call_tool name (Some args2) s.
Proof.
  intros Htool Hvalid Hhandler. unfold Mcp.call_tool. rewrite Htool, !zparse_Some.
  rewrite Hvalid. by destruct (zvalid shape args2).
Qed.

(** With [manager_id: 0] the first statement is the one for the top
    managers. *)
Lemma raw_get_team_hierarchy_manager_0_branch args s :
  exists rest,
    executed (Raw.get_team_hierarchy (<["manager_id" := JNum 0]> args) s).2
    = (executed s ++ (SelectEmployees [CIsNull Manager_id] [(Level, true)], []) :: rest)%list.
Proof.
  change (post (Raw.get_team_hierarchy (<["manager_id" := JNum 0]> args)) s
            (fun _ s' => exists rest,
               executed s'
               = (executed s ++
                  (SelectEmployees [CIsNull Manager_id] [(Level, true)], []) :: rest)%list)).
  unfold Raw.get_team_hierarchy, all_employees. props. rewrite truthy_zero.
  repeat first [step | progress simpl].
  eapply post_mono; [| apply map_m_reads].
  intros r s' [(l & Hl & _) [ys ->]]. simpl. step.
  exists l. rewrite Hl. simpl. by rewrite <- app_assoc.
Qed.

(** With [min_performance: 0] the one statement of query_employees carries
    no condition on performance_score, so that employees with a negative
    score are listed as well. *)
Lemma raw_query_employees_min_performance_0_unfiltered args s :
  exists cs ps,
    executed (Raw.query_employees (<["min_performance" := JNum 0]> args) s).2
    = (executed s ++ [(SelectEmployees cs [(Performance_score, true)], ps)])%list /\
    ~ In (CParam Performance_score OpGe) cs.
Proof.
  unfold Raw.query_employees, all_employees. props. rewrite truthy_zero.
  destruct (truthy (prop args "department")), (truthy (prop args "level"));
    eexists _, _; (split; [reflexivity |]); simpl; intuition discriminate.
Qed.

End FalsyHandlers.

(** ** The screenshot *)

Section ScreenshotCall.

(** C6, as the code has it: for a get_screenshot call whose url is a string,
    the handler launches the browser, opens a page, navigates to that url and
    captures the page, in this order.  When none of the four calls is
    rejected it returns exactly one content item, an image payload with
    mimeType "image/png" whose data is the base64 encoding of the captured
    bytes.  When one of them is rejected, whichever it is, the handler
    throws the error of that call, has made the calls before it and that
    call, makes no call after it and returns no content. *)
Theorem get_screenshot_returns_the_capture (w : Screenshot.web)
    (args : gmap string jsval) (url : string) (tr : list Screenshot.step) :
  prop args "url" = JStr url ->
  (Screenshot.rejects w Screenshot.Launch = None ->
   Screenshot.rejects w Screenshot.NewPage = None ->
   Screenshot.rejects w (Screenshot.Goto (JStr url)) = None ->
   Screenshot.rejects w Screenshot.TakeScreenshot = None ->
   Screenshot.call_tool w "get_screenshot" (Some args) tr
   = (inr {| content :=
               [[("type", JStr "image");
                 ("data", JStr (Screenshot.toBase64 (Screenshot.png_of w (JStr url))));
                 ("mimeType", JStr "image/png")]] |},
      (tr ++ [Screenshot.Launch; Screenshot.NewPage; Screenshot.Goto (JStr url);
              Screenshot.TakeScreenshot])%list)) /\
  (forall message,
      Screenshot.rejects w Screenshot.Launch = Some message ->
      Screenshot.call_tool w "get_screenshot" (Some args) tr
      = (inl (Error message), (tr ++ [Screenshot.Launch])%list)) /\
  (forall message,
      Screenshot.rejects w Screenshot.Launch = None ->
      Screenshot.rejects w Screenshot.NewPage = Some message ->
      Screenshot.call_tool w "get_screenshot" (Some args) tr
      = (inl (Error message), (tr ++ [Screenshot.Launch; Screenshot.NewPage])%list)) /\
  (forall message,
      Screenshot.rejects w Screenshot.Launch = None ->
      Screenshot.rejects w Screenshot.NewPage = None ->
      Screenshot.rejects w (Screenshot.Goto (JStr url)) = Some message ->
      Screenshot.call_tool w "get_screenshot" (Some args) tr
      = (inl (Error message),
         (tr ++ [Screenshot.Launch; Screenshot.NewPage; Screenshot.Goto (JStr url)])%list)) /\
  (forall message,
      Screenshot.rejects w Screenshot.Launch = None ->
      Screenshot.rejects w Screenshot.NewPage = None ->
      Screenshot.rejects w (Screenshot.Goto (JStr url)) = None ->
      Screenshot.rejects w Screenshot.TakeScreenshot = Some message ->
      Screenshot.call_tool w "get_screenshot" (Some args) tr
      = (inl (Error message),
         (tr ++ [Screenshot.Launch; Screenshot.NewPage; Screenshot.Goto (JStr url);
                 Screenshot.TakeScreenshot])%list)).
Proof.
  intros Hurl.
  assert (Hcall : Screenshot.call_tool w "get_screenshot" (Some args) tr
                  = Screenshot.get_screenshot w
                      (filter (fun kv => existsb (String.eqb (fst kv))
                                           (fst <$> Screenshot.get_screenshot_schema) = true) args)
                      tr).
  { unfold Screenshot.call_tool. rewrite zparse_Some.
    unfold zvalid, Screenshot.get_screenshot_schema.
    cbn [String.eqb Ascii.eqb Bool.eqb forallb]. by rewrite Hurl. }
  rewrite Hcall. unfold Screenshot.get_screenshot.
  rewrite (prop_parsed Screenshot.get_screenshot_schema) by reflexivity.
  rewrite Hurl.
  unfold Screenshot.await, mbind, Screenshot.B_bind, mret, Screenshot.B_ret.
  split; [| split; [| split; [| split]]].
  - intros -> -> -> ->. by rewrite <- !app_assoc.
  - by intros message ->.
  - intros message -> ->. by rewrite <- !app_assoc.
  - intros message -> -> ->. by rewrite <- !app_assoc.
  - intros message -> -> -> ->. by rewrite <- !app_assoc.
Qed.

End ScreenshotCall.

(** The encoder on the classic vectors. *)
Example toBase64_Man :
  Screenshot.toBase64 [Byte.x4d; Byte.x61; Byte.x6e] = "TWFu" /\
  Screenshot.toBase64 [Byte.x4d; Byte.x61] = "TWE=" /\
  Screenshot.toBase64 [Byte.x4d] = "TQ==".
Proof. repeat split. Qed.

(** C6 as stated fails when the navigation is rejected: the call throws and
    no image is returned. *)
Lemma get_screenshot_of_unreachable_page :
  Screenshot.call_tool unreachable "get_screenshot" (Some (arguments [("url", JStr "http://nowhere.invalid/")])) []
  = (inl (Error "net::ERR_NAME_NOT_RESOLVED at http://nowhere.invalid/"),
     [Screenshot.Launch; Screenshot.NewPage; Screenshot.Goto (JStr "http://nowhere.invalid/")]).
Proof. reflexivity. Qed.

(** The theorem at a page that loads. *)
Lemma get_screenshot_returns_the_capture_witness :
  prop (arguments [("url", JStr "http://example.com/")]) "url" = JStr "http://example.com/" /\
  Screenshot.call_tool reachable "get_screenshot"
    (Some (arguments [("url", JStr "http://example.com/")])) []
  = (inr {| content :=
              [[("type", JStr "image"); ("data", JStr "iVBORw0KGgo="); ("mimeType", JStr "image/png")]] |},
     [Screenshot.Launch; Screenshot.NewPage; Screenshot.Goto (JStr "http://example.com/");
      Screenshot.TakeScreenshot]).
Proof.
  split; [reflexivity |].
  exact (proj1 (get_screenshot_returns_the_capture reachable
                  (arguments [("url", JStr "http://example.com/")]) "http://example.com/" []
                  eq_refl) eq_refl eq_refl eq_refl eq_refl).
Defined.

(** ** Adding an employee and finding it again *)

Section RoundTrip.
Context `{Builtins}.

Lemma String_compare_refl s : String.compare s s = Eq.
Proof.
  pose proof (String.compare_antisym s s) as Hanti.
  destruct (String.compare s s); done.
Qed.

Lemma holds_same_text s : holds OpEq (SText s) (SText s) = true.
Proof. unfold holds. simpl. by rewrite String_compare_refl. Qed.

Lemma holds_at_least a b : (b <=? a)%float = true -> holds OpGe (SReal a) (SReal b) = true.
Proof.
  intros Hle. unfold holds. simpl. unfold compare_float. rewrite Hle.
  by destruct (a <=? b)%float.
Qed.

Lemma In_insert_sorted {A} (le : A -> A -> bool) x y l :
  In x (insert_sorted le y l) <-> x = y \/ In x l.
Proof.
  induction l as [| z l IH]; simpl; [intuition |].
  destruct (le y z); simpl; [intuition |]. rewrite IH. intuition.
Qed.

Lemma In_sort_by {A} (le : A -> A -> bool) x l : In x (sort_by le l) <-> In x l.
Proof.
  unfold sort_by. induction l as [| y l IH]; simpl; [done |].
  rewrite In_insert_sorted, IH. intuition.
Qed.

Lemma In_select_employees cs keys ps d e :
  In e (employees d) -> where_holds cs ps e = true -> In e (select_employees cs keys ps d).
Proof.
  intros Hin Hholds. unfold select_employees. apply In_sort_by.
  apply list_elem_of_In, list_elem_of_filter. split; [done | by apply list_elem_of_In].
Qed.


End RoundTrip.

Section RoundTripHandlers.
Context `{Builtins}.





End RoundTripHandlers.

Section RoundTripServers.
Context `{Builtins}.


End RoundTripServers.



(** How the listing shows some hire dates: a date with hyphens or slashes
    and a number in the form SQLite prints it come back as written, a
    number written otherwise comes back in that form. *)
Example listed_hire_dates :
  listed_hire_date (H := Reference.builtins) "2024-04-01" = "2024-04-01" /\
  listed_hire_date (H := Reference.builtins) "1999/01/01" = "1999/01/01" /\
  listed_hire_date (H := Reference.builtins) "20240401" = "20240401" /\
  listed_hire_date (H := Reference.builtins) "007" = "7" /\
  listed_hire_date (H := Reference.builtins) " 20240401" = "20240401" /\
  listed_hire_date (H := Reference.builtins) "1e3" = "1000".
Proof. vm_compute. repeat split. Qed.

(** ** The model on the start-up data *)

(** Loading [sampleData] gives the twelve rows of [sample_database]. *)
Example initial_database_is_the_sample :
  initial_database (H := Reference.builtins) = sample_database.
Proof. vm_compute. reflexivity. Qed.

(** An employee inserted through the low-level server with a score of -1 is
    listed by a query with [min_performance: 0], and not by one with
    [min_performance: 0.5]. *)
Example negative_score_is_listed :
  let s1 := (Raw.call_tool (H := Reference.builtins) "add_employee" (Some below_zero)
               (fresh sample_database)).2 in
  (Raw.call_tool (H := Reference.builtins) "query_employees"
     (Some (arguments [("department", JStr "D"); ("min_performance", JNum 0)])) s1).1
  = inr (text_result
           ("1人の社員が検索されました:" ++ nl ++ nl ++
            "ID: 13" ++ nl ++ "氏名: X" ++ nl ++ "部署: D" ++ nl ++ "等級: P1" ++ nl ++
            "パフォーマンス: -1" ++ nl ++ "評価: C" ++ nl ++ "ボーナス: ¥0" ++ nl ++
            "入社日: 2024-04-01" ++ nl)) /\
  (Raw.call_tool (H := Reference.builtins) "query_employees"
     (Some (arguments [("department", JStr "D"); ("min_performance", JNum 0.5)])) s1).1
  = inr (text_result ("0人の社員が検索されました:" ++ nl ++ nl)).
Proof. vm_compute. repeat split. Qed.

(** ** What the examples owe to the reference instance

    The examples above run on [Reference.builtins].  What makes them work
    holds for every instance. *)

Section AnyBuiltins.
Context `{Builtins}.

(** Whatever the builtins, the low-level server inserts the row with the
    score of 9. *)
Lemma raw_server_inserts_whatever_the_builtins :
  (Raw.call_tool "add_employee" (Some overrated) (fresh sample_database)).1
  = inr (text_result "社員 X を正常に追加しました。ID: 13") /\
  length (employees (db (Raw.call_tool "add_employee" (Some overrated)
                           (fresh sample_database)).2)) = 13%nat.
Proof. split; vm_compute; reflexivity. Qed.

(** Whatever the builtins, the text "007" goes into the hire_date column as
    the integer 7. *)
Lemma hire_date_007_is_stored_as_7 :
  stored Hire_date (bind (JStr "007")) = SInt 7.
Proof. reflexivity. Qed.

(** A hire date that [date()] does not read and that sorts before the
    cutoff as text: the condition of the low-level server is not true of
    the row, the condition of the McpServer is. *)
Lemma unread_hire_date_splits_the_servers (e : employee) (h cutoff : string) (sc : float) :
  emp_hire_date e = SText h ->
  emp_performance_score e = SReal sc ->
  (4 <=? sc)%float = true ->
  sqlite_date (SText h) = SNull ->
  date_now_minus_1_year = SText cutoff ->
  String.compare h cutoff <> Gt ->
  where_holds [CLiteral Performance_score OpGe (SReal 4.0); CHiredBefore true] [] e = false /\
  where_holds [CLiteral Performance_score OpGe (SReal 4.0); CHiredBefore false] [] e = true.
Proof.
  intros Hh Hsc Hle Hdate Hcut Hcmp.
  cbn [where_holds field against_column column_affinity].
  rewrite Hh, Hsc, Hdate, Hcut, (holds_at_least _ _ Hle).
  split; [reflexivity |].
  unfold holds. simpl. by destruct (String.compare h cutoff).
Qed.

End AnyBuiltins.

(** * Further properties of the servers *)

(** ** The constraints of the table are kept *)

Section Constraints.
Context `{Builtins}.

Lemma apply_affinity_not_null a v : v <> SNull -> apply_affinity a v <> SNull.
Proof.
  intros Hv. destruct a, v as [| z | f | s]; simpl; try done;
    unfold sql_text, numeric_of_text, real_to_integer;
    try destruct (integer_literal s); try destruct (sqlite_real_literal s); simpl;
    repeat case_match; done.
Qed.

Lemma emp_id_set_field c v e : emp_id (set_field c v e) = emp_id e.
Proof. by destruct c. Qed.

Lemma emp_id_assign sets ps e : emp_id (assign sets ps e) = emp_id e.
Proof.
  revert ps e. induction sets as [| c sets IH]; intros ps e; simpl; [done |].
  by rewrite IH, emp_id_set_field.
Qed.

Lemma field_set_field c c' v e :
  field c' (set_field c v e) = if decide (c = c' /\ c <> Id) then v else field c' e.
Proof. destruct c, c'; reflexivity. Qed.

Lemma field_assign_other sets ps e c :
  ~ In c sets -> field c (assign sets ps e) = field c e.
Proof.
  revert ps e. induction sets as [| c' sets IH]; intros ps e Hnot; simpl; [done |].
  rewrite IH by (intros Hin; apply Hnot; by right).
  rewrite field_set_field. case_decide as Hc; [| done].
  destruct Hc as [-> _]. exfalso. apply Hnot. by left.
Qed.

(** No NOT NULL column is assigned NULL: the assigned row keeps the
    constraints. *)
Lemma row_ok_assign sets ps e :
  row_ok e -> null_violation sets (take (length sets) ps) = None -> row_ok (assign sets ps e).
Proof.
  revert ps e. induction sets as [| c sets IH]; intros ps e Hok Hnull; simpl; [done |].
  apply IH.
  - intros c' Hc'. rewrite field_set_field. case_decide as Hc; [| by apply Hok].
    destruct Hc as [-> _]. apply apply_affinity_not_null.
    destruct ps as [| p ps]; simpl in *; rewrite Hc' in Hnull; [done |].
    by destruct p.
  - destruct ps as [| p ps]; simpl in *.
    + destruct (not_null c); [done |]. by destruct sets.
    + by destruct (not_null c && is_null p).
Qed.

Lemma rowid_bounds d :
  sqlite_sequence d <= foldr Z.max (sqlite_sequence d) (emp_id <$> employees d) /\
  Forall (fun e => emp_id e <= foldr Z.max (sqlite_sequence d) (emp_id <$> employees d))
         (employees d).
Proof.
  induction (employees d) as [| e l [IHseq IHall]]; cbn [foldr fmap list_fmap];
    [split; [lia | constructor] |].
  split; [lia |]. constructor; [lia |].
  eapply Forall_impl; [exact IHall |]. cbn beta. intros e' He'. lia.
Qed.

Lemma StronglySorted_snoc {A} (R : A -> A -> Prop) l y :
  StronglySorted R l -> Forall (fun x => R x y) l -> StronglySorted R (l ++ [y]).
Proof.
  induction 1 as [| x l Hsorted IH Hx]; intros Hall; simpl.
  - repeat constructor.
  - apply Forall_cons in Hall as [Hxy Hall]. constructor; [by apply IH |].
    apply Forall_app. split; [done |]. by repeat constructor.
Qed.

Lemma null_violation_nth cols vals i c :
  null_violation cols vals = None ->
  nth_error cols i = Some c -> not_null c = true -> nth i vals SNull <> SNull.
Proof.
  revert vals i. induction cols as [| c' cols IH]; intros vals i Hnull Hc Hnn; [by destruct i |].
  destruct vals as [| v vals]; simpl in Hnull.
  - destruct (not_null c') eqn:Hc'; [done |].
    destruct i as [| i]; simpl in Hc; [congruence |].
    specialize (IH [] i Hnull Hc Hnn). by destruct i.
  - destruct (not_null c' && is_null v) eqn:Hv; [done |].
    destruct i as [| i]; simpl in *.
    + injection Hc as ->. rewrite Hnn in Hv. by destruct v.
    + by apply IH.
Qed.

Lemma insert_employee_ok ps d : table_ok d -> table_ok (insert_employee ps d).2.
Proof.
  intros (Hseq & Hsorted & Hbounds & Hrows). unfold insert_employee.
  destruct (null_violation inserted_columns ps) eqn:Hnull; [done |].
  destruct (rowid_bounds d) as [Hmax Hids].
  unfold next_rowid. case_match; [done |].
  cbn [snd]. unfold table_ok. cbn [employees sqlite_sequence].
  repeat split.
  - lia.
  - rewrite fmap_app. cbn [fmap list_fmap emp_id]. apply StronglySorted_snoc; [done |].
    apply Forall_fmap. eapply Forall_impl; [exact Hids |]. cbn beta. intros e He.
    unfold compose. cbn beta. lia.
  - apply Forall_app. split.
    + eapply Forall_impl; [exact Hbounds |]. cbn beta. intros e He. lia.
    + repeat constructor; cbn [emp_id]; lia.
  - apply Forall_app. split; [done |]. repeat constructor.
    intros c Hc. destruct c; simpl; try done;
      apply apply_affinity_not_null;
      (eapply null_violation_nth; [exact Hnull | reflexivity | reflexivity]).
Qed.

Lemma update_employees_ok sets ps d : table_ok d -> table_ok (update_employees sets ps d).2.
Proof.
  intros (Hseq & Hsorted & Hbounds & Hrows). unfold update_employees.
  set (p := nth_param (length sets) ps).
  destruct (filter (fun e => id_is p e = true) (employees d)) as [| e0 hit] eqn:Hhit.
  - cbn [snd]. rewrite fmap_unless; [by destruct d |].
    intros e He. destruct (id_is p e) eqn:Hid; [| done].
    assert (e ∈ filter (fun e => id_is p e = true) (employees d)) as Hin
      by (apply list_elem_of_filter; split; [done | by apply list_elem_of_In]).
    rewrite Hhit in Hin. by apply elem_of_nil in Hin.
  - destruct (null_violation sets (take (length sets) ps)) eqn:Hnull; [done |].
    cbn [snd]. unfold table_ok. cbn [employees sqlite_sequence].
    repeat split; [done | | |].
    + rewrite <- list_fmap_compose.
      erewrite list_fmap_ext; [exact Hsorted |].
      intros i e _. unfold compose. case_match; [apply emp_id_assign | done].
    + apply Forall_fmap. eapply Forall_impl; [exact Hbounds |]. cbn beta.
      intros e He. unfold compose. case_match; [by rewrite emp_id_assign | done].
    + apply Forall_fmap. eapply Forall_impl; [exact Hrows |]. cbn beta.
      intros e He. unfold compose. case_match; [by apply row_ok_assign | done].
Qed.

(** A computation keeps the constraints of the table. *)
Lemma keeps_db_keeps_ok {A} (m : M A) s :
  keeps_db m -> table_ok (db s) -> table_ok (db (m s).2).
Proof. intros Hm Hok. specialize (Hm s). unfold post in Hm. by rewrite Hm. Qed.

Lemma raw_add_employee_ok args s :
  table_ok (db s) -> table_ok (db (Raw.add_employee args s).2).
Proof.
  intros Hok.
  change (post (Raw.add_employee args) s (fun _ s' => table_ok (db s'))).
  unfold Raw.add_employee, run_insert. steps; by apply insert_employee_ok.
Qed.

Lemma raw_update_performance_ok args s :
  table_ok (db s) -> table_ok (db (Raw.update_performance args s).2).
Proof.
  intros Hok.
  change (post (Raw.update_performance args) s (fun _ s' => table_ok (db s'))).
  unfold Raw.update_performance, run_update, get_by_id.
  steps; first [done | by apply update_employees_ok].
Qed.

Lemma raw_call_tool_ok name args s :
  table_ok (db s) -> table_ok (db (Raw.call_tool name args s).2).
Proof.
  intros Hok. unfold Raw.call_tool. repeat case_match; try done.
  - by apply keeps_db_keeps_ok; [apply raw_query_employees_keeps_db |].
  - by apply raw_add_employee_ok.
  - by apply keeps_db_keeps_ok; [apply raw_department_stats_keeps_db |].
  - by apply keeps_db_keeps_ok; [apply raw_promotion_candidates_keeps_db |].
  - by apply raw_update_performance_ok.
  - by apply keeps_db_keeps_ok; [apply raw_get_team_hierarchy_keeps_db |].
Qed.

Lemma mcp_call_tool_ok name args s :
  table_ok (db s) -> table_ok (db (Mcp.call_tool name args s).2).
Proof.
  intros Hok. unfold Mcp.call_tool, Mcp.tools.
  repeat (rewrite find_cons; cbn [fst];
          match goal with
          | |- context [String.eqb ?x name] => destruct (String.eqb x name)
          end;
          [cbn [fmap option_fmap option_map snd];
           destruct (zparse _ args) as [parsed |]; [| done] |]); [.. | done].
  - by apply keeps_db_keeps_ok; [apply mcp_query_employees_keeps_db |].
  - by apply (raw_add_employee_ok parsed).
  - by apply keeps_db_keeps_ok; [apply mcp_department_stats_keeps_db |].
  - by apply keeps_db_keeps_ok; [apply mcp_promotion_candidates_keeps_db |].
  - by apply (raw_update_performance_ok parsed).
  - by apply keeps_db_keeps_ok; [apply mcp_get_team_hierarchy_keeps_db |].
Qed.

Lemma initial_database_ok : table_ok initial_database.
Proof.
  unfold initial_database.
  assert (Hfold : forall rows d, table_ok d ->
            table_ok (foldl (fun d data => snd (insert_employee (bind <$> data) d)) d rows)).
  { induction rows as [| data rows IH]; intros d Hd; simpl; [done |].
    apply IH. by apply insert_employee_ok. }
  apply Hfold. repeat split; simpl; try lia; constructor.
Qed.

(** X1: the constraints [CREATE TABLE] declares hold of the table the
    servers start with, and every CallTool request to either employee
    server, whatever its tool name and arguments and whether it returns or
    throws, leaves a table in which they hold: rowids are positive, grow
    along the table (none is shared or reused), none exceeds the
    AUTOINCREMENT sequence, and no NOT NULL column holds NULL. *)
Theorem table_constraints_are_kept :
  table_ok initial_database /\
  forall name args s,
    table_ok (db s) ->
    table_ok (db (Raw.call_tool name args s).2) /\
    table_ok (db (Mcp.call_tool name args s).2).
Proof.
  split; [apply initial_database_ok |].
  intros name args s Hok. split; [by apply raw_call_tool_ok | by apply mcp_call_tool_ok].
Qed.

End Constraints.

(** The theorem at the start-up table and an add_employee call. *)
Lemma table_constraints_are_kept_witness :
  table_ok sample_database /\
  table_ok (db (Raw.call_tool (H := Reference.builtins) "add_employee" (Some hired_007)
                  (fresh sample_database)).2).
Proof.
  assert (Hok : table_ok sample_database).
  { unfold table_ok, sample_database. cbn [employees sqlite_sequence].
    repeat split.
    - lia.
    - repeat constructor.
    - repeat constructor; cbn [emp_id sample_row]; lia.
    - repeat constructor; intros c Hc; destruct c; first [discriminate Hc | discriminate]. }
  split; [exact Hok |].
  exact (proj1 (proj2 (table_constraints_are_kept (H := Reference.builtins))
                  "add_employee" (Some hired_007) (fresh sample_database) Hok)).
Defined.

(** ** What add_employee does to the table *)

Section AddEmployee.
Context `{Builtins}.

Lemma insert_employee_appends ps d :
  match (insert_employee ps d).1 with
  | inr result =>
      lastInsertRowid result = next_rowid d /\
      appended d (insert_employee ps d).2
  | inl _ => (insert_employee ps d).2 = d
  end.
Proof.
  unfold insert_employee.
  destruct (null_violation inserted_columns ps); [reflexivity |].
  cbv zeta. destruct (2 ^ 63 <=? next_rowid d); [reflexivity |].
  cbn [fst snd lastInsertRowid]. split; [reflexivity |].
  eexists. cbn [employees sqlite_sequence emp_id].
  split; [reflexivity |]. split; [reflexivity |]. split; [reflexivity |].
  destruct (rowid_bounds d) as [_ Hids].
  eapply Forall_impl; [exact Hids |]. cbn beta. intros e He. unfold next_rowid. cbn [emp_id]. lia.
Qed.

Lemma raw_add_employee_appends args s :
  match (Raw.add_employee args s).1 with
  | inr _ => appended (db s) (db (Raw.add_employee args s).2)
  | inl _ => db (Raw.add_employee args s).2 = db s
  end.
Proof.
  unfold Raw.add_employee, run_insert, execute, mbind, M_bind.
  pose proof (insert_employee_appends
                (bind <$> [prop args "name"; prop args "department"; prop args "level";
                           prop args "performance_score"; prop args "quarterly_rating";
                           prop args "bonus"; prop args "hire_date";
                           js_or (prop args "manager_id") JNull]) (db s)) as Hins.
  destruct (insert_employee _ (db s)) as [[e | result] d]; cbn [fst snd db] in *; [done |].
  by destruct Hins.
Qed.

(** X2: an add_employee call, on either employee server and whatever its
    arguments, either returns, and then the table is the old one followed by
    exactly one new row whose id is one more than the largest rowid ever
    used (so above the id of every other row), or it throws, and then the
    table is exactly as before. *)
Theorem add_employee_appends_or_throws (args : option (gmap string jsval)) (s : session) :
  match (Raw.call_tool "add_employee" args s).1 with
  | inr _ => appended (db s) (db (Raw.call_tool "add_employee" args s).2)
  | inl _ => db (Raw.call_tool "add_employee" args s).2 = db s
  end /\
  match (Mcp.call_tool "add_employee" args s).1 with
  | inr _ => appended (db s) (db (Mcp.call_tool "add_employee" args s).2)
  | inl _ => db (Mcp.call_tool "add_employee" args s).2 = db s
  end.
Proof.
  split.
  - destruct args as [args |]; [apply raw_add_employee_appends | done].
  - unfold Mcp.call_tool. cbn [find Mcp.tools fst String.eqb Ascii.eqb Bool.eqb].
    cbn [fmap option_fmap option_map snd].
    destruct (zparse Mcp.add_employee_schema args) as [parsed |]; [| done].
    apply (raw_add_employee_appends parsed).
Qed.



End AddEmployee.


(** ** What update_performance does to the table *)

Section UpdatePerformance.
Context `{Builtins}.

Lemma raw_update_performance_unfold args :
  Raw.update_performance args
  = if (length (assignments args) =? 0)%nat then
      mret (text_result "更新するフィールドが指定されていません")
    else
      result ← run_update (fst <$> assignments args)
                 ((snd <$> assignments args) ++ [prop args "employee_id"])%list;
      if changes result =? 0 then
        mret (text_result
                ("ID " ++ to_string (prop args "employee_id") ++ " の社員が見つかりません"))
      else
        employee ← get_by_id [Name] [prop args "employee_id"];
        match employee with
        | None => throw TypeError
        | Some employee =>
            mret (text_result
                    ("社員 " ++ show Name employee ++
                     " のパフォーマンス情報を正常に更新しました"))
        end.
Proof.
  unfold Raw.update_performance, assignments.
  destruct (is_undefined (prop args "performance_score")),
           (truthy (prop args "quarterly_rating")),
           (is_undefined (prop args "bonus")); reflexivity.
Qed.

(** The placeholder of [WHERE id = ?] receives employee_id. *)
Lemma id_param args :
  nth_param (length (fst <$> assignments args))
    (bind <$> ((snd <$> assignments args) ++ [prop args "employee_id"])%list)
  = bind (prop args "employee_id").
Proof.
  unfold assignments.
  destruct (is_undefined (prop args "performance_score")),
           (truthy (prop args "quarterly_rating")),
           (is_undefined (prop args "bonus")); reflexivity.
Qed.

(** The placeholders of the SET clause receive the arguments of their
    columns. *)
Lemma assign_assignments args e :
  assign (fst <$> assignments args)
    (bind <$> ((snd <$> assignments args) ++ [prop args "employee_id"])%list) e
  = updated_row args e.
Proof.
  unfold assignments, updated_row.
  destruct (is_undefined (prop args "performance_score")),
           (truthy (prop args "quarterly_rating")),
           (is_undefined (prop args "bonus")); destruct e; reflexivity.
Qed.

Lemma truthy_bind v : truthy v = true -> is_null (bind v) = false.
Proof.
  destruct v as [| | b | f | t]; cbn [truthy bind]; try done.
  intros [_ Hf]%andb_prop. unfold is_nan. by rewrite Hf.
Qed.

(** When the SET clause would put NULL into a NOT NULL column, the
    argument of that column is there and binds to NULL. *)
Lemma null_violation_assignments args c :
  null_violation (fst <$> assignments args)
    (take (length (fst <$> assignments args))
       (bind <$> ((snd <$> assignments args) ++ [prop args "employee_id"])%list))
  = Some c ->
  exists k,
    In (c, k) [(Performance_score, "performance_score"); (Bonus, "bonus")] /\
    is_undefined (prop args k) = false /\
    bind (prop args k) = SNull.
Proof.
  unfold assignments.
  destruct (is_undefined (prop args "performance_score")) eqn:Hp,
           (truthy (prop args "quarterly_rating")) eqn:Hq,
           (is_undefined (prop args "bonus")) eqn:Hb;
    cbn [app fmap list_fmap fst snd length take null_violation not_null andb];
    try rewrite (truthy_bind _ Hq);
    repeat match goal with
           | |- (if is_null ?v then _ else _) = _ -> _ =>
               let Hv := fresh "Hv" in destruct v eqn:Hv; cbn [is_null]
           end;
    intros Hc; try discriminate Hc; injection Hc as <-;
    first [ exists "performance_score"; split; [simpl; tauto | done]
          | exists "bonus"; split; [simpl; tauto | done] ].
Qed.

Lemma id_is_assign p sets ps e : id_is p (assign sets ps e) = id_is p e.
Proof. unfold id_is. cbn [where_holds field hd tl]. by rewrite emp_id_assign. Qed.

Lemma filter_nil_none {A} (f : A -> bool) (l : list A) x :
  filter (fun x => f x = true) l = [] -> In x l -> f x = false.
Proof.
  intros Hnil Hin. destruct (f x) eqn:Hfx; [| done].
  assert (Hx : x ∈ filter (fun x => f x = true) l)
    by (apply list_elem_of_filter; split; [done | by apply list_elem_of_In]).
  rewrite Hnil in Hx. by apply elem_of_nil in Hx.
Qed.

(** After an UPDATE that changed a row, [SELECT ... WHERE id = ?] with the
    same id finds one. *)
Lemma updated_row_is_found sets ps p d x hit :
  filter (fun e => id_is p e = true) (employees d) = x :: hit ->
  head (select_employees [CParam Id OpEq] [] [p]
          {| employees := (fun e => if id_is p e then assign sets ps e else e) <$> employees d;
             sqlite_sequence := sqlite_sequence d |}) <> None.
Proof.
  intros Hhit.
  assert (Hx : x ∈ filter (fun e => id_is p e = true) (employees d))
    by (rewrite Hhit; left).
  apply list_elem_of_filter in Hx as [Hid Hx].
  assert (Hin : In (assign sets ps x)
                  (select_employees [CParam Id OpEq] [] [p]
                     {| employees :=
                          (fun e => if id_is p e then assign sets ps e else e) <$> employees d;
                        sqlite_sequence := sqlite_sequence d |})).
  { apply In_select_employees.
    - cbn [employees]. apply list_elem_of_In, list_elem_of_fmap.
      exists x. by rewrite Hid.
    - change (id_is p (assign sets ps x) = true). by rewrite id_is_assign. }
  destruct (select_employees _ _ _ _); [destruct Hin | done].
Qed.

(** The whole of update_performance: what it leaves of the table, and how
    it can fail. *)
Lemma raw_update_performance_post args s :
  post (Raw.update_performance args) s
    (fun r s' =>
       match r with
       | inr _ => db s' = updated_table args (db s)
       | inl e => db s' = db s /\ update_refused args e
       end).
Proof.
  rewrite raw_update_performance_unfold.
  destruct (length (assignments args) =? 0)%nat eqn:Hnone.
  - apply post_ret. unfold updated_table.
    assert (Hsame : forall e, updated_row args e = e).
    { intros e. revert Hnone. unfold assignments, updated_row.
      destruct (is_undefined (prop args "performance_score")),
               (truthy (prop args "quarterly_rating")),
               (is_undefined (prop args "bonus")); try discriminate.
      by destruct e. }
    destruct (db s) as [rows seq]. cbn [employees sqlite_sequence]. f_equal.
    induction rows as [| e rows IH]; [done |].
    rewrite fmap_cons, <- IH, Hsame. by destruct (id_is _ e).
  - apply post_bind. unfold run_update. apply post_execute.
    unfold update_employees. rewrite id_param.
    destruct (filter (fun e => id_is (bind (prop args "employee_id")) e = true)
                (employees (db s))) as [| x hit] eqn:Hhit.
    + cbn [fst snd length Z.of_nat changes Z.eqb]. apply post_ret. cbn [db].
      unfold updated_table. f_equal. apply list_fmap_ext. intros i e He.
      by rewrite assign_assignments.
    + destruct (null_violation _ _) as [c |] eqn:Hnull.
      * cbn [fst snd db]. split; [done |].
        apply null_violation_assignments in Hnull as (k & Hk & Hthere & Hbound).
        by exists c, k.
      * cbn [fst snd changes]. destruct (Z.of_nat (length (x :: hit)) =? 0) eqn:Hzero;
          [apply Z.eqb_eq in Hzero; cbn [length] in Hzero; lia |].
        assert (Hdb : {| employees :=
                           (fun e => if id_is (bind (prop args "employee_id")) e
                                     then assign (fst <$> assignments args)
                                            (bind <$> ((snd <$> assignments args) ++ [prop args "employee_id"])%list) e
                                     else e) <$> employees (db s);
                         sqlite_sequence := sqlite_sequence (db s) |}
                      = updated_table args (db s)).
        { unfold updated_table. f_equal. apply list_fmap_ext. intros i e He.
          by rewrite assign_assignments. }
        apply post_bind. unfold get_by_id. apply post_reading. cbn [db fmap list_fmap].
        pose proof (updated_row_is_found (fst <$> assignments args)
                      (bind <$> ((snd <$> assignments args) ++ [prop args "employee_id"])%list)
                      _ _ _ _ Hhit) as Hfound.
        destruct (head _) as [employee |]; [| done].
        apply post_ret. cbn [db]. exact Hdb.
Qed.

(** X4: update_performance, on either employee server and whatever JSON
    scalars (null, booleans, numbers, strings) the arguments are, ends in
    one of two ways.  It returns, and then the table is
    the old one in which every row whose id equals employee_id has
    performance_score, quarterly_rating and bonus replaced by the arguments
    given for them (an absent argument, and a quarterly_rating that is not
    truthy, leaves its field alone), each argument in its own column; ids,
    names, departments, levels, hire dates, managers, the number and order
    of the rows and the AUTOINCREMENT sequence are as before.  Or it throws,
    and then the table is unchanged; on the low-level server a request with
    arguments throws only when the engine refuses NULL for
    performance_score or bonus, whose argument is then null or NaN, and
    never because the handler reads a property of a row it did not find. *)
Theorem update_performance_sets_the_named_fields
    (args : option (gmap string jsval)) (s : session) :
  match (Raw.call_tool "update_performance" args s).1 with
  | inr _ =>
      exists args', args = Some args' /\
      db (Raw.call_tool "update_performance" args s).2 = updated_table args' (db s)
  | inl e =>
      db (Raw.call_tool "update_performance" args s).2 = db s /\
      match args with
      | Some args' => update_refused args' e
      | None => e = Error "Missing arguments"
      end
  end /\
  match (Mcp.call_tool "update_performance" args s).1 with
  | inr _ =>
      exists args', args = Some args' /\
      db (Mcp.call_tool "update_performance" args s).2 = updated_table args' (db s)
  | inl e => db (Mcp.call_tool "update_performance" args s).2 = db s
  end.
Proof.
  split.
  - destruct args as [args |]; [| done].
    change (Raw.call_tool "update_performance" (Some args) s)
      with (Raw.update_performance args s).
    pose proof (raw_update_performance_post args s) as Hpost. unfold post in Hpost.
    destruct (Raw.update_performance args s).1; [done | by exists args].
  - destruct args as [args |]; [| done].
    destruct (zvalid Mcp.update_performance_schema args) eqn:Hvalid.
    + rewrite (mcp_call_tool_valid "update_performance" Mcp.update_performance_schema
                 Mcp.update_performance args s eq_refl Hvalid).
      rewrite mcp_update_performance_parsed.
      pose proof (raw_update_performance_post args s) as Hpost. unfold post in Hpost.
      destruct (Raw.update_performance args s).1; [by destruct Hpost | by exists args].
    + rewrite (mcp_rejects_invalid "update_performance" Mcp.update_performance_schema
                 Mcp.update_performance (Some args) s eq_refl)
        by (rewrite zparse_Some; by rewrite Hvalid).
      done.
Qed.

End UpdatePerformance.

(** ** One id, one row *)

Section OneRow.
Context `{Builtins}.

Lemma compare_Z_float_unique z1 z2 f :
  compare_Z_float z1 f = Eq -> compare_Z_float z2 f = Eq -> z1 = z2.
Proof.
  unfold compare_Z_float. destruct (Prim2SF f) as [sg | sg | | sg m e].
  - intros H1 H2. apply Z.compare_eq in H1, H2. congruence.
  - by destruct sg.
  - done.
  - destruct (0 <=? e) eqn:He; intros H1 H2; apply Z.compare_eq in H1, H2.
    + congruence.
    + assert (0 < 2 ^ (- e)) by (apply Z.pow_pos_nonneg; lia). nia.
Qed.

Lemma holds_id_unique z1 z2 v :
  holds OpEq (SInt z1) v = true -> holds OpEq (SInt z2) v = true -> z1 = z2.
Proof.
  unfold holds. destruct v as [| z | f | t]; cbn [is_null negb andb sql_compare]; try done.
  - destruct (z1 ?= z) eqn:H1; try done. destruct (z2 ?= z) eqn:H2; try done.
    apply Z.compare_eq in H1, H2. congruence.
  - destruct (compare_Z_float z1 f) eqn:H1; try done.
    destruct (compare_Z_float z2 f) eqn:H2; try done.
    intros _ _. by apply (compare_Z_float_unique z1 z2 f).
Qed.

(** [WHERE id = ?] selects rows of one id. *)
Lemma id_is_unique p e1 e2 : id_is p e1 = true -> id_is p e2 = true -> emp_id e1 = emp_id e2.
Proof.
  unfold id_is. cbn [where_holds field hd tl]. rewrite !andb_true_r.
  apply holds_id_unique.
Qed.

Lemma StronglySorted_lt_NoDup l : StronglySorted Z.lt l -> NoDup l.
Proof.
  induction 1 as [| x l Hsorted IH Hall]; constructor; [| done].
  intros Hx. rewrite Forall_forall in Hall. apply Hall in Hx. lia.
Qed.

(** No two rows of a table that keeps its constraints match the same id. *)
Lemma one_row_per_id p d i j ei ej :
  table_ok d ->
  employees d !! i = Some ei -> employees d !! j = Some ej ->
  id_is p ei = true -> id_is p ej = true -> i = j.
Proof.
  intros (_ & Hsorted & _) Hi Hj Hpi Hpj.
  apply StronglySorted_lt_NoDup in Hsorted.
  apply (NoDup_lookup _ i j (emp_id ei) Hsorted).
  - by rewrite list_lookup_fmap, Hi.
  - rewrite list_lookup_fmap, Hj. cbn. f_equal. symmetry. by apply (id_is_unique p).
Qed.

Lemma updated_table_one_row args d :
  table_ok d ->
  exists i, forall j, j <> i -> employees (updated_table args d) !! j = employees d !! j.
Proof.
  intros Hok. unfold updated_table. cbn [employees].
  destruct (filter (fun e => id_is (bind (prop args "employee_id")) e = true) (employees d))
    as [| x hit] eqn:Hhit.
  - exists 0%nat. intros j _. rewrite list_lookup_fmap.
    destruct (employees d !! j) as [e |] eqn:Hj; [| done]. cbn [fmap option_fmap option_map].
    rewrite (filter_nil_none _ _ e Hhit); [done |].
    apply list_elem_of_In. by eapply list_elem_of_lookup_2.
  - assert (Hx : x ∈ filter (fun e => id_is (bind (prop args "employee_id")) e = true)
                     (employees d)) by (rewrite Hhit; left).
    apply list_elem_of_filter in Hx as [Hid Hx].
    apply list_elem_of_lookup_1 in Hx as [i Hi].
    exists i. intros j Hj. rewrite list_lookup_fmap.
    destruct (employees d !! j) as [e |] eqn:Hej; [| done]. cbn [fmap option_fmap option_map].
    destruct (id_is (bind (prop args "employee_id")) e) eqn:Hide; [| done].
    destruct Hj. by apply (one_row_per_id (bind (prop args "employee_id")) d j i e x).
Qed.

Lemma raw_call_update_performance_db args s :
  db (Raw.call_tool "update_performance" args s).2 = db s \/
  exists args', db (Raw.call_tool "update_performance" args s).2 = updated_table args' (db s).
Proof.
  destruct args as [args |]; [| by left].
  change (Raw.call_tool "update_performance" (Some args) s)
    with (Raw.update_performance args s).
  pose proof (raw_update_performance_post args s) as Hpost. unfold post in Hpost.
  destruct (Raw.update_performance args s).1; [left; by destruct Hpost | right; by exists args].
Qed.

Lemma mcp_call_update_performance_db args s :
  db (Mcp.call_tool "update_performance" args s).2 = db s \/
  exists args', db (Mcp.call_tool "update_performance" args s).2 = updated_table args' (db s).
Proof.
  destruct args as [args |]; [| by left].
  destruct (zvalid Mcp.update_performance_schema args) eqn:Hvalid.
  - rewrite (mcp_call_tool_valid "update_performance" Mcp.update_performance_schema
               Mcp.update_performance args s eq_refl Hvalid).
    rewrite mcp_update_performance_parsed.
    apply (raw_call_update_performance_db (Some args) s).
  - rewrite (mcp_rejects_invalid "update_performance" Mcp.update_performance_schema
               Mcp.update_performance (Some args) s eq_refl)
      by (rewrite zparse_Some; by rewrite Hvalid).
    by left.
Qed.

(** X5: in a table that keeps the constraints of [CREATE TABLE], an
    update_performance call changes at most one row, on either employee
    server and whatever its arguments: there is a position such that every
    row at another position is after the call what it was before. *)
Theorem update_performance_changes_at_most_one_row
    (args : option (gmap string jsval)) (s : session) :
  table_ok (db s) ->
  (exists i, forall j, j <> i ->
     employees (db (Raw.call_tool "update_performance" args s).2) !! j
     = employees (db s) !! j) /\
  (exists i, forall j, j <> i ->
     employees (db (Mcp.call_tool "update_performance" args s).2) !! j
     = employees (db s) !! j).
Proof.
  intros Hok. split.
  - destruct (raw_call_update_performance_db args s) as [-> | [args' ->]];
      [by exists 0%nat | by apply updated_table_one_row].
  - destruct (mcp_call_update_performance_db args s) as [-> | [args' ->]];
      [by exists 0%nat | by apply updated_table_one_row].
Qed.

End OneRow.

(** The start-up table keeps the constraints, by evaluation. *)
Ltac sample_database_ok :=
  unfold table_ok, sample_database; cbn [employees sqlite_sequence];
  repeat split;
  [ lia
  | repeat constructor
  | repeat constructor; cbn [emp_id sample_row]; lia
  | repeat constructor; intros c Hc; destruct c; first [discriminate Hc | discriminate] ].

(** The theorem at the start-up table and a rise of the bonus of employee 3. *)
Lemma update_performance_changes_at_most_one_row_witness :
  table_ok sample_database /\
  exists i, forall j, j <> i ->
    employees (db (Raw.call_tool (H := Reference.builtins) "update_performance"
                     (Some raise_bonus_of_3) (fresh sample_database)).2) !! j
    = employees sample_database !! j.
Proof.
  assert (Hok : table_ok sample_database) by sample_database_ok.
  split; [exact Hok |].
  exact (proj1 (update_performance_changes_at_most_one_row (H := Reference.builtins)
                  (Some raise_bonus_of_3) (fresh sample_database) Hok)).
Defined.

(** ** How calls fail *)

Section Errors.
Context `{Builtins}.

Lemma ret_throws_only {A} (P : exn -> Prop) (a : A) : throws_only P (mret a).
Proof. intros s. by apply post_ret. Qed.

Lemma throw_throws_only {A} (P : exn -> Prop) e : P e -> throws_only P (throw (A := A) e).
Proof. intros He s. by apply post_throw. Qed.

Lemma reading_throws_only {A} (P : exn -> Prop) st ps (f : list sqlval -> database -> A) :
  throws_only P (execute st ps (reading f)).
Proof. intros s. by apply post_reading. Qed.

Lemma bind_throws_only {A B} (P : exn -> Prop) (m : M A) (f : A -> M B) :
  throws_only P m -> (forall a, throws_only P (f a)) -> throws_only P (m ≫= f).
Proof.
  intros Hm Hf s. apply post_bind. eapply post_mono; [| apply Hm].
  intros [e | a] s' Hr; [done |]. apply Hf.
Qed.

Lemma map_m_throws_only {A B} (P : exn -> Prop) (f : A -> M B) xs :
  (forall x, throws_only P (f x)) -> throws_only P (map_m f xs).
Proof.
  intros Hf. induction xs as [| x xs IH]; cbn [map_m].
  - apply ret_throws_only.
  - apply bind_throws_only; [apply Hf |]. intros y.
    apply bind_throws_only; [apply IH |]. intros ys. apply ret_throws_only.
Qed.

(** What never throws returns. *)
Lemma never_throws_returns {A} (m : M A) s :
  throws_only (fun _ => False) m -> exists a, (m s).1 = inr a.
Proof.
  intros Hm. specialize (Hm s). unfold post in Hm.
  destruct (m s).1 as [e | a]; [done | by exists a].
Qed.

End Errors.

Ltac never_throws :=
  repeat first
    [ apply ret_throws_only
    | apply reading_throws_only
    | apply map_m_throws_only; intros
    | apply bind_throws_only; [| intros]
    | case_match ].

Section ErrorsOfHandlers.
Context `{Builtins}.

Lemma raw_query_employees_never_throws args :
  throws_only (fun _ => False) (Raw.query_employees args).
Proof. unfold Raw.query_employees, all_employees. never_throws. Qed.

Lemma raw_department_stats_never_throws args :
  throws_only (fun _ => False) (Raw.department_stats args).
Proof. unfold Raw.department_stats, get_department_stats, all_stats. never_throws. Qed.

Lemma raw_promotion_candidates_never_throws args :
  throws_only (fun _ => False) (Raw.promotion_candidates args).
Proof. unfold Raw.promotion_candidates, all_employees. never_throws. Qed.

Lemma mcp_promotion_candidates_never_throws args :
  throws_only (fun _ => False) (Mcp.promotion_candidates args).
Proof. unfold Mcp.promotion_candidates, all_employees. never_throws. Qed.

Lemma raw_get_team_hierarchy_never_throws args :
  throws_only (fun _ => False) (Raw.get_team_hierarchy args).
Proof. unfold Raw.get_team_hierarchy, all_employees, get_by_id. never_throws. Qed.

Lemma raw_add_employee_throws args :
  throws_only (fun e => exists se, e = SQLiteError se) (Raw.add_employee args).
Proof.
  intros s. unfold Raw.add_employee. apply post_bind. unfold run_insert. apply post_execute.
  destruct (insert_employee _ (db s)) as [[se | result] d]; cbn [fst snd]; [by exists se |].
  by apply post_ret.
Qed.


Lemma advertised_none name :
  String.eqb name "query_employees" = false ->
  String.eqb name "add_employee" = false ->
  String.eqb name "department_stats" = false ->
  String.eqb name "promotion_candidates" = false ->
  String.eqb name "update_performance" = false ->
  String.eqb name "get_team_hierarchy" = false ->
  advertised name = None.
Proof.
  intros H1 H2 H3 H4 H5 H6. unfold advertised, Raw.list_tools.
  rewrite find_cons. cbn [Raw.name]. rewrite String.eqb_sym, H1.
  rewrite find_cons. cbn [Raw.name]. rewrite String.eqb_sym, H2.
  rewrite find_cons. cbn [Raw.name]. rewrite String.eqb_sym, H3.
  rewrite find_cons. cbn [Raw.name]. rewrite String.eqb_sym, H4.
  rewrite find_cons. cbn [Raw.name]. rewrite String.eqb_sym, H5.
  rewrite find_cons. cbn [Raw.name]. rewrite String.eqb_sym, H6.
  reflexivity.
Qed.

(** How a request with arguments to the low-level server can throw. *)
Lemma raw_call_tool_throws name args s :
  match (Raw.call_tool name (Some args) s).1 with
  | inr _ => True
  | inl e =>
      (advertised name = None /\ e = Error ("不明なツール: " ++ name)) \/
      (name = "add_employee" /\ exists se, e = SQLiteError se) \/
      (name = "update_performance" /\ update_refused args e)
  end.
Proof.
  unfold Raw.call_tool.
  destruct (String.eqb name "query_employees") eqn:H1.
  { destruct (never_throws_returns (Raw.query_employees args) s
                (raw_query_employees_never_throws args)) as [a ->]. done. }
  destruct (String.eqb name "add_employee") eqn:H2.
  { apply String.eqb_eq in H2. pose proof (raw_add_employee_throws args s) as Hpost.
    unfold post in Hpost. destruct (Raw.add_employee args s).1; [| done].
    right. by left. }
  destruct (String.eqb name "department_stats") eqn:H3.
  { destruct (never_throws_returns (Raw.department_stats args) s
                (raw_department_stats_never_throws args)) as [a ->]. done. }
  destruct (String.eqb name "promotion_candidates") eqn:H4.
  { destruct (never_throws_returns (Raw.promotion_candidates args) s
                (raw_promotion_candidates_never_throws args)) as [a ->]. done. }
  destruct (String.eqb name "update_performance") eqn:H5.
  { apply String.eqb_eq in H5. pose proof (raw_update_performance_post args s) as Hpost.
    unfold post in Hpost. destruct (Raw.update_performance args s).1; [| done].
    right. right. by destruct Hpost. }
  destruct (String.eqb name "get_team_hierarchy") eqn:H6.
  { destruct (never_throws_returns (Raw.get_team_hierarchy args) s
                (raw_get_team_hierarchy_never_throws args)) as [a ->]. done. }
  left. split; [by apply advertised_none | done].
Qed.




End ErrorsOfHandlers.


(** ** The tool list, the dispatch and the shapes *)

Section ToolList.
Context `{Builtins}.

Lemma advertised_none_iff name : advertised name = None <-> ~ In name employee_tools.
Proof.
  split.
  - intros Hnone Hin. cbn [In employee_tools] in Hin.
    repeat (destruct Hin as [<- | Hin]; [discriminate Hnone |]). destruct Hin.
  - intros Hnot.
    apply advertised_none; apply (eqb_not_in name employee_tools); (done || (simpl; tauto)).
Qed.

(** How a request to the McpServer can throw. *)
Lemma mcp_call_tool_throws name args s :
  match (Mcp.call_tool name args s).1 with
  | inr _ => True
  | inl e =>
      (advertised name = None /\ e = McpError ("Tool " ++ name ++ " not found")) \/
      (advertised name <> None /\ e = McpError "Invalid arguments") \/
      (exists se, e = SQLiteError se)
  end.
Proof.
  destruct (decide (In name employee_tools)) as [Hin | Hnot].
  - assert (Hsome : advertised name <> None) by (by rewrite advertised_none_iff; intros []).
    unfold Mcp.call_tool. cbn [In employee_tools] in Hin.
    destruct Hin as [<- | [<- | [<- | [<- | [<- | [<- | []]]]]]];
      cbn [find Mcp.tools fst snd String.eqb Ascii.eqb Bool.eqb fmap option_fmap option_map];
      (destruct (zparse _ args) as [parsed |]; [| right; by left]).
    + destruct (never_throws_returns (Raw.query_employees parsed) s
                  (raw_query_employees_never_throws parsed)) as [a Ha].
      rewrite mcp_query_employees_eq, Ha. done.
    + pose proof (raw_add_employee_throws parsed s) as Hpost. unfold post in Hpost.
      rewrite mcp_add_employee_eq. destruct (Raw.add_employee parsed s).1; [| done].
      right. by right.
    + destruct (never_throws_returns (Raw.department_stats parsed) s
                  (raw_department_stats_never_throws parsed)) as [a Ha].
      rewrite mcp_department_stats_eq, Ha. done.
    + destruct (never_throws_returns (Mcp.promotion_candidates parsed) s
                  (mcp_promotion_candidates_never_throws parsed)) as [a Ha].
      rewrite Ha. done.
    + pose proof (raw_update_performance_post parsed s) as Hpost. unfold post in Hpost.
      rewrite mcp_update_performance_eq. destruct (Raw.update_performance parsed s).1; [| done].
      destruct Hpost as (_ & c & k & _ & -> & _). right. right. by eexists.
    + destruct (never_throws_returns (Raw.get_team_hierarchy parsed) s
                  (raw_get_team_hierarchy_never_throws parsed)) as [a Ha].
      rewrite mcp_get_team_hierarchy_eq, Ha. done.
  - rewrite (mcp_unknown_tool name args s Hnot). left.
    split; [by apply advertised_none_iff | done].
Qed.

(** X8: the tool list of the low-level server and the dispatch of both
    employee servers name the same tools.  A request with arguments is
    answered with the unknown-tool error exactly when the tool list does not
    advertise its name: the low-level server throws its error for such a
    name and for no other, and the McpServer reports the tool as not found
    for such a name and for no other. *)
Theorem tool_list_matches_dispatch (name : string) (args : gmap string jsval) (s : session) :
  (advertised name = None <->
   (Raw.call_tool name (Some args) s).1 = inl (Error ("不明なツール: " ++ name))) /\
  (advertised name = None <->
   (Mcp.call_tool name (Some args) s).1 = inl (McpError ("Tool " ++ name ++ " not found"))).
Proof.
  split; split.
  - intros Hnone%advertised_none_iff. by rewrite raw_unknown_tool.
  - intros Hthrown. pose proof (raw_call_tool_throws name args s) as Hwhy.
    rewrite Hthrown in Hwhy.
    destruct Hwhy as [[Hnone _] | [[_ [se Hse]] | [_ (c & k & _ & Hc & _)]]];
      [done | discriminate Hse | discriminate Hc].
  - intros Hnone%advertised_none_iff. by rewrite mcp_unknown_tool.
  - intros Hthrown. pose proof (mcp_call_tool_throws name (Some args) s) as Hwhy.
    rewrite Hthrown in Hwhy.
    destruct Hwhy as [[Hnone _] | [[_ Hinvalid] | [se Hse]]];
      [done | discriminate Hinvalid | discriminate Hse].
Qed.

(** What satisfies a shape satisfies an input schema that requires no more
    and types its properties as the shape does. *)
Lemma zvalid_json_valid shape sc args :
  (forall k, In k (Raw.required sc) ->
             exists fld, In (k, fld) shape /\ is_optional fld = false) ->
  (forall k jt d, In (k, (jt, d)) (Raw.properties sc) ->
                  exists fld, In (k, fld) shape /\ json_type_of (ztype_of fld) = jt) ->
  zvalid shape args = true -> json_valid sc args = true.
Proof.
  intros Hrequired Htyped Hvalid. unfold zvalid in Hvalid. rewrite forallb_forall in Hvalid.
  unfold json_valid. apply andb_true_intro. split; apply forallb_forall.
  - intros k Hk. destruct (Hrequired k Hk) as (fld & Hin & Hopt).
    specialize (Hvalid _ Hin). cbn beta iota in Hvalid.
    destruct (prop args k); [congruence | done ..].
  - intros [k [jt d]] Hk. destruct (Htyped k jt d Hk) as (fld & Hin & <-).
    specialize (Hvalid _ Hin). cbn beta iota in Hvalid. cbn [fst snd].
    destruct (prop args k) as [| | b | f | t]; [done | ..];
      destruct (ztype_of fld); cbn [zcheck json_type_of json_check] in *; try done.
    by apply andb_prop in Hvalid as [[Hnan _]%andb_prop _].
Qed.

Ltac declared :=
  intros;
  repeat match goal with
         | Hk : False |- _ => destruct Hk
         | Hk : In _ _ |- _ => progress cbn [In Raw.required Raw.properties Raw.inputSchema] in Hk
         | Hk : _ \/ _ |- _ => destruct Hk as [Hk | Hk]
         end;
  simplify_eq; (eexists; split; [simpl; auto 10 | reflexivity]).

(** X9: arguments that satisfy the zod shape of a tool on the McpServer
    also satisfy the input schema the low-level server advertises for the
    tool of that name: every field the schema requires is there, and every
    property it declares has, when present, the declared JSON type.  The
    shapes are at least as strict as the advertised schemas. *)
Theorem shapes_refine_the_tool_list (name : string) (args : gmap string jsval) :
  valid_for name args = true ->
  exists sc, advertised name = Some sc /\ json_valid sc args = true.
Proof.
  intros Hvalid.
  destruct (valid_for_cases name args Hvalid)
    as [[-> Hv] | [[-> Hv] | [[-> Hv] | [[-> Hv] | [[-> Hv] | [-> Hv]]]]]];
    (eexists; split; [reflexivity |]);
    (eapply zvalid_json_valid; [| | exact Hv]); cbn [Raw.required Raw.properties];
    declared.
Qed.

End ToolList.

(** The theorem at a promotion_candidates request. *)
Lemma shapes_refine_the_tool_list_witness :
  valid_for (H := Reference.builtins) "promotion_candidates" in_department_D = true /\
  exists sc, advertised "promotion_candidates" = Some sc /\
             json_valid sc in_department_D = true.
Proof.
  split; [reflexivity |].
  exact (shapes_refine_the_tool_list (H := Reference.builtins) "promotion_candidates"
           in_department_D eq_refl).
Defined.

(** ** A manager_id of 0 *)

Section NoManager.
Context `{Builtins}.

Lemma raw_add_employee_manager_0 args :
  Raw.add_employee (<["manager_id" := JNum 0]> args)
  = Raw.add_employee (delete "manager_id" args).
Proof. unfold Raw.add_employee, js_or. props. by rewrite truthy_zero. Qed.

Lemma zvalid_add_employee_manager_0 args :
  zvalid Mcp.add_employee_schema (<["manager_id" := JNum 0]> args)
  = zvalid Mcp.add_employee_schema (delete "manager_id" args).
Proof. unfold zvalid, Mcp.add_employee_schema. cbn [forallb]. by props. Qed.

Lemma raw_add_employee_manager_0_row args s :
  match (Raw.add_employee (<["manager_id" := JNum 0]> args) s).1 with
  | inr _ =>
      exists rows row,
        employees (db (Raw.add_employee (<["manager_id" := JNum 0]> args) s).2)
        = (rows ++ [row])%list /\
        emp_manager_id row = SNull
  | inl _ => True
  end.
Proof.
  unfold Raw.add_employee, run_insert, execute, mbind, M_bind, insert_employee, js_or.
  props. rewrite truthy_zero.
  destruct (null_violation inserted_columns _); [done |].
  destruct (2 ^ 63 <=? next_rowid (db s)); [done |].
  cbn [fst snd mret M_ret db employees]. by eexists _, _.
Qed.

(** X10: add_employee takes a manager_id of 0 for no manager.  On both
    employee servers the call with manager_id 0 has the outcome, the
    statements and the table of the call without manager_id, and when it
    returns, the row it appended has manager_id NULL: the new employee
    counts as a top manager and reports to nobody.  The other arguments are
    any JSON scalars. *)
Theorem manager_id_0_is_no_manager (args : gmap string jsval) (s : session) :
  Raw.call_tool "add_employee" (Some (<["manager_id" := JNum 0]> args)) s
  = Raw.call_tool "add_employee" (Some (delete "manager_id" args)) s /\
  Mcp.call_tool "add_employee" (Some (<["manager_id" := JNum 0]> args)) s
  = Mcp.call_tool "add_employee" (Some (delete "manager_id" args)) s /\
  match (Raw.call_tool "add_employee" (Some (<["manager_id" := JNum 0]> args)) s).1 with
  | inr _ =>
      exists rows row,
        employees (db (Raw.call_tool "add_employee"
                         (Some (<["manager_id" := JNum 0]> args)) s).2)
        = (rows ++ [row])%list /\
        emp_manager_id row = SNull
  | inl _ => True
  end /\
  match (Mcp.call_tool "add_employee" (Some (<["manager_id" := JNum 0]> args)) s).1 with
  | inr _ =>
      exists rows row,
        employees (db (Mcp.call_tool "add_employee"
                         (Some (<["manager_id" := JNum 0]> args)) s).2)
        = (rows ++ [row])%list /\
        emp_manager_id row = SNull
  | inl _ => True
  end.
Proof.
  split; [| split; [| split]].
  - apply (f_equal (fun h => h s)), raw_add_employee_manager_0.
  - apply (mcp_call_tool_congr _ Mcp.add_employee_schema Mcp.add_employee);
      [reflexivity | apply zvalid_add_employee_manager_0 |].
    rewrite !mcp_add_employee_parsed. by rewrite raw_add_employee_manager_0.
  - apply raw_add_employee_manager_0_row.
  - destruct (zvalid Mcp.add_employee_schema (<["manager_id" := JNum 0]> args)) eqn:Hvalid.
    + rewrite (mcp_call_tool_valid "add_employee" Mcp.add_employee_schema Mcp.add_employee
                 (<["manager_id" := JNum 0]> args) s eq_refl Hvalid),
        mcp_add_employee_parsed.
      apply raw_add_employee_manager_0_row.
    + rewrite (mcp_rejects_invalid "add_employee" Mcp.add_employee_schema Mcp.add_employee
                 (Some (<["manager_id" := JNum 0]> args)) s eq_refl)
        by (rewrite zparse_Some; by rewrite Hvalid).
      done.
Qed.

End NoManager.

(** ** What query_employees lists *)

Section Query.
Context `{Builtins}.

Lemma insert_sorted_perm {A} (le : A -> A -> bool) x l : insert_sorted le x l ≡ₚ x :: l.
Proof.
  induction l as [| y l IH]; cbn [insert_sorted]; [done |].
  destruct (le x y); [done |]. rewrite IH. apply Permutation_swap.
Qed.

(** Sorting keeps the rows and how often each occurs. *)
Lemma sort_by_perm {A} (le : A -> A -> bool) l : sort_by le l ≡ₚ l.
Proof.
  unfold sort_by. induction l as [| x l IH]; cbn [foldr]; [done |].
  by rewrite insert_sorted_perm, IH.
Qed.

(** The handlers print a row as the card writes it out. *)
Lemma employee_card_card e : employee_card e = card e.
Proof. reflexivity. Qed.

Lemma listing_length listed :
  listing listed
  = length_to_string listed ++ "人の社員が検索されました:" ++ nl ++ nl ++
    join nl (employee_card <$> listed).
Proof. unfold listing, listing_of, count_text. by rewrite length_fmap. Qed.

(** The placeholders of the WHERE clause receive the arguments of their
    columns. *)
Lemma raw_query_employees_passes args s :
  exists listed,
    (Raw.query_employees args s).1 = inr (text_result (listing listed)) /\
    listed ≡ₚ filter (fun e => passes args e = true) (employees (db s)).
Proof.
  unfold Raw.query_employees, all_employees, execute, reading, mbind, M_bind, mret, M_ret.
  unfold select_employees.
  destruct (truthy (prop args "department")) eqn:Hd, (truthy (prop args "level")) eqn:Hl,
           (truthy (prop args "min_performance")) eqn:Hm;
    eexists; (split; [by rewrite listing_length |]); rewrite sort_by_perm;
    (erewrite (filter_agree _ (passes args)); [reflexivity |]); intros e _;
    unfold passes, department_filter, level_filter, score_filter; rewrite Hd, Hl, Hm;
    cbn [app fmap list_fmap where_holds hd tl field];
    repeat match goal with
           | |- context [holds ?op ?a ?b] => destruct (holds op a b)
           end; reflexivity.
Qed.

(** X11: query_employees lists exactly the rows of the table that pass the
    filters of the call, each as often as it is in the table, and no other
    row: the answer is their number, an empty line and one card of eight
    lines per row.  A filter counts when its argument is truthy, and each
    argument is compared with the column of its own name, whichever of the
    three filters are given.  On the McpServer this holds of every call
    that returns. *)
Theorem query_employees_lists_the_matching_rows (args : gmap string jsval) (s : session) :
  (exists listed,
     (Raw.call_tool "query_employees" (Some args) s).1
     = inr {| content := [[("type", JStr "text"); ("text", JStr (listing listed))]] |} /\
     listed ≡ₚ filter (fun e => passes args e = true) (employees (db s))) /\
  match (Mcp.call_tool "query_employees" (Some args) s).1 with
  | inr result =>
      exists listed,
        result = {| content := [[("type", JStr "text"); ("text", JStr (listing listed))]] |} /\
        listed ≡ₚ filter (fun e => passes args e = true) (employees (db s))
  | inl _ => True
  end.
Proof.
  split; [apply raw_query_employees_passes |].
  destruct (zvalid Mcp.query_employees_schema args) eqn:Hvalid.
  - rewrite (mcp_call_tool_valid "query_employees" Mcp.query_employees_schema
               Mcp.query_employees args s eq_refl Hvalid), mcp_query_employees_parsed.
    destruct (raw_query_employees_passes args s) as (listed & -> & Hlisted).
    by exists listed.
  - rewrite (mcp_rejects_invalid "query_employees" Mcp.query_employees_schema
               Mcp.query_employees (Some args) s eq_refl)
      by (rewrite zparse_Some; by rewrite Hvalid).
    done.
Qed.

End Query.

(** ** The statistics of one department *)

Section DepartmentStats.
Context `{Builtins}.

Lemma holds_text_eq a d : holds OpEq a (SText d) = true <-> a = SText d.
Proof.
  unfold holds. destruct a as [| z | f | t]; cbn [is_null negb andb sql_compare];
    [done | done | done |].
  destruct (String.compare t d) eqn:Hcmp.
  - apply String.compare_eq_iff in Hcmp as ->. done.
  - split; [done |]. intros [= ->]. by rewrite String_compare_refl in Hcmp.
  - split; [done |]. intros [= ->]. by rewrite String_compare_refl in Hcmp.
Qed.

(** [WHERE department = ?] with a string selects the rows of that
    department. *)
Lemma where_department d e :
  where_holds [CParam Department OpEq] [SText d] e = in_department d e.
Proof.
  cbn [where_holds hd field against_column column_affinity sql_text]. rewrite andb_true_r.
  unfold in_department.
  destruct (holds OpEq (emp_department e) (SText d)) eqn:Hholds.
  - apply holds_text_eq in Hholds as ->. symmetry. apply String.eqb_refl.
  - destruct (emp_department e) as [| z | f | t]; try done.
    destruct (String.eqb t d) eqn:Heq; [| done].
    apply String.eqb_eq in Heq as ->. by rewrite holds_same_text in Hholds.
Qed.










End DepartmentStats.


(** Without a department the groups come by descending average, and two
    departments with the same average in descending order of name: on the
    start-up table both average 3.925. *)
Example department_stats_of_all_departments :
  (Raw.call_tool (H := Reference.builtins) "department_stats" (Some ∅)
     (fresh sample_database)).1
  = inr (text_result
           ("各部署統計:" ++ lf ++ lf ++
            "【技術部】" ++ lf ++
            "人数: 8人 | 平均パフォーマンス: 3.92 | 平均ボーナス: ¥26625" ++ lf ++ lf ++
            "【プロダクト部】" ++ lf ++
            "人数: 4人 | 平均パフォーマンス: 3.92 | 平均ボーナス: ¥35000")).
Proof. vm_compute. reflexivity. Qed.

(** ** Repeating an update *)

Section Idempotence.
Context `{Builtins}.

Lemma id_is_updated_row p args e : id_is p (updated_row args e) = id_is p e.
Proof. reflexivity. Qed.

Lemma updated_row_idem args e : updated_row args (updated_row args e) = updated_row args e.
Proof.
  unfold updated_row. cbn [emp_id emp_name emp_department emp_level emp_performance_score
                           emp_quarterly_rating emp_bonus emp_hire_date emp_manager_id].
  by destruct (is_undefined (prop args "performance_score")),
              (truthy (prop args "quarterly_rating")),
              (is_undefined (prop args "bonus")).
Qed.

Lemma updated_table_idem args d : updated_table args (updated_table args d) = updated_table args d.
Proof.
  unfold updated_table. cbn [employees sqlite_sequence]. f_equal.
  rewrite <- list_fmap_compose. apply list_fmap_ext. intros i e _. unfold compose.
  destruct (id_is (bind (prop args "employee_id")) e) eqn:Hid.
  - by rewrite id_is_updated_row, Hid, updated_row_idem.
  - by rewrite Hid.
Qed.

(** The rows an id selects in the updated table are the updated rows it
    selected before. *)
Lemma filter_updated_table args d :
  filter (fun e => id_is (bind (prop args "employee_id")) e = true)
    (employees (updated_table args d))
  = updated_row args
    <$> filter (fun e => id_is (bind (prop args "employee_id")) e = true) (employees d).
Proof.
  unfold updated_table. cbn [employees].
  induction (employees d) as [| e l IH]; [done |].
  rewrite fmap_cons, !filter_cons.
  destruct (id_is (bind (prop args "employee_id")) e) eqn:Hid.
  - rewrite id_is_updated_row, Hid. repeat case_decide; try done.
    by rewrite fmap_cons, IH.
  - rewrite Hid. by repeat case_decide.
Qed.

(** update_performance, statement by statement. *)
Lemma raw_update_performance_run args s :
  Raw.update_performance args s
  = if (length (assignments args) =? 0)%nat then
      (inr (text_result "更新するフィールドが指定されていません"), s)
    else
      let p := bind (prop args "employee_id") in
      let ps := bind <$> ((snd <$> assignments args) ++ [prop args "employee_id"])%list in
      let update := (UpdateEmployees (fst <$> assignments args), ps) in
      match filter (fun e => id_is p e = true) (employees (db s)),
            null_violation (fst <$> assignments args)
              (take (length (fst <$> assignments args)) ps) with
      | _ :: _, Some c =>
          (inl (SQLiteError (ConstraintNotNull c)),
           {| db := db s; executed := (executed s ++ [update])%list |})
      | [], _ =>
          (inr (text_result
                  ("ID " ++ to_string (prop args "employee_id") ++ " の社員が見つかりません")),
           {| db := updated_table args (db s); executed := (executed s ++ [update])%list |})
      | _ :: _, None =>
          (match head (select_employees [CParam Id OpEq] [] [p] (updated_table args (db s))) with
           | Some employee =>
               inr (text_result
                      ("社員 " ++ show Name employee ++
                       " のパフォーマンス情報を正常に更新しました"))
           | None => inl TypeError
           end,
           {| db := updated_table args (db s);
              executed := ((executed s ++ [update]) ++ [(SelectById [Name], [p])])%list |})
      end.
Proof.
  rewrite raw_update_performance_unfold.
  destruct (length (assignments args) =? 0)%nat; [done |].
  assert (Hdb : {| employees :=
                     (fun e => if id_is (bind (prop args "employee_id")) e
                               then assign (fst <$> assignments args)
                                      (bind <$> ((snd <$> assignments args)
                                                 ++ [prop args "employee_id"])%list) e
                               else e) <$> employees (db s);
                   sqlite_sequence := sqlite_sequence (db s) |}
                = updated_table args (db s)).
  { unfold updated_table. f_equal. apply list_fmap_ext. intros i e He.
    by rewrite assign_assignments. }
  unfold run_update, get_by_id, execute, reading, mbind, M_bind, update_employees.
  rewrite id_param, Hdb. cbv zeta.
  destruct (filter _ (employees (db s))) as [| x hit].
  - reflexivity.
  - destruct (null_violation _ _); [done |].
    cbn [fst snd changes length db executed fmap list_fmap].
    destruct (Z.of_nat (S (length hit)) =? 0) eqn:Hzero; [apply Z.eqb_eq in Hzero; lia |].
    by destruct (head _).
Qed.

Lemma raw_update_performance_again args s :
  match (Raw.update_performance args s).1 with
  | inr result =>
      (Raw.update_performance args (Raw.update_performance args s).2).1 = inr result /\
      db (Raw.update_performance args (Raw.update_performance args s).2).2
      = db (Raw.update_performance args s).2
  | inl _ => True
  end.
Proof.
  rewrite (raw_update_performance_run args (Raw.update_performance args s).2).
  rewrite (raw_update_performance_run args s).
  destruct (length (assignments args) =? 0)%nat; [done |]. cbv zeta.
  destruct (filter _ (employees (db s))) as [| x hit] eqn:Hhit.
  - cbn [fst snd db]. by rewrite filter_updated_table, Hhit, updated_table_idem.
  - destruct (null_violation _ _) eqn:Hnull; [done |]. cbn [fst snd db].
    rewrite filter_updated_table, Hhit, updated_table_idem, fmap_cons.
    cbn [fst snd db]. by destruct (head _).
Qed.

(** X13: update_performance can be repeated.  When a call returns, the same
    call made again on the session it left returns the same result and
    leaves the table as the first call left it; this holds on both employee
    servers, whether or not the id matched a row. *)
Theorem update_performance_is_idempotent (args : gmap string jsval) (s : session) :
  match (Raw.call_tool "update_performance" (Some args) s).1 with
  | inr result =>
      (Raw.call_tool "update_performance" (Some args)
         (Raw.call_tool "update_performance" (Some args) s).2).1 = inr result /\
      db (Raw.call_tool "update_performance" (Some args)
            (Raw.call_tool "update_performance" (Some args) s).2).2
      = db (Raw.call_tool "update_performance" (Some args) s).2
  | inl _ => True
  end /\
  match (Mcp.call_tool "update_performance" (Some args) s).1 with
  | inr result =>
      (Mcp.call_tool "update_performance" (Some args)
         (Mcp.call_tool "update_performance" (Some args) s).2).1 = inr result /\
      db (Mcp.call_tool "update_performance" (Some args)
            (Mcp.call_tool "update_performance" (Some args) s).2).2
      = db (Mcp.call_tool "update_performance" (Some args) s).2
  | inl _ => True
  end.
Proof.
  split; [apply raw_update_performance_again |].
  destruct (zvalid Mcp.update_performance_schema args) eqn:Hvalid.
  - rewrite !(fun s => mcp_call_tool_valid "update_performance" Mcp.update_performance_schema
                         Mcp.update_performance args s eq_refl Hvalid).
    rewrite !mcp_update_performance_parsed. apply raw_update_performance_again.
  - rewrite (mcp_rejects_invalid "update_performance" Mcp.update_performance_schema
               Mcp.update_performance (Some args) s eq_refl)
      by (rewrite zparse_Some; by rewrite Hvalid).
    done.
Qed.

End Idempotence.

(** ** The team of one manager *)

Section Team.
Context `{Builtins}.

(** Without ORDER BY the rows come in the order of the table. *)
Lemma sort_by_unordered {A} (le : A -> A -> bool) l :
  (forall a b, le a b = true) -> sort_by le l = l.
Proof.
  intros Hle. unfold sort_by. induction l as [| x l IH]; cbn [foldr]; [done |].
  rewrite IH. destruct l as [| y l]; cbn [insert_sorted]; [done |]. by rewrite Hle.
Qed.

(** The handlers print a member of a team as the line writes it out. *)
Lemma team_line_member_line e : team_line e = member_line e.
Proof. reflexivity. Qed.

Lemma team_report_lines manager team :
  team_report manager team
  = show Name manager ++ " (" ++ show Level manager ++ ") のチーム (" ++
    length_to_string team ++ "人):" ++ nl ++ nl ++ join nl (team_line <$> team).
Proof. reflexivity. Qed.

(** [WHERE manager_id = ?] selects the rows that report to the manager. *)
Lemma team_perm p keys d :
  select_employees [CParam Manager_id OpEq] keys [p] d
  ≡ₚ filter (fun e => reports_to p e = true) (employees d).
Proof.
  unfold select_employees. rewrite sort_by_perm.
  rewrite (filter_agree _ (reports_to p)); [done |].
  intros e _. unfold reports_to. cbn [where_holds hd field]. apply andb_true_r.
Qed.

Lemma raw_get_team_hierarchy_of_a_manager args s :
  truthy (prop args "manager_id") = true ->
  exists team,
    team ≡ₚ filter (fun e => reports_to (bind (prop args "manager_id")) e = true)
              (employees (db s)) /\
    (Raw.get_team_hierarchy args s).1
    = inr (text_result
             (match filter (fun e => id_is (bind (prop args "manager_id")) e = true)
                      (employees (db s)) with
              | [] => "ID " ++ to_string (prop args "manager_id") ++
                      " のマネージャーが見つかりません"
              | manager :: _ => team_report manager team
              end)).
Proof.
  intros Hgiven.
  exists (select_employees [CParam Manager_id OpEq] [(Level, true); (Performance_score, true)]
            [bind (prop args "manager_id")] (db s)).
  split; [apply team_perm |].
  unfold Raw.get_team_hierarchy. rewrite Hgiven.
  unfold all_employees, get_by_id, execute, reading, mbind, M_bind.
  cbn [fmap list_fmap fst snd db].
  unfold select_employees.
  rewrite (sort_by_unordered (order_le [])) by reflexivity. unfold id_is.
  destruct (filter _ (employees (db s))) as [| manager rest]; [done |].
  by rewrite team_report_lines.
Qed.

(** X14: get_team_hierarchy with a truthy manager_id answers for the first
    row of the table whose id equals manager_id: when no row has that id it
    answers that the manager was not found, whether or not rows name that id
    as their manager; otherwise its header gives that row's name and level
    and the size of the team, and the team lists, one line each, exactly
    the rows whose manager_id equals the given id, each once per
    occurrence.  On the McpServer this holds of every call that returns. *)
Theorem get_team_hierarchy_of_a_manager (args : gmap string jsval) (s : session) :
  truthy (prop args "manager_id") = true ->
  let answer team :=
    {| content :=
         [[("type", JStr "text");
           ("text",
            JStr (match filter (fun e => id_is (bind (prop args "manager_id")) e = true)
                          (employees (db s)) with
                  | [] => "ID " ++ to_string (prop args "manager_id") ++
                          " のマネージャーが見つかりません"
                  | manager :: _ => team_report manager team
                  end))]] |} in
  (exists team,
     team ≡ₚ filter (fun e => reports_to (bind (prop args "manager_id")) e = true)
               (employees (db s)) /\
     (Raw.call_tool "get_team_hierarchy" (Some args) s).1 = inr (answer team)) /\
  match (Mcp.call_tool "get_team_hierarchy" (Some args) s).1 with
  | inr result =>
      exists team,
        team ≡ₚ filter (fun e => reports_to (bind (prop args "manager_id")) e = true)
                  (employees (db s)) /\
        result = answer team
  | inl _ => True
  end.
Proof.
  intros Hgiven answer. split; [by apply raw_get_team_hierarchy_of_a_manager |].
  destruct (zvalid Mcp.get_team_hierarchy_schema args) eqn:Hvalid.
  - rewrite (mcp_call_tool_valid "get_team_hierarchy" Mcp.get_team_hierarchy_schema
               Mcp.get_team_hierarchy args s eq_refl Hvalid), mcp_get_team_hierarchy_parsed.
    destruct (raw_get_team_hierarchy_of_a_manager args s Hgiven) as (team & Hteam & ->).
    by exists team.
  - rewrite (mcp_rejects_invalid "get_team_hierarchy" Mcp.get_team_hierarchy_schema
               Mcp.get_team_hierarchy (Some args) s eq_refl)
      by (rewrite zparse_Some; by rewrite Hvalid).
    done.
Qed.

End Team.

(** The theorem at the start-up table and the team of employee 3. *)
Lemma get_team_hierarchy_of_a_manager_witness :
  truthy (prop team_of_3 "manager_id") = true /\
  exists team,
    team ≡ₚ filter (fun e => reports_to (H := Reference.builtins)
                               (bind (prop team_of_3 "manager_id")) e = true)
              (employees sample_database) /\
    (Raw.call_tool (H := Reference.builtins) "get_team_hierarchy" (Some team_of_3)
       (fresh sample_database)).1
    = inr (text_result
             ("佐藤主任 (M1) のチーム (" ++ count_text (H := Reference.builtins) (length team) ++
              "人):" ++ lf ++ lf ++
              String.concat lf (member_line (H := Reference.builtins) <$> team))).
Proof.
  assert (Hgiven : truthy (prop team_of_3 "manager_id") = true) by (vm_compute; reflexivity).
  split; [exact Hgiven |].
  destruct (proj1 (get_team_hierarchy_of_a_manager (H := Reference.builtins) team_of_3
                     (fresh sample_database) Hgiven)) as (team & Hteam & Hanswer).
  exists team. split; [exact Hteam |]. exact Hanswer.
Defined.

(** The answer itself at that request. *)
Example team_of_employee_3 :
  (Raw.call_tool (H := Reference.builtins) "get_team_hierarchy" (Some team_of_3)
     (fresh sample_database)).1
  = inr (text_result
           ("佐藤主任 (M1) のチーム (3人):" ++ lf ++ lf ++
            "  ├─ 鈴木エンジニア | P7 | パフォーマンス: 4.2" ++ lf ++
            "  ├─ 渡辺エンジニア | P6 | パフォーマンス: 4" ++ lf ++
            "  ├─ 高橋エンジニア | P6 | パフォーマンス: 3.8")).
Proof. vm_compute. reflexivity. Qed.

(** * What the ignored and the rejected arguments lead to *)

(** ** Falsy filters: what is listed *)

Section FalsyListing.
Context `{Builtins}.

Lemma passes_min_performance_0 args e :
  passes (<["min_performance" := JNum 0]> args) e
  = department_filter args e && level_filter args e.
Proof.
  unfold passes, department_filter, level_filter, score_filter. props.
  rewrite truthy_zero. apply andb_true_r.
Qed.

Lemma passes_department_empty args e :
  passes (<["department" := JStr ""]> args) e = level_filter args e && score_filter args e.
Proof.
  unfold passes, department_filter, level_filter, score_filter. props.
  by rewrite truthy_empty.
Qed.

Lemma passes_level_empty args e :
  passes (<["level" := JStr ""]> args) e = department_filter args e && score_filter args e.
Proof.
  unfold passes, department_filter, level_filter, score_filter. props.
  rewrite truthy_empty. by rewrite andb_true_r.
Qed.

Lemma raw_query_employees_lists args (f : employee -> bool) s :
  (forall e, passes args e = f e) ->
  lists (Raw.call_tool "query_employees" (Some args) s).1
    (filter (fun e => f e = true) (employees (db s))).
Proof.
  intros Hf. destruct (raw_query_employees_passes args s) as (listed & Hout & Hperm).
  exists listed. split; [exact Hout |].
  rewrite Hperm. by rewrite (filter_agree _ f) by (intros e _; apply Hf).
Qed.

Lemma mcp_query_employees_lists args (f : employee -> bool) s :
  (forall e, passes args e = f e) ->
  if_returned (Mcp.call_tool "query_employees" (Some args) s).1
    (lists (Mcp.call_tool "query_employees" (Some args) s).1
       (filter (fun e => f e = true) (employees (db s)))).
Proof.
  intros Hf. destruct (zvalid Mcp.query_employees_schema args) eqn:Hvalid.
  - rewrite (mcp_call_tool_valid "query_employees" Mcp.query_employees_schema
               Mcp.query_employees args s eq_refl Hvalid), mcp_query_employees_parsed.
    pose proof (raw_query_employees_lists args f s Hf) as Hlists.
    change (Raw.call_tool "query_employees" (Some args) s)
      with (Raw.query_employees args s) in Hlists.
    by destruct (Raw.query_employees args s).1.
  - rewrite (mcp_rejects_invalid "query_employees" Mcp.query_employees_schema
               Mcp.query_employees (Some args) s eq_refl)
      by (rewrite zparse_Some; by rewrite Hvalid).
    done.
Qed.

(** A [map] whose function runs one reading statement leaves the table
    alone and returns what the function returns on that table. *)
Lemma map_m_reading {A B C} st (ps : A -> list jsval) (g : A -> list sqlval -> database -> C)
    (h : A -> C -> B) xs s :
  post (map_m (fun x => execute st (ps x) (reading (g x)) ≫= fun t => mret (h x t)) xs) s
       (fun r s' =>
          r = inr ((fun x => h x (g x (bind <$> ps x) (db s))) <$> xs) /\ db s' = db s).
Proof.
  revert s. induction xs as [| x xs IH]; intros s; simpl.
  - by apply post_ret.
  - repeat first [step | progress simpl].
    eapply post_mono; [| apply IH].
    intros r s' [-> Hdb]. simpl. by step.
Qed.

(** Without a truthy manager_id, get_team_hierarchy shows every row
    without a manager with its team. *)
Lemma raw_get_team_hierarchy_top_managers args s :
  truthy (prop args "manager_id") = false ->
  shows_top_managers (Raw.get_team_hierarchy args s).1 (db s).
Proof.
  intros Hnone.
  exists ((fun manager =>
             (manager,
              select_employees [CParam Manager_id OpEq]
                [(Level, true); (Performance_score, true)]
                (bind <$> [js_of_sql (field Id manager)]) (db s)))
          <$> select_employees [CIsNull Manager_id] [(Level, true)] [] (db s)).
  split; [| split].
  - change (post (Raw.get_team_hierarchy args) s
              (fun r _ =>
                 r = inr {| content :=
                              [[("type", JStr "text");
                                ("text",
                                 JStr (hierarchy
                                         ((fun manager =>
                                             (manager,
                                              select_employees [CParam Manager_id OpEq]
                                                [(Level, true); (Performance_score, true)]
                                                (bind <$> [js_of_sql (field Id manager)])
                                                (db s)))
                                          <$> select_employees [CIsNull Manager_id]
                                                [(Level, true)] [] (db s))))]] |})).
    unfold Raw.get_team_hierarchy. rewrite Hnone. unfold all_employees.
    apply post_bind, post_reading. cbn [fmap list_fmap]. apply post_bind.
    eapply post_mono; [| apply map_m_reading].
    intros r s' [-> Hdb]. cbn [db]. apply post_ret.
    unfold hierarchy. rewrite <- list_fmap_compose. reflexivity.
  - rewrite <- list_fmap_compose. unfold compose. cbn [fst]. rewrite list_fmap_id.
    unfold select_employees. rewrite sort_by_perm.
    rewrite (filter_agree _ (fun e => is_null (emp_manager_id e))); [done |].
    intros e _. cbn [where_holds field]. apply andb_true_r.
  - apply Forall_fmap, Forall_forall. intros manager _. cbn [fst snd fmap list_fmap].
    apply team_perm.
Qed.

Lemma mcp_get_team_hierarchy_top_managers args s :
  truthy (prop args "manager_id") = false ->
  if_returned (Mcp.call_tool "get_team_hierarchy" (Some args) s).1
    (shows_top_managers (Mcp.call_tool "get_team_hierarchy" (Some args) s).1 (db s)).
Proof.
  intros Hnone. destruct (zvalid Mcp.get_team_hierarchy_schema args) eqn:Hvalid.
  - rewrite (mcp_call_tool_valid "get_team_hierarchy" Mcp.get_team_hierarchy_schema
               Mcp.get_team_hierarchy args s eq_refl Hvalid), mcp_get_team_hierarchy_parsed.
    pose proof (raw_get_team_hierarchy_top_managers args s Hnone) as Hshows.
    by destruct (Raw.get_team_hierarchy args s).1.
  - rewrite (mcp_rejects_invalid "get_team_hierarchy" Mcp.get_team_hierarchy_schema
               Mcp.get_team_hierarchy (Some args) s eq_refl)
      by (rewrite zparse_Some; by rewrite Hvalid).
    done.
Qed.

(** C9: on both employee servers a query_employees call with
    min_performance = 0, with department = "" or with level = "" gives the
    same outcome, statements and table as the call that leaves the argument
    out, and no filter is applied for it: the answer lists exactly the rows
    that pass the two other filters, so that with min_performance = 0 the
    employees whose performance_score is below 0 are listed as well.  A
    get_team_hierarchy call with manager_id = 0 likewise equals the call
    without manager_id: it does not look manager 0 up, and it shows every
    row without a manager with the rows that report to it. *)
Theorem falsy_filters_are_ignored (args : gmap string jsval) (s : session) :
  (Raw.call_tool "query_employees" (Some (<["min_performance" := JNum 0]> args)) s
   = Raw.call_tool "query_employees" (Some (delete "min_performance" args)) s /\
   Raw.call_tool "query_employees" (Some (<["department" := JStr ""]> args)) s
   = Raw.call_tool "query_employees" (Some (delete "department" args)) s /\
   Raw.call_tool "query_employees" (Some (<["level" := JStr ""]> args)) s
   = Raw.call_tool "query_employees" (Some (delete "level" args)) s /\
   Raw.call_tool "get_team_hierarchy" (Some (<["manager_id" := JNum 0]> args)) s
   = Raw.call_tool "get_team_hierarchy" (Some (delete "manager_id" args)) s) /\
  (Mcp.call_tool "query_employees" (Some (<["min_performance" := JNum 0]> args)) s
   = Mcp.call_tool "query_employees" (Some (delete "min_performance" args)) s /\
   Mcp.call_tool "query_employees" (Some (<["department" := JStr ""]> args)) s
   = Mcp.call_tool "query_employees" (Some (delete "department" args)) s /\
   Mcp.call_tool "query_employees" (Some (<["level" := JStr ""]> args)) s
   = Mcp.call_tool "query_employees" (Some (delete "level" args)) s /\
   Mcp.call_tool "get_team_hierarchy" (Some (<["manager_id" := JNum 0]> args)) s
   = Mcp.call_tool "get_team_hierarchy" (Some (delete "manager_id" args)) s) /\
  (exists cs ps,
      executed (Raw.query_employees (<["min_performance" := JNum 0]> args) s).2
      = (executed s ++ [(SelectEmployees cs [(Performance_score, true)], ps)])%list /\
      ~ In (CParam Performance_score OpGe) cs) /\
  (exists rest,
      executed (Raw.get_team_hierarchy (<["manager_id" := JNum 0]> args) s).2
      = (executed s ++ (SelectEmployees [CIsNull Manager_id] [(Level, true)], []) :: rest)%list) /\
  (lists (Raw.call_tool "query_employees" (Some (<["min_performance" := JNum 0]> args)) s).1
     (filter (fun e => department_filter args e && level_filter args e = true)
        (employees (db s))) /\
   lists (Raw.call_tool "query_employees" (Some (<["department" := JStr ""]> args)) s).1
     (filter (fun e => level_filter args e && score_filter args e = true)
        (employees (db s))) /\
   lists (Raw.call_tool "query_employees" (Some (<["level" := JStr ""]> args)) s).1
     (filter (fun e => department_filter args e && score_filter args e = true)
        (employees (db s))) /\
   shows_top_managers
     (Raw.call_tool "get_team_hierarchy" (Some (<["manager_id" := JNum 0]> args)) s).1
     (db s)) /\
  (if_returned
     (Mcp.call_tool "query_employees" (Some (<["min_performance" := JNum 0]> args)) s).1
     (lists
        (Mcp.call_tool "query_employees" (Some (<["min_performance" := JNum 0]> args)) s).1
        (filter (fun e => department_filter args e && level_filter args e = true)
           (employees (db s)))) /\
   if_returned
     (Mcp.call_tool "query_employees" (Some (<["department" := JStr ""]> args)) s).1
     (lists (Mcp.call_tool "query_employees" (Some (<["department" := JStr ""]> args)) s).1
        (filter (fun e => level_filter args e && score_filter args e = true)
           (employees (db s)))) /\
   if_returned
     (Mcp.call_tool "query_employees" (Some (<["level" := JStr ""]> args)) s).1
     (lists (Mcp.call_tool "query_employees" (Some (<["level" := JStr ""]> args)) s).1
        (filter (fun e => department_filter args e && score_filter args e = true)
           (employees (db s)))) /\
   if_returned
     (Mcp.call_tool "get_team_hierarchy" (Some (<["manager_id" := JNum 0]> args)) s).1
     (shows_top_managers
        (Mcp.call_tool "get_team_hierarchy" (Some (<["manager_id" := JNum 0]> args)) s).1
        (db s))).
Proof.
  assert (Hmanager : truthy (prop (<["manager_id" := JNum 0]> args) "manager_id") = false)
    by (props; apply truthy_zero).
  split; [| split; [| split; [| split; [| split]]]].
  - repeat split.
    + apply (f_equal (fun h => h s)), raw_query_employees_min_performance_0.
    + apply (f_equal (fun h => h s)), raw_query_employees_department_empty.
    + apply (f_equal (fun h => h s)), raw_query_employees_level_empty.
    + apply (f_equal (fun h => h s)), raw_get_team_hierarchy_manager_0.
  - repeat split.
    + apply (mcp_call_tool_congr _ Mcp.query_employees_schema Mcp.query_employees);
        [reflexivity | apply zvalid_query_employees_min_performance_0 |].
      rewrite !mcp_query_employees_parsed.
      by rewrite raw_query_employees_min_performance_0.
    + apply (mcp_call_tool_congr _ Mcp.query_employees_schema Mcp.query_employees);
        [reflexivity | apply zvalid_query_employees_department_empty |].
      rewrite !mcp_query_employees_parsed.
      by rewrite raw_query_employees_department_empty.
    + apply (mcp_call_tool_congr _ Mcp.query_employees_schema Mcp.query_employees);
        [reflexivity | apply zvalid_query_employees_level_empty |].
      rewrite !mcp_query_employees_parsed.
      by rewrite raw_query_employees_level_empty.
    + apply (mcp_call_tool_congr _ Mcp.get_team_hierarchy_schema Mcp.get_team_hierarchy);
        [reflexivity | apply zvalid_get_team_hierarchy_manager_0 |].
      rewrite !mcp_get_team_hierarchy_parsed.
      by rewrite raw_get_team_hierarchy_manager_0.
  - apply raw_query_employees_min_performance_0_unfiltered.
  - apply raw_get_team_hierarchy_manager_0_branch.
  - split; [| split; [| split]].
    + apply raw_query_employees_lists, passes_min_performance_0.
    + apply raw_query_employees_lists, passes_department_empty.
    + apply raw_query_employees_lists, passes_level_empty.
    + by apply raw_get_team_hierarchy_top_managers.
  - split; [| split; [| split]].
    + apply mcp_query_employees_lists, passes_min_performance_0.
    + apply mcp_query_employees_lists, passes_department_empty.
    + apply mcp_query_employees_lists, passes_level_empty.
    + by apply mcp_get_team_hierarchy_top_managers.
Qed.

End FalsyListing.

(** An employee with a score of -1 passes a query_employees call with
    [min_performance: 0] whatever the other filters let through, and the
    hierarchy of the start-up table shows its two top managers. *)
Example top_managers_of_the_sample :
  (Raw.call_tool (H := Reference.builtins) "get_team_hierarchy"
     (Some (arguments [("manager_id", JNum 0)])) (fresh sample_database)).1
  = inr (text_result
           ("チーム階層構造:" ++ lf ++ lf ++
            "山田部長 (M3) - プロダクト部" ++ lf ++
            "  ├─ 小林プロダクト | P6 | パフォーマンス: 4.1" ++ lf ++ lf ++
            "田中マネージャー (M2) - 技術部" ++ lf ++
            "  ├─ 佐藤主任 | M1 | パフォーマンス: 4.4")).
Proof. vm_compute. reflexivity. Qed.

(** ** Arguments that do not match the schema: who rejects them *)

Section SchemaMismatch.
Context `{Builtins}.






End SchemaMismatch.


(** Without an arguments object the McpServer runs a handler all of whose
    arguments are optional, and rejects one that requires an argument. *)
Example mcp_calls_without_arguments :
  (exists result,
      (Mcp.call_tool (H := Reference.builtins) "query_employees" None
         (fresh sample_database)).1 = inr result) /\
  Mcp.call_tool (H := Reference.builtins) "add_employee" None (fresh sample_database)
  = (inl (McpError "Invalid arguments"), fresh sample_database).
Proof. split; [eexists |]; vm_compute; reflexivity. Qed.
